(** * Shopping-mall tax calculator: header detection, merge resolution,
      row extraction and aggregation

    A shallow embedding of [src/services/ExcelService.ts] and
    [src/services/CalculationService.ts], with the properties of the
    natural-language specification stated and proved over it.

    Conventions of the embedding.
    - A JavaScript string is the list of its UTF-16 code units.
    - A JavaScript number is an exact rational, or NaN, or a signed infinity;
      rounding to IEEE doubles is outside the model.  A numeric spreadsheet
      cell always carries a finite number.
    - Array holes read as [undefined] and are identified with it.
    - What the language runtime decides and the program does not (case
      mapping of arbitrary scripts, the textual rendering of fractions and of
      dates, the time zone) is collected in the record [Runtime]; the
      strategies that read a date from a text, which end in the runtime's
      own date parser, are a parameter of [parseDate].  Every general
      theorem holds for every runtime and every such parameter. *)

From Stdlib Require Import String Ascii.
From Stdlib Require Import List ZArith NArith QArith Qabs Bool.
From Stdlib Require Import Lia Arith Permutation Sorted.
From Stdlib Require DecimalPos DecimalN.
Import ListNotations.

Close Scope Q_scope.

(** ** Strings *)

Definition jsstring := list N.

Definition jsstring_eqb (a b : jsstring) : bool :=
  if list_eq_dec N.eq_dec a b then true else false.

(** Source literals are written in UTF-8; [utf8_decode] turns the bytes of a
    literal into code points and [utf16_encode] into code units. *)
Fixpoint utf8_decode (bs : list N) : list N :=
  match bs with
  | [] => []
  | b0 :: t0 =>
    if (b0 <? 128)%N then b0 :: utf8_decode t0
    else match t0 with
    | [] => [b0]
    | b1 :: t1 =>
      if (b0 <? 224)%N
      then ((b0 - 192) * 64 + (b1 - 128))%N :: utf8_decode t1
      else match t1 with
      | [] => [b0; b1]
      | b2 :: t2 =>
        if (b0 <? 240)%N
        then ((b0 - 224) * 4096 + (b1 - 128) * 64 + (b2 - 128))%N
               :: utf8_decode t2
        else match t2 with
        | [] => [b0; b1; b2]
        | b3 :: t3 =>
          ((b0 - 240) * 262144 + (b1 - 128) * 4096
             + (b2 - 128) * 64 + (b3 - 128))%N :: utf8_decode t3
        end
      end
    end
  end.

Definition utf16_encode (cp : N) : list N :=
  if (cp <? 65536)%N then [cp]
  else [(55296 + (cp - 65536) / 1024)%N; (56320 + (cp - 65536) mod 1024)%N].

Definition js (s : string) : jsstring :=
  flat_map utf16_encode
    (utf8_decode (map N_of_ascii (list_ascii_of_string s))).

Arguments js s%_string.

(** [WhiteSpace] and [LineTerminator] of ECMA-262: the class [\s] of regular
    expressions and the characters removed by [String.prototype.trim]. *)
Definition isWhiteSpace (c : N) : bool :=
  ((9 <=? c) && (c <=? 13) || (c =? 32) || (c =? 160) || (c =? 5760)
   || (8192 <=? c) && (c <=? 8202) || (c =? 8232) || (c =? 8233)
   || (c =? 8239) || (c =? 8287) || (c =? 12288) || (c =? 65279))%N.

Fixpoint trimStart (s : jsstring) : jsstring :=
  match s with
  | c :: t => if isWhiteSpace c then trimStart t else s
  | [] => []
  end.

Definition trimEnd (s : jsstring) : jsstring := rev (trimStart (rev s)).

Definition trim (s : jsstring) : jsstring := trimEnd (trimStart s).

Fixpoint startsWith (s p : jsstring) {struct p} : bool :=
  match p, s with
  | [], _ => true
  | _ :: _, [] => false
  | a :: p', b :: s' => (a =? b)%N && startsWith s' p'
  end.

(** [String.prototype.includes]: [p] occurs in [s] as a substring. *)
Fixpoint includes (s p : jsstring) : bool :=
  startsWith s p ||
  match s with
  | [] => false
  | _ :: t => includes t p
  end.

(** [Array.prototype.some] and [Array.prototype.includes] on lists. *)
Definition some {A} (f : A -> bool) (l : list A) : bool := existsb f l.

Definition arr_includes (l : list jsstring) (x : jsstring) : bool :=
  existsb (jsstring_eqb x) l.

(** ** Numbers *)

Inductive number :=
| NaN
| Fin (q : Q)
| Inf (negative : bool).

Definition isNaN (n : number) : bool :=
  match n with NaN => true | _ => false end.

(** [a + b] on numbers. *)
Definition num_add (a b : number) : number :=
  match a, b with
  | NaN, _ | _, NaN => NaN
  | Fin p, Fin q => Fin (p + q)
  | Inf s, Fin _ | Fin _, Inf s => Inf s
  | Inf s, Inf t => if Bool.eqb s t then Inf s else NaN
  end.

(** [n === 0]. *)
Definition num_is_zero (n : number) : bool :=
  match n with
  | Fin q => (Qnum q =? 0)%Z
  | _ => false
  end.

(** Truthiness of a number: neither zero nor NaN. *)
Definition num_truthy (n : number) : bool :=
  match n with
  | NaN => false
  | Fin q => negb (Qnum q =? 0)%Z
  | Inf _ => true
  end.

(** Numbers are compared up to the value of the fraction. *)
Definition num_equiv (a b : number) : Prop :=
  match a, b with
  | NaN, NaN => True
  | Fin p, Fin q => (p == q)%Q
  | Inf s, Inf t => s = t
  | _, _ => False
  end.

Definition ofZ (z : Z) : number := Fin (inject_Z z).

(** [a === b] on numbers. *)
Definition num_strict_eq (a b : number) : bool :=
  match a, b with
  | Fin p, Fin q => Qeq_bool p q
  | Inf s, Inf t => Bool.eqb s t
  | _, _ => false
  end.

(** *** Decimal rendering of integers *)

Fixpoint uintCodes (u : Decimal.uint) : jsstring :=
  match u with
  | Decimal.Nil => []
  | Decimal.D0 u => 48%N :: uintCodes u
  | Decimal.D1 u => 49%N :: uintCodes u
  | Decimal.D2 u => 50%N :: uintCodes u
  | Decimal.D3 u => 51%N :: uintCodes u
  | Decimal.D4 u => 52%N :: uintCodes u
  | Decimal.D5 u => 53%N :: uintCodes u
  | Decimal.D6 u => 54%N :: uintCodes u
  | Decimal.D7 u => 55%N :: uintCodes u
  | Decimal.D8 u => 56%N :: uintCodes u
  | Decimal.D9 u => 57%N :: uintCodes u
  end.

Definition natToString (n : N) : jsstring := uintCodes (N.to_uint n).

Definition intToString (z : Z) : jsstring :=
  if (z <? 0)%Z then 45%N :: natToString (Z.abs_N z)
  else natToString (Z.to_N z).

(** *** Numeric literals: [parseFloat] and [Number(string)] *)

Definition isDigit (c : N) : bool := ((48 <=? c) && (c <=? 57))%N.

Fixpoint takeDigits (s : jsstring) : jsstring * jsstring :=
  match s with
  | c :: t =>
    if isDigit c then let (d, r) := takeDigits t in (c :: d, r) else ([], s)
  | [] => ([], [])
  end.

Definition decFold (acc : N) (ds : jsstring) : N :=
  fold_left (fun acc c => (acc * 10 + (c - 48))%N) ds acc.

Definition decValue (ds : jsstring) : N := decFold 0 ds.

(** The mathematical value [m * 10 ^ k]. *)
Definition scale10 (m : N) (k : Z) : Q :=
  if (0 <=? k)%Z then inject_Z (Z.of_N m * 10 ^ k)
  else Qmake (Z.of_N m) (Pos.pow 10 (Z.to_pos (- k))).

(** [ExponentPart]: [e] or [E], an optional sign and at least one digit; when
    the digits are missing the exponent is not part of the literal. *)
Definition exponentPart (s : jsstring) : Z * jsstring :=
  match s with
  | c :: t =>
    if ((c =? 101) || (c =? 69))%N then
      let '(neg, t') :=
        match t with
        | sg :: u =>
          if (sg =? 45)%N then (true, u)
          else if (sg =? 43)%N then (false, u) else (false, t)
        | [] => (false, t)
        end in
      let (d, r) := takeDigits t' in
      match d with
      | [] => (0%Z, s)
      | _ => ((if neg then - Z.of_N (decValue d) else Z.of_N (decValue d))%Z, r)
      end
    else (0%Z, s)
  | [] => (0%Z, s)
  end.

(** The longest prefix that is a [StrUnsignedDecimalLiteral], with the rest. *)
Definition strUnsignedDecimalLiteral (s : jsstring)
  : option (number * jsstring) :=
  if startsWith s (js "Infinity") then Some (Inf false, skipn 8 s)
  else
    let (ip, r1) := takeDigits s in
    match r1 with
    | 46%N :: r2 =>
      let (fp, r3) := takeDigits r2 in
      match ip, fp with
      | [], [] => None
      | _, _ =>
        let (e, r4) := exponentPart r3 in
        Some (Fin (scale10 (decValue (ip ++ fp))
                           (e - Z.of_nat (length fp))), r4)
      end
    | _ =>
      match ip with
      | [] => None
      | _ => let (e, r4) := exponentPart r1 in
             Some (Fin (scale10 (decValue ip) e), r4)
      end
    end.

Definition num_neg (n : number) : number :=
  match n with
  | NaN => NaN
  | Fin q => Fin (- q)
  | Inf s => Inf (negb s)
  end.

Definition strDecimalLiteral (s : jsstring) : option (number * jsstring) :=
  match s with
  | 45%N :: t =>
    match strUnsignedDecimalLiteral t with
    | Some (v, r) => Some (num_neg v, r)
    | None => None
    end
  | 43%N :: t => strUnsignedDecimalLiteral t
  | _ => strUnsignedDecimalLiteral s
  end.

(** [parseFloat]: leading white space is skipped, the longest literal prefix
    is read, and anything after it is ignored. *)
Definition parseFloat (s : jsstring) : number :=
  match strDecimalLiteral (trimStart s) with
  | Some (v, _) => v
  | None => NaN
  end.

Definition digitOfBase (base c : N) : option N :=
  let v := if isDigit c then Some (c - 48)%N
           else if ((97 <=? c) && (c <=? 102))%N then Some (c - 87)%N
           else if ((65 <=? c) && (c <=? 70))%N then Some (c - 55)%N
           else None in
  match v with
  | Some d => if (d <? base)%N then Some d else None
  | None => None
  end.

Fixpoint valueInBase (base : N) (acc : N) (s : jsstring) : option N :=
  match s with
  | [] => Some acc
  | c :: t =>
    match digitOfBase base c with
    | Some d => valueInBase base (acc * base + d)%N t
    | None => None
    end
  end.

Definition nonDecimalIntegerLiteral (s : jsstring) : option (option N) :=
  match s with
  | 48%N :: p :: (_ :: _) as ds =>
    if ((p =? 120) || (p =? 88))%N then Some (valueInBase 16 0 ds)
    else if ((p =? 111) || (p =? 79))%N then Some (valueInBase 8 0 ds)
    else if ((p =? 98) || (p =? 66))%N then Some (valueInBase 2 0 ds)
    else None
  | _ => None
  end.

(** [Number(s)] on a string: the whole trimmed string must be a literal, and
    the empty string is zero. *)
Definition Number_ofString (s : jsstring) : number :=
  match trim s with
  | [] => Fin 0
  | t =>
    match nonDecimalIntegerLiteral t with
    | Some (Some v) => Fin (inject_Z (Z.of_N v))
    | Some None => NaN
    | None =>
      match strDecimalLiteral t with
      | Some (v, []) => v
      | _ => NaN
      end
    end
  end.

(** ** Cells, dates and the runtime *)

(** A [Date] object: its time value in milliseconds since 1970-01-01T00:00Z,
    or the invalid date. *)
Inductive Date :=
| InvalidDate
| ValidDate (t : Z).

(** A raw cell of a sheet: absent ([undefined], which is also what a hole or
    an index past the end of a row reads as, or [null]), a finite number, a
    text or a date. *)
Inductive Cell :=
| CUndef
| CNull
| CNum (q : Q)
| CStr (s : jsstring)
| CDate (d : Date).

Definition Row := list Cell.
Definition Grid := list Row.

Record Runtime := {
  (** [String.prototype.toLowerCase] *)
  toLowerCase : jsstring -> jsstring;
  (** [Number.prototype.toString] on numbers that are not plain integers *)
  fracToString : Q -> jsstring;
  (** [Date.prototype.toString] *)
  dateToString : Date -> jsstring;
  (** the local time value of a time value (time zone and daylight saving) *)
  localTime : Z -> Z
}.

(** [cell != null] *)
Definition notNullish (c : Cell) : bool :=
  match c with CUndef | CNull => false | _ => true end.

(** Truthiness, as tested by [!cell], [cell || x] and [cell && x]. *)
Definition truthy (c : Cell) : bool :=
  match c with
  | CUndef | CNull => false
  | CNum q => negb (Qnum q =? 0)%Z
  | CStr [] => false
  | CStr (_ :: _) => true
  | CDate _ => true
  end.

(** [row[i]] *)
Definition cellAt (row : Row) (i : nat) : Cell := nth i row CUndef.

Definition isPlainInteger (q : Q) : bool :=
  ((Qnum q mod Zpos (Qden q) =? 0)
   && (Z.abs (Qnum q / Zpos (Qden q)) <? 10 ^ 21))%Z.

Section WithRuntime.

Variable RT : Runtime.

(** [Number.prototype.toString]: an integer below 10^21 in magnitude is
    rendered in plain decimal. *)
Definition Number_toString (q : Q) : jsstring :=
  if isPlainInteger q then intToString (Qnum q / Zpos (Qden q))
  else fracToString RT q.

(** [String(c)]; the method call [c.toString()] agrees with it wherever the
    program makes it, that is on cells already known not to be nullish. *)
Definition toString (c : Cell) : jsstring :=
  match c with
  | CUndef => js "undefined"
  | CNull => js "null"
  | CNum q => Number_toString q
  | CStr s => s
  | CDate d => dateToString RT d
  end.

(** [Number(c)] *)
Definition Number_ofCell (c : Cell) : number :=
  match c with
  | CUndef => NaN
  | CNull => Fin 0
  | CNum q => Fin q
  | CStr s => Number_ofString s
  | CDate InvalidDate => NaN
  | CDate (ValidDate t) => Fin (inject_Z t)
  end.

End WithRuntime.

(** ** Amount parsing ([parseAmount]) *)

(** The class [[₩$,\s]] removed from an amount text. *)
Definition isAmountNoise (c : N) : bool :=
  ((c =? 8361) || (c =? 36) || (c =? 44))%N || isWhiteSpace c.

Definition cleanAmount (s : jsstring) : jsstring :=
  filter (fun c => negb (isAmountNoise c)) s.

(** [n || 0] *)
Definition orZero (n : number) : number :=
  if num_truthy n then n else Fin 0.

Definition parseAmount (value : Cell) : number :=
  match value with
  | CNum q => Fin q
  | CStr s => orZero (parseFloat (cleanAmount s))
  | _ => Fin 0
  end.

(** ** Dates *)

Definition msPerDay : Z := 86400000.

(** Days between 1970-01-01 and a day of the proleptic Gregorian calendar. *)
Definition days_from_civil (y m d : Z) : Z :=
  let y' := if (m <=? 2)%Z then (y - 1)%Z else y in
  let era := (y' / 400)%Z in
  let yoe := (y' - era * 400)%Z in
  let mp := if (m <=? 2)%Z then (m + 9)%Z else (m - 3)%Z in
  let doy := ((153 * mp + 2) / 5 + d - 1)%Z in
  let doe := (yoe * 365 + yoe / 4 - yoe / 100 + doy)%Z in
  (era * 146097 + doe - 719468)%Z.

(** The calendar day (year, month 1..12, day of month) of a day number. *)
Definition civil_from_days (z : Z) : Z * Z * Z :=
  let z' := (z + 719468)%Z in
  let era := (z' / 146097)%Z in
  let doe := (z' - era * 146097)%Z in
  let yoe := ((doe - doe / 1460 + doe / 36524 - doe / 146096) / 365)%Z in
  let doy := (doe - (365 * yoe + yoe / 4 - yoe / 100))%Z in
  let mp := ((5 * doy + 2) / 153)%Z in
  let d := (doy - (153 * mp + 2) / 5 + 1)%Z in
  let m := if (mp <? 10)%Z then (mp + 3)%Z else (mp - 9)%Z in
  let y := (yoe + era * 400)%Z in
  (if (m <=? 2)%Z then (y + 1)%Z else y, m, d).

(** The time value of midnight UTC of a calendar day. *)
Definition utcMidnight (y m d : Z) : Z := (days_from_civil y m d * msPerDay)%Z.

Definition utcFields (t : Z) : Z * Z * Z := civil_from_days (t / msPerDay).

(** [date.getFullYear()] and [date.getMonth()] of a valid date: the fields of
    its local time. *)
Definition getFullYear (RT : Runtime) (t : Z) : Z :=
  let '(y, _, _) := civil_from_days (localTime RT t / msPerDay) in y.

Definition getMonth (RT : Runtime) (t : Z) : Z :=
  let '(_, m, _) := civil_from_days (localTime RT t / msPerDay) in (m - 1)%Z.

(** [new Date(x)] for a finite [x] within the range of time values: the
    fraction of a millisecond is dropped (towards zero). *)
Definition newDate_ofNumber (x : Q) : Z := Z.quot (Qnum x) (Zpos (Qden x)).

(** ** Date parsing ([parseDate])

    The value returned is the time value of the [Date] the method returns
    (it never returns an invalid date), or [None] for [null].

    [parseDateText] stands for the strategies tried on a non-empty trimmed
    string (ranges, year-month, full dates, date-times, the runtime's own
    parser and the day-only form resolved against the title of the file);
    each of them builds its date from range-checked fields or checks the
    parsed date for validity. *)
Definition parseDate (parseDateText : jsstring -> option Z) (dateValue : Cell)
  : option Z :=
  match dateValue with
  | CUndef | CNull => None
  | CStr [] => None
  | CDate InvalidDate => None
  | CDate (ValidDate t) => Some t
  | CNum q =>
    if Qlt_le_dec q 1 then None
    else if Qlt_le_dec 2958465 q then None
    else Some (newDate_ofNumber ((q - 25569) * 86400 * 1000))
  | CStr s =>
    match trim s with
    | [] => None
    | trimmed => parseDateText trimmed
    end
  end.

(** ** Merge resolution ([processMergedCells])

    Rows are mutable arrays: the store maps an address to the row array
    found there, and a grid is the list of the addresses of its rows. *)

Record MergeRegion := {
  s_r : nat;  (** [merge.s.r] *)
  s_c : nat;  (** [merge.s.c] *)
  e_r : nat;  (** [merge.e.r] *)
  e_c : nat   (** [merge.e.c] *)
}.

Definition addr := nat.
Definition Heap := list Row.

Definition rowOf (h : Heap) (a : addr) : Row := nth a h [].

(** The grid a list of row addresses denotes in a store. *)
Definition readGrid (h : Heap) (rows : list addr) : Grid := map (rowOf h) rows.

(** [row[c] = v]: an assignment past the end extends the array, and the
    positions skipped read as [undefined]. *)
Definition setCell (row : Row) (c : nat) (v : Cell) : Row :=
  if c <? length row then firstn c row ++ v :: skipn (S c) row
  else row ++ repeat CUndef (c - length row) ++ [v].

Definition heapSetCell (h : Heap) (a : addr) (c : nat) (v : Cell) : Heap :=
  match nth_error h a with
  | Some row => firstn a h ++ setCell row c v :: skipn (S a) h
  | None => h
  end.

(** [data.map(row => [...row])]: every row is copied to a fresh array; the
    copies take the next free addresses, in order. *)
Definition copyRows (h : Heap) (data : list addr) : Heap * list addr :=
  (h ++ map (rowOf h) data, seq (length h) (length data)).

(** The body of the inner loop: [if (!processedData[r][c])
    processedData[r][c] = value].  The guard [if (!processedData[r])] before
    it never fires, every [r] below the length being a row. *)
Definition fillCell (value : Cell) (processedData : list addr) (r c : nat)
  (h : Heap) : Heap :=
  match nth_error processedData r with
  | Some a =>
    if truthy (cellAt (rowOf h a) c) then h else heapSetCell h a c value
  | None => h
  end.

(** The columns [merge.s.c .. merge.e.c] and the rows
    [merge.s.r .. merge.e.r] below [processedData.length]. *)
Definition mergeCols (m : MergeRegion) : list nat :=
  seq (s_c m) (S (e_c m) - s_c m).

Definition mergeRows (m : MergeRegion) (len : nat) : list nat :=
  seq (s_r m) (Nat.min (S (e_r m)) len - s_r m).

(** [processedData[merge.s.r]?.[merge.s.c]] *)
Definition originValue (h : Heap) (processedData : list addr)
  (m : MergeRegion) : Cell :=
  match nth_error processedData (s_r m) with
  | Some a => cellAt (rowOf h a) (s_c m)
  | None => CUndef
  end.

(** One iteration of [merges.forEach]. *)
Definition processMerge (processedData : list addr) (h : Heap)
  (m : MergeRegion) : Heap :=
  let value := originValue h processedData m in
  fold_left
    (fun h r =>
       fold_left (fun h c => fillCell value processedData r c h)
                 (mergeCols m) h)
    (mergeRows m (length processedData)) h.

Definition processMergedCells (h : Heap) (data : list addr)
  (merges : list MergeRegion) : Heap * list addr :=
  let (h1, processedData) := copyRows h data in
  (fold_left (processMerge processedData) merges h1, processedData).

(** *** The same on grids as values *)

Definition cellOf (g : Grid) (r c : nat) : Cell := cellAt (nth r g []) c.

Definition inRect (m : MergeRegion) (r c : nat) : Prop :=
  s_r m <= r <= e_r m /\ s_c m <= c <= e_c m.

Definition inRectb (m : MergeRegion) (r c : nat) : bool :=
  (s_r m <=? r) && (r <=? e_r m) && (s_c m <=? c) && (c <=? e_c m).

(** Two regions overlap when they share a cell. *)
Definition overlap (m1 m2 : MergeRegion) : Prop :=
  exists r c, inRect m1 r c /\ inRect m2 r c.

Definition overlapb (m1 m2 : MergeRegion) : bool :=
  (Nat.max (s_r m1) (s_r m2) <=? Nat.min (e_r m1) (e_r m2))
  && (Nat.max (s_c m1) (s_c m2) <=? Nat.min (e_c m1) (e_c m2)).

(** The invariant of merge regions: no two of them overlap. *)
Fixpoint nonOverlapping (ms : list MergeRegion) : Prop :=
  match ms with
  | [] => True
  | m :: rest => Forall (fun m' => ~ overlap m m') rest /\ nonOverlapping rest
  end.

Definition rowFillCell (value : Cell) (row : Row) (c : nat) : Row :=
  if truthy (cellAt row c) then row else setCell row c value.

Definition fillRow (value : Cell) (m : MergeRegion) (row : Row) : Row :=
  fold_left (rowFillCell value) (mergeCols m) row.

Definition updRow (g : Grid) (r : nat) (row : Row) : Grid :=
  firstn r g ++ row :: skipn (S r) g.

Definition gridFillCell (value : Cell) (r c : nat) (g : Grid) : Grid :=
  if r <? length g then
    if truthy (cellOf g r c) then g
    else updRow g r (setCell (nth r g []) c value)
  else g.

Definition fillRegion (g : Grid) (m : MergeRegion) : Grid :=
  let value := cellOf g (s_r m) (s_c m) in
  fold_left
    (fun g r =>
       fold_left (fun g c => gridFillCell value r c g) (mergeCols m) g)
    (mergeRows m (length g)) g.

Definition resolveMerges (g : Grid) (merges : list MergeRegion) : Grid :=
  fold_left fillRegion merges g.

(** An absent or empty cell: [undefined], [null] or the empty text. *)
Definition isBlank (c : Cell) : bool :=
  match c with
  | CUndef | CNull | CStr [] => true
  | _ => false
  end.

(** ** Objects and sorting *)

(** A plain object used as a map from property names to values, in the order
    in which the properties were created. *)
Definition JsObject (V : Type) := list (jsstring * V).

Fixpoint objGet {V} (o : JsObject V) (k : jsstring) : option V :=
  match o with
  | [] => None
  | (k', v) :: rest => if jsstring_eqb k k' then Some v else objGet rest k
  end.

(** [o[k] = v]: an existing property keeps its place. *)
Fixpoint objSet {V} (o : JsObject V) (k : jsstring) (v : V) : JsObject V :=
  match o with
  | [] => [(k, v)]
  | (k', v') :: rest =>
    if jsstring_eqb k k' then (k', v) :: rest else (k', v') :: objSet rest k v
  end.

(** A property name that is an array index: the canonical decimal form of an
    integer below 2^32 - 1. *)
Definition isArrayIndex (k : jsstring) : bool :=
  match k with
  | [] => false
  | c :: t =>
    forallb isDigit k
    && (negb (c =? 48)%N || match t with [] => true | _ => false end)
    && (decValue k <? 4294967295)%N
  end.

Fixpoint insertIndexKey {V} (e : jsstring * V) (l : JsObject V) : JsObject V :=
  match l with
  | [] => [e]
  | e' :: rest =>
    if (decValue (fst e) <=? decValue (fst e'))%N then e :: l
    else e' :: insertIndexKey e rest
  end.

(** [Object.entries(o)] (and, with [map fst], [Object.keys(o)]): array
    indices first, in ascending order, then the other names in creation
    order. *)
Definition Object_entries {V} (o : JsObject V) : JsObject V :=
  fold_right insertIndexKey [] (filter (fun e => isArrayIndex (fst e)) o)
  ++ filter (fun e => negb (isArrayIndex (fst e))) o.

Definition Object_keys {V} (o : JsObject V) : list jsstring :=
  map fst (Object_entries o).

Definition num_sub (a b : number) : number := num_add a (num_neg b).

(** [n > 0] *)
Definition num_pos (n : number) : bool :=
  match n with
  | NaN => false
  | Fin q => (0 <? Qnum q)%Z
  | Inf s => negb s
  end.

(** [Array.prototype.sort] with a comparison function: the sort is stable,
    and [x] goes after [y] when the comparison of [x] with [y] is positive. *)
Fixpoint sortInsert {A} (cmp : A -> A -> number) (x : A) (l : list A)
  : list A :=
  match l with
  | [] => [x]
  | y :: rest =>
    if num_pos (cmp x y) then y :: sortInsert cmp x rest else x :: l
  end.

Definition Array_sort {A} (cmp : A -> A -> number) (l : list A) : list A :=
  fold_right (sortInsert cmp) [] l.

(** [s.split(sep)] for a separator of one character. *)
Fixpoint splitOn (sep : N) (s : jsstring) : list jsstring :=
  match s with
  | [] => [[]]
  | c :: t =>
    if (c =? sep)%N then [] :: splitOn sep t
    else match splitOn sep t with
         | part :: parts => (c :: part) :: parts
         | [] => [[c]]
         end
  end.

(** ** Aggregation ([CalculationService.calculateTotals]) *)

Record MonthlyData := {
  month : Z;
  year : Z;
  taxExemptAmount : number;
  taxableAmount : number
}.

Record MonthlyTotal := {
  mt_month : number;
  mt_year : number;
  mt_taxExempt : number;
  mt_taxable : number;
  mt_total : number
}.

Record YearlyTotal := {
  yt_taxExempt : number;
  yt_taxable : number;
  yt_total : number
}.

Record CalculationResult := {
  cr_mallName : jsstring;
  monthlyTotals : list MonthlyTotal;
  yearlyTotal : YearlyTotal
}.

Record ShoppingMallData := {
  mallName : jsstring;
  filePath : jsstring;
  data : list MonthlyData
}.

(** [`${item.year}-${item.month}`] *)
Definition yearMonthKey (y m : Z) : jsstring :=
  intToString y ++ js "-" ++ intToString m.

(** The body of the reduction in [groupByYearMonth]. *)
Definition groupStep (groups : JsObject (list MonthlyData))
  (item : MonthlyData) : JsObject (list MonthlyData) :=
  let key := yearMonthKey (year item) (month item) in
  let groups :=
    match objGet groups key with
    | Some _ => groups
    | None => objSet groups key []
    end in
  match objGet groups key with
  | Some items => objSet groups key (items ++ [item])
  | None => groups
  end.

Definition groupByYearMonth (data : list MonthlyData)
  : JsObject (list MonthlyData) :=
  fold_left groupStep data [].

(** [items.reduce((sum, item) => sum + f(item), 0)] *)
Definition sumOf (f : MonthlyData -> number) (items : list MonthlyData)
  : number :=
  fold_left (fun sum item => num_add sum (f item)) items (Fin 0).

(** The comparison function of the final sort:
    [if (a.year !== b.year) return a.year - b.year;
     return a.month - b.month]. *)
Definition byYearMonth (a b : MonthlyTotal) : number :=
  if negb (num_strict_eq (mt_year a) (mt_year b))
  then num_sub (mt_year a) (mt_year b)
  else num_sub (mt_month a) (mt_month b).

(** The body of [Object.entries(groupedData).forEach]; the two numbers of a
    key are [yearMonth.split('-').map(Number)], of which the first two are
    taken (a key always has them). *)
Definition addGroup
  (acc : list MonthlyTotal * number * number)
  (entry : jsstring * list MonthlyData)
  : list MonthlyTotal * number * number :=
  let '(monthlyTotals, yearlyTaxExempt, yearlyTaxable) := acc in
  let (yearMonth, items) := entry in
  let parts := map Number_ofString (splitOn 45 yearMonth) in
  let year := nth 0 parts NaN in
  let month := nth 1 parts NaN in
  let monthlyTaxExempt := sumOf taxExemptAmount items in
  let monthlyTaxable := sumOf taxableAmount items in
  (monthlyTotals ++
     [{| mt_month := month; mt_year := year;
         mt_taxExempt := monthlyTaxExempt; mt_taxable := monthlyTaxable;
         mt_total := num_add monthlyTaxExempt monthlyTaxable |}],
   num_add yearlyTaxExempt monthlyTaxExempt,
   num_add yearlyTaxable monthlyTaxable).

Definition calculateTotals (mallData : ShoppingMallData) : CalculationResult :=
  let groupedData := groupByYearMonth (data mallData) in
  let '(monthlyTotals, yearlyTaxExempt, yearlyTaxable) :=
    fold_left addGroup (Object_entries groupedData) ([], Fin 0, Fin 0) in
  {| cr_mallName := mallName mallData;
     monthlyTotals := Array_sort byYearMonth monthlyTotals;
     yearlyTotal :=
       {| yt_taxExempt := yearlyTaxExempt;
          yt_taxable := yearlyTaxable;
          yt_total := num_add yearlyTaxExempt yearlyTaxable |} |}.

(** *** What the aggregation computes, stated on (year, month) pairs *)

Definition YM := (Z * Z)%type.

Definition ym_eqb (a b : YM) : bool :=
  ((fst a =? fst b) && (snd a =? snd b))%Z.

Definition keyOf (item : MonthlyData) : YM := (year item, month item).

Definition keyStr (k : YM) : jsstring := yearMonthKey (fst k) (snd k).

(** The records of one (year, month), in input order. *)
Definition recordsOf (k : YM) (data : list MonthlyData) : list MonthlyData :=
  filter (fun item => ym_eqb (keyOf item) k) data.

(** The (year, month) pairs of the records, each once, in the order of their
    first appearance. *)
Definition addKey (ks : list YM) (k : YM) : list YM :=
  if existsb (ym_eqb k) ks then ks else ks ++ [k].

Definition keysOf (data : list MonthlyData) : list YM :=
  fold_left (fun ks item => addKey ks (keyOf item)) data [].

(** The total of one (year, month): component-wise sums and their sum. *)
Definition totalOf (data : list MonthlyData) (k : YM) : MonthlyTotal :=
  let monthlyTaxExempt := sumOf taxExemptAmount (recordsOf k data) in
  let monthlyTaxable := sumOf taxableAmount (recordsOf k data) in
  {| mt_month := ofZ (snd k); mt_year := ofZ (fst k);
     mt_taxExempt := monthlyTaxExempt; mt_taxable := monthlyTaxable;
     mt_total := num_add monthlyTaxExempt monthlyTaxable |}.

(** Ascending by year, then by month. *)
Definition ym_lt (a b : YM) : Prop :=
  (fst a < fst b \/ (fst a = fst b /\ snd a < snd b))%Z.

Definition ym_gtb (a b : YM) : bool :=
  ((fst b <? fst a) || ((fst a =? fst b) && (snd b <? snd a)))%Z.

Definition ym_le (a b : YM) : Prop := ym_gtb a b = false.

Fixpoint insertKey (k : YM) (l : list YM) : list YM :=
  match l with
  | [] => [k]
  | k' :: rest => if ym_gtb k k' then k' :: insertKey k rest else k :: l
  end.

Definition sortKeys (ks : list YM) : list YM := fold_right insertKey [] ks.

Definition nonNegative (k : YM) : Prop := (0 <= fst k /\ 0 <= snd k)%Z.

(** What [groupByYearMonth] holds after a prefix of the records: one entry
    per (year, month) met so far, in order of first appearance, with the
    records of that month in input order. *)
Definition groupsOf (ks : list YM) (pre : list MonthlyData)
  : JsObject (list MonthlyData) :=
  map (fun k => (keyStr k, recordsOf k pre)) ks.

(** The three records of the worked example. *)
Definition sampleRecords : list MonthlyData :=
  [ {| month := 1; year := 2024;
       taxExemptAmount := Fin 1000000; taxableAmount := Fin 500000 |};
    {| month := 1; year := 2024;
       taxExemptAmount := Fin 2000000; taxableAmount := Fin 1000000 |};
    {| month := 2; year := 2024;
       taxExemptAmount := Fin 1500000; taxableAmount := Fin 750000 |} ].

Definition sampleMall : ShoppingMallData :=
  {| mallName := js "Mall"; filePath := js "mall.xlsx";
     data := sampleRecords |}.

(** ** Row extraction *)

Record ProcessingOptions := {
  dateColumn : option jsstring;
  taxExemptColumn : option jsstring;
  taxableColumn : option jsstring;
  useTaxTypeClassification : bool;
  taxTypeColumn : option jsstring;
  amountColumn : option jsstring;
  taxExemptValues : option (list jsstring);
  taxableValues : option (list jsstring);
  useMultiColumnSum : bool;
  amountColumns : option (list jsstring)
}.

(** A data row: the object built from the header names and the cells under
    them.  Names are looked up among the properties of the row itself. *)
Definition RowObject := JsObject Cell.

(** [row[name]] *)
Definition getProp (row : RowObject) (name : jsstring) : Cell :=
  match objGet row name with
  | Some c => c
  | None => CUndef
  end.

(** [name || fallback] for an optional text. *)
Definition orElse (name : option jsstring) (fallback : jsstring) : jsstring :=
  match name with
  | Some (c :: s) => c :: s
  | _ => fallback
  end.

(** [!name] for an optional text: unset or empty. *)
Definition unset (name : option jsstring) : bool :=
  match name with
  | Some (_ :: _) => false
  | _ => true
  end.

(** One running total of [groupedByDate]. *)
Record DateGroup := {
  dg_date : Z;
  dg_taxExempt : number;
  dg_taxable : number
}.

Definition summaryPatterns : list jsstring :=
  [js "합계"; js "총계"; js "계"; js "소계"; js "총합";
   js "total"; js "sum"; js "subtotal"].

Definition defaultTaxExemptValues : list jsstring :=
  [js "면세"; js "면세상품"; js "0%"; js "영세율"; js "FREE"].

Definition defaultTaxableValues : list jsstring :=
  [js "과세"; js "과세상품"; js "10%"; js "부가세"; js "TAX"].

(** [`${date.getFullYear()}-${date.getMonth() + 1}`] *)
Definition dateKey (RT : Runtime) (date : Z) : jsstring :=
  intToString (getFullYear RT date) ++ js "-"
  ++ intToString (getMonth RT date + 1).

Section RowExtraction.

Variable RT : Runtime.
Variable parseDateText : jsstring -> option Z.

Definition isSummaryRow (dateValue : Cell) : bool :=
  match dateValue with
  | CUndef | CNull | CStr [] => false
  | _ =>
    let dateStr := trim (toString RT dateValue) in
    some (fun pattern =>
            includes (toLowerCase RT dateStr) (toLowerCase RT pattern))
         summaryPatterns
  end.

(** [values.some(val => taxType.toLowerCase().includes(val.toLowerCase())
    || taxType === val)] *)
Definition matchesAny (taxType : jsstring) (values : list jsstring) : bool :=
  some (fun val =>
          includes (toLowerCase RT taxType) (toLowerCase RT val)
          || jsstring_eqb taxType val)
       values.

(** The amount of a row: the sum of the amount columns in multi-column mode,
    the single amount column otherwise. *)
Definition rowAmount (options : ProcessingOptions) (row : RowObject)
  : number :=
  match useMultiColumnSum options, amountColumns options with
  | true, Some (c :: cs) =>
    fold_left
      (fun sum colName =>
         let colValue := parseAmount (getProp row colName) in
         num_add sum (if isNaN colValue then Fin 0 else colValue))
      (c :: cs) (Fin 0)
  | _, _ => parseAmount (getProp row (orElse (amountColumn options) (js "금액")))
  end.

(** [String(row[taxTypeCol] || '').trim()] *)
Definition taxTypeOf (options : ProcessingOptions) (row : RowObject)
  : jsstring :=
  let v := getProp row (orElse (taxTypeColumn options) (js "과세유형")) in
  trim (if truthy v then toString RT v else []).

Definition exemptValuesOf (options : ProcessingOptions) : list jsstring :=
  match taxExemptValues options with
  | Some l => l
  | None => defaultTaxExemptValues
  end.

Definition taxableValuesOf (options : ProcessingOptions) : list jsstring :=
  match taxableValues options with
  | Some l => l
  | None => defaultTaxableValues
  end.

(** The body of [rawData.forEach] in [parseMonthlyDataWithTaxType]. *)
Definition taxTypeRow (options : ProcessingOptions)
  (groupedByDate : JsObject DateGroup) (row : RowObject)
  : JsObject DateGroup :=
  let dateValue := getProp row (orElse (dateColumn options) (js "날짜")) in
  if isSummaryRow dateValue then groupedByDate
  else
    match parseDate parseDateText dateValue with
    | None => groupedByDate
    | Some date =>
      let taxType := taxTypeOf options row in
      let amount := rowAmount options row in
      if isNaN amount || num_is_zero amount then groupedByDate
      else
        let key := dateKey RT date in
        let groupedByDate :=
          match objGet groupedByDate key with
          | Some _ => groupedByDate
          | None =>
            objSet groupedByDate key
              {| dg_date := date; dg_taxExempt := Fin 0;
                 dg_taxable := Fin 0 |}
          end in
        match objGet groupedByDate key with
        | None => groupedByDate
        | Some entry =>
          let isTaxExempt := matchesAny taxType (exemptValuesOf options) in
          let isTaxable := matchesAny taxType (taxableValuesOf options) in
          objSet groupedByDate key
            (if isTaxExempt then
               {| dg_date := dg_date entry;
                  dg_taxExempt := num_add (dg_taxExempt entry) amount;
                  dg_taxable := dg_taxable entry |}
             else if isTaxable then
               {| dg_date := dg_date entry;
                  dg_taxExempt := dg_taxExempt entry;
                  dg_taxable := num_add (dg_taxable entry) amount |}
             else
               {| dg_date := dg_date entry;
                  dg_taxExempt := dg_taxExempt entry;
                  dg_taxable := num_add (dg_taxable entry) amount |})
        end
    end.

Definition monthlyDataOf (entry : DateGroup) : MonthlyData :=
  {| month := getMonth RT (dg_date entry) + 1;
     year := getFullYear RT (dg_date entry);
     taxExemptAmount := dg_taxExempt entry;
     taxableAmount := dg_taxable entry |}.

Definition parseMonthlyDataWithTaxType (rawData : list RowObject)
  (options : ProcessingOptions) : list MonthlyData :=
  map (fun e => monthlyDataOf (snd e))
      (fold_left (taxTypeRow options) rawData []).

(** The traditional mode: one record per row with a date. *)
Definition traditionalRow (options : ProcessingOptions) (row : RowObject)
  : option MonthlyData :=
  let dateValue := getProp row (orElse (dateColumn options) (js "날짜")) in
  if isSummaryRow dateValue then None
  else
    match parseDate parseDateText dateValue with
    | None => None
    | Some date =>
      Some {| month := getMonth RT date + 1;
              year := getFullYear RT date;
              taxExemptAmount :=
                parseAmount
                  (getProp row (orElse (taxExemptColumn options)
                                       (js "면세금액")));
              taxableAmount :=
                parseAmount
                  (getProp row (orElse (taxableColumn options)
                                       (js "과세금액"))) |}
    end.

Definition parseMonthlyData (rawData : list RowObject)
  (options : ProcessingOptions) : list MonthlyData :=
  if useTaxTypeClassification options
  then parseMonthlyDataWithTaxType rawData options
  else
    flat_map
      (fun row =>
         match traditionalRow options row with
         | Some item =>
           if negb (isNaN (taxExemptAmount item))
              && negb (isNaN (taxableAmount item))
           then [item] else []
         | None => []
         end)
      rawData.

End RowExtraction.

(** A runtime for the worked examples: texts are lowercased on A-Z, the
    local time is UTC; the examples hold no fraction and no date cell, whose
    renderings are left empty. *)
Definition asciiLower (s : jsstring) : jsstring :=
  map (fun c => if ((65 <=? c) && (c <=? 90))%N then (c + 32)%N else c) s.

Definition exampleRuntime : Runtime :=
  {| toLowerCase := asciiLower;
     fracToString := fun _ => [];
     dateToString := fun _ => [];
     localTime := fun t => t |}.

(** A date parser for the worked examples: [YYYY-MM-DD] only. *)
Definition exampleParseDateText (s : jsstring) : option Z :=
  match splitOn 45 s with
  | [y; m; d] =>
    match Number_ofString y, Number_ofString m, Number_ofString d with
    | Fin qy, Fin qm, Fin qd =>
      Some (utcMidnight (Qnum qy) (Qnum qm) (Qnum qd))
    | _, _, _ => None
    end
  | _ => None
  end.

(** The plain sum of the parsed amount columns of a row. *)
Definition amountColumnsSum (row : RowObject) (cols : list jsstring) : number :=
  fold_left (fun sum colName => num_add sum (parseAmount (getProp row colName)))
            cols (Fin 0).

(** The running total of a month before a row is added: the entry of its
    key, or zero. *)
Definition totalsBefore (groups : JsObject DateGroup) (key : jsstring)
  (date : Z) : DateGroup :=
  match objGet groups key with
  | Some entry => entry
  | None => {| dg_date := date; dg_taxExempt := Fin 0; dg_taxable := Fin 0 |}
  end.

(** The options and a row of the worked example of tax-type mode: the type
    "tax free" contains both the exempt keyword FREE and the taxable keyword
    TAX. *)
Definition sampleTaxTypeOptions : ProcessingOptions :=
  {| dateColumn := Some (js "날짜");
     taxExemptColumn := None;
     taxableColumn := None;
     useTaxTypeClassification := true;
     taxTypeColumn := Some (js "과세유형");
     amountColumn := Some (js "금액");
     taxExemptValues := None;
     taxableValues := None;
     useMultiColumnSum := false;
     amountColumns := None |}.

Definition sampleTaxTypeRow : RowObject :=
  [(js "날짜", CStr (js "2024-02-01"));
   (js "과세유형", CStr (js "tax free"));
   (js "금액", CStr (js "₩1,500"))].

(** ** Column validation ([readExcelFile]) *)

Inductive Result (A : Type) :=
| Return (a : A)
| Throw (message : jsstring).

Arguments Return {A} a.
Arguments Throw {A} message.

(** [parts.join(sep)] *)
Fixpoint join (sep : jsstring) (parts : list jsstring) : jsstring :=
  match parts with
  | [] => []
  | [p] => p
  | p :: rest => p ++ sep ++ join sep rest
  end.

(** [s.replace(/\s+/g, ' ')]: every run of white space becomes one space. *)
Fixpoint collapseSpaces (s : jsstring) : jsstring :=
  match s with
  | [] => []
  | c :: t =>
    if isWhiteSpace c then
      match t with
      | c' :: _ => if isWhiteSpace c' then collapseSpaces t
                   else 32%N :: collapseSpaces t
      | [] => [32%N]
      end
    else c :: collapseSpaces t
  end.

(** [Array.prototype.find] *)
Definition find_first {A} (f : A -> bool) (l : list A) : option A := find f l.

Section Validation.

Variable RT : Runtime.
Variable parseDateText : jsstring -> option Z.

Definition normalizeHeader (headerName : jsstring) : jsstring :=
  toLowerCase RT
    (trim (collapseSpaces
             (map (fun c => if (c =? 10)%N then 32%N else c) headerName))).

(** The three strategies: the exact name, the normalized name, and the
    pattern of one vendor's settlement headers. *)
Definition findMatchingColumn (availableColumns : list jsstring)
  (searchColumn : jsstring) : option jsstring :=
  let normalizedSearch := normalizeHeader searchColumn in
  if arr_includes availableColumns searchColumn then Some searchColumn
  else
    match find_first
            (fun col => jsstring_eqb (normalizeHeader col) normalizedSearch)
            availableColumns with
    | Some (c :: s) => Some (c :: s)
    | _ =>
      if includes normalizedSearch (js "확정 정산대상금액")
         && includes normalizedSearch (js "면세")
      then
        match find_first
                (fun col =>
                   includes (normalizeHeader col) (js "확정 정산대상금액")
                   && includes (normalizeHeader col) (js "면세"))
                availableColumns with
        | Some (c :: s) => Some (c :: s)
        | _ => None
        end
      else None
    end.

(** The column a check accepts: the result of [findMatchingColumn] when it
    is truthy ([if (!matchedColumn)] rejects [null] and the empty name). *)
Definition foundColumn (availableColumns : list jsstring)
  (searchColumn : jsstring) : option jsstring :=
  match findMatchingColumn availableColumns searchColumn with
  | Some (c :: s) => Some (c :: s)
  | _ => None
  end.

(** The checks that the columns of the active mode are configured; the first
    that fails throws its own message. *)
Definition checkConfigured (options : ProcessingOptions) : option jsstring :=
  if unset (dateColumn options)
  then Some (js "날짜 컬럼이 지정되지 않았습니다.")
  else if useTaxTypeClassification options then
    if unset (taxTypeColumn options)
    then Some (js "과세유형 컬럼이 지정되어야 합니다.")
    else if useMultiColumnSum options then
      match amountColumns options with
      | Some (_ :: _) => None
      | _ => Some (js "다중 컬럼 합계 모드에서는 최소 하나의 금액 컬럼이 지정되어야 합니다.")
      end
    else if unset (amountColumn options)
    then Some (js "단일 컬럼 모드에서는 금액 컬럼이 지정되어야 합니다.")
    else None
  else if unset (taxExemptColumn options) || unset (taxableColumn options)
  then Some (js "면세금액 컬럼과 과세금액 컬럼이 모두 지정되어야 합니다.")
  else None.

(** [`${label} '${name}'`] *)
Definition describeColumn (label name : jsstring) : jsstring :=
  label ++ js " '" ++ name ++ js "'".

(** The check of one configured column: the name found replaces the
    configured one, a name not found is added to [missingColumns]. *)
Definition matchColumn (availableColumns : list jsstring) (label : jsstring)
  (name : option jsstring) (missingColumns : list jsstring)
  : option jsstring * list jsstring :=
  let searchColumn := match name with Some s => s | None => js "undefined" end in
  match foundColumn availableColumns searchColumn with
  | Some matched => (Some matched, missingColumns)
  | None => (name, missingColumns ++ [describeColumn label searchColumn])
  end.

(** The checks of the configured columns against the columns of the first
    data row, in the order of the source. *)
Definition matchColumns (availableColumns : list jsstring)
  (options : ProcessingOptions) : ProcessingOptions * list jsstring :=
  let (dateCol, missing) :=
    matchColumn availableColumns (js "날짜 컬럼") (dateColumn options) [] in
  if useTaxTypeClassification options then
    let (taxTypeCol, missing) :=
      matchColumn availableColumns (js "과세유형 컬럼")
                  (taxTypeColumn options) missing in
    if useMultiColumnSum options then
      let '(updatedAmountColumns, missing) :=
        fold_left
          (fun acc colName =>
             let '(updated, missing) := acc in
             match foundColumn availableColumns colName with
             | Some matched => (updated ++ [matched], missing)
             | None =>
               (updated,
                missing ++ [describeColumn (js "금액 컬럼") colName])
             end)
          (match amountColumns options with Some l => l | None => [] end)
          ([], missing) in
      ({| dateColumn := dateCol;
          taxExemptColumn := taxExemptColumn options;
          taxableColumn := taxableColumn options;
          useTaxTypeClassification := useTaxTypeClassification options;
          taxTypeColumn := taxTypeCol;
          amountColumn := amountColumn options;
          taxExemptValues := taxExemptValues options;
          taxableValues := taxableValues options;
          useMultiColumnSum := useMultiColumnSum options;
          amountColumns := Some updatedAmountColumns |}, missing)
    else
      let (amountCol, missing) :=
        matchColumn availableColumns (js "금액 컬럼")
                    (amountColumn options) missing in
      ({| dateColumn := dateCol;
          taxExemptColumn := taxExemptColumn options;
          taxableColumn := taxableColumn options;
          useTaxTypeClassification := useTaxTypeClassification options;
          taxTypeColumn := taxTypeCol;
          amountColumn := amountCol;
          taxExemptValues := taxExemptValues options;
          taxableValues := taxableValues options;
          useMultiColumnSum := useMultiColumnSum options;
          amountColumns := amountColumns options |}, missing)
  else
    let (taxExemptCol, missing) :=
      matchColumn availableColumns (js "면세금액 컬럼")
                  (taxExemptColumn options) missing in
    let (taxableCol, missing) :=
      matchColumn availableColumns (js "과세금액 컬럼")
                  (taxableColumn options) missing in
    ({| dateColumn := dateCol;
        taxExemptColumn := taxExemptCol;
        taxableColumn := taxableCol;
        useTaxTypeClassification := useTaxTypeClassification options;
        taxTypeColumn := taxTypeColumn options;
        amountColumn := amountColumn options;
        taxExemptValues := taxExemptValues options;
        taxableValues := taxableValues options;
        useMultiColumnSum := useMultiColumnSum options;
        amountColumns := amountColumns options |}, missing).

(** [readExcelFile] from the point where the rows under the header have been
    turned into objects ([data]): no row, nothing to validate; otherwise the
    configuration checks, the column checks and the extraction. *)
Definition readExcelFile (data : list RowObject) (options : ProcessingOptions)
  : Result (list MonthlyData) :=
  match data with
  | [] => Return []
  | sampleRow :: _ =>
    match checkConfigured options with
    | Some message => Throw message
    | None =>
      let availableColumns := Object_keys sampleRow in
      let (options', missingColumns) :=
        matchColumns availableColumns options in
      match missingColumns with
      | [] => Return (parseMonthlyData RT parseDateText data options')
      | _ =>
        Throw (js "다음 컬럼을 찾을 수 없습니다: "
               ++ join (js ", ") missingColumns)
      end
    end
  end.

(** *** The required columns of the active mode, with their labels *)

Definition requiredColumns (options : ProcessingOptions)
  : list (jsstring * option jsstring) :=
  (js "날짜 컬럼", dateColumn options) ::
  (if useTaxTypeClassification options then
     (js "과세유형 컬럼", taxTypeColumn options) ::
     (if useMultiColumnSum options then
        map (fun n => (js "금액 컬럼", Some n))
            (match amountColumns options with Some l => l | None => [] end)
      else [(js "금액 컬럼", amountColumn options)])
   else [(js "면세금액 컬럼", taxExemptColumn options);
         (js "과세금액 컬럼", taxableColumn options)]).

(** The configuration of the active mode is complete: the date column and
    the columns of the mode have names, and in multi-column mode at least
    one column to sum is selected. *)
Definition configured (options : ProcessingOptions) : bool :=
  negb (unset (dateColumn options))
  && (if useTaxTypeClassification options then
        negb (unset (taxTypeColumn options))
        && (if useMultiColumnSum options then
              match amountColumns options with
              | Some (_ :: _) => true
              | _ => false
              end
            else negb (unset (amountColumn options)))
      else negb (unset (taxExemptColumn options))
           && negb (unset (taxableColumn options))).

(** A required column is missing when it is unset or when none of the three
    strategies finds it among the available columns. *)
Definition isMissing (availableColumns : list jsstring)
  (column : jsstring * option jsstring) : bool :=
  unset (snd column)
  || match snd column with
     | Some name =>
       match foundColumn availableColumns name with
       | Some _ => false
       | None => true
       end
     | None => true
     end.

Definition unmatched (availableColumns : list jsstring)
  (column : jsstring * option jsstring) : bool :=
  match snd column with
  | Some name =>
    match foundColumn availableColumns name with
    | Some _ => false
    | None => true
    end
  | None => false
  end.

Definition describeRequired (column : jsstring * option jsstring) : jsstring :=
  describeColumn (fst column)
    (match snd column with Some s => s | None => js "undefined" end).

End Validation.

(** Options of the traditional mode in which no column is configured, and a
    sheet with one data row. *)
Definition unsetOptions : ProcessingOptions :=
  {| dateColumn := None;
     taxExemptColumn := None;
     taxableColumn := None;
     useTaxTypeClassification := false;
     taxTypeColumn := None;
     amountColumn := None;
     taxExemptValues := None;
     taxableValues := None;
     useMultiColumnSum := false;
     amountColumns := None |}.

Definition oneRowSheet : list RowObject :=
  [[(js "일자", CStr (js "2024-01-15")); (js "공급가액", CStr (js "1,000"))]].

(** Options of the traditional mode whose three columns are configured. *)
Definition traditionalOptions : ProcessingOptions :=
  {| dateColumn := Some (js "날짜");
     taxExemptColumn := Some (js "면세금액");
     taxableColumn := Some (js "과세금액");
     useTaxTypeClassification := false;
     taxTypeColumn := None;
     amountColumn := None;
     taxExemptValues := None;
     taxableValues := None;
     useMultiColumnSum := false;
     amountColumns := None |}.

(** ** Header names ([combineMultiRowHeaders]) *)

Definition isEmptyText (s : jsstring) : bool :=
  match s with [] => true | _ => false end.

(** [Array.prototype.filter(...).length] *)
Definition countIf {A} (f : A -> bool) (l : list A) : nat :=
  length (filter f l).

(** [l[i] = v] on an array that has the index. *)
Definition setAt (l : list jsstring) (i : nat) (v : jsstring) : list jsstring :=
  if i <? length l then firstn i l ++ v :: skipn (S i) l else l.

(** The removal of duplicates at the end of [combineMultiRowHeaders]: a
    header already seen is dropped. *)
Fixpoint uniqueHeaders (seen : list jsstring) (headers : list jsstring)
  : list jsstring :=
  match headers with
  | [] => []
  | header :: rest =>
    if arr_includes seen header then uniqueHeaders seen rest
    else header :: uniqueHeaders (header :: seen) rest
  end.

(** The name of a column from the header mapped to it and the text below. *)
Definition finalHeader (primaryHeader secondaryHeader : jsstring) : jsstring :=
  match primaryHeader, secondaryHeader with
  | [], [] => []
  | _ :: _, _ :: _ => primaryHeader ++ js " > " ++ secondaryHeader
  | _ :: _, [] => primaryHeader
  | [], _ :: _ => secondaryHeader
  end.

Section Headers.

Variable RT : Runtime.

(** [(cell || '').toString().trim()] *)
Definition cellText (cell : Cell) : jsstring :=
  trim (if truthy cell then toString RT cell else []).

(** [cell && cell.toString().trim() !== ''] *)
Definition hasText (cell : Cell) : bool :=
  truthy cell && negb (isEmptyText (trim (toString RT cell))).

(** One more than the last column with a text, 0 when there is none. *)
Fixpoint textExtent (row : Row) : nat :=
  match row with
  | [] => 0
  | cell :: rest =>
    match textExtent rest with
    | 0 => if hasText cell then 1 else 0
    | S n => S (S n)
    end
  end.

(** [row.map(cell => (cell || '').toString().trim()).filter(h => h)] *)
Definition rowHeaders (row : Row) : list jsstring :=
  filter (fun header => negb (isEmptyText header)) (map cellText row).

(** A cell of the lower row that repeats a tax label. *)
Definition isTaxLabel (cell : Cell) : bool :=
  let cellStr := if truthy cell then toString RT cell else [] in
  includes cellStr (js "과세") || includes cellStr (js "면세")
  || includes cellStr (js "VAT").

(** [secondaryNonEmptyCount >= maxCols * 0.6 &&
     sikbomRepeatedPattern.length < maxCols * 0.5]; on whole numbers the
    two comparisons with the rounded products are these. *)
Definition isSimpleStructure (primaryRow secondaryRow : Row) : bool :=
  let maxCols := Nat.max (textExtent primaryRow) (textExtent secondaryRow) in
  (3 * maxCols <=? 5 * countIf hasText secondaryRow)
  && (2 * countIf isTaxLabel secondaryRow <? maxCols).

(** The first pass over the columns: a column with a text in the upper row
    maps to it, and so does the next column when this one is a taxable
    column and the next an exempt one without a text of its own. *)
Definition mapPrimaryStep (primaryRow secondaryRow : Row) (maxCols : nat)
  (primaryHeaderMap : list jsstring) (colIndex : nat) : list jsstring :=
  let primaryHeader := cellText (cellAt primaryRow colIndex) in
  if isEmptyText primaryHeader then primaryHeaderMap
  else
    let primaryHeaderMap := setAt primaryHeaderMap colIndex primaryHeader in
    let currentSecondaryHeader := cellText (cellAt secondaryRow colIndex) in
    let nextColIndex := S colIndex in
    if (nextColIndex <? maxCols)
       && includes currentSecondaryHeader (js "과세")
    then
      let nextPrimaryHeader := cellText (cellAt primaryRow nextColIndex) in
      let nextSecondaryHeader := cellText (cellAt secondaryRow nextColIndex) in
      if isEmptyText nextPrimaryHeader
         && includes nextSecondaryHeader (js "면세")
      then setAt primaryHeaderMap nextColIndex primaryHeader
      else primaryHeaderMap
    else primaryHeaderMap.

(** The corrective pass, taken when more than three columns map to the
    daily settlement date. *)
Definition fixPrimaryStep (primaryRow secondaryRow : Row) (maxCols : nat)
  (state : list jsstring * list nat) (colIndex : nat)
  : list jsstring * list nat :=
  let (primaryHeaderMap, processedCols) := state in
  if existsb (Nat.eqb colIndex) processedCols then state
  else
    let primaryHeader := cellText (cellAt primaryRow colIndex) in
    if isEmptyText primaryHeader then state
    else
      let primaryHeaderMap := setAt primaryHeaderMap colIndex primaryHeader in
      let processedCols := colIndex :: processedCols in
      let nextColIndex := S colIndex in
      if nextColIndex <? maxCols then
        let nextSecondaryHeader :=
          cellText (cellAt secondaryRow nextColIndex) in
        if includes nextSecondaryHeader (js "면세")
        then (setAt primaryHeaderMap nextColIndex primaryHeader,
              nextColIndex :: processedCols)
        else (primaryHeaderMap, processedCols)
      else (primaryHeaderMap, processedCols).

Definition primaryHeaderMapOf (primaryRow secondaryRow : Row)
  : list jsstring :=
  let maxCols := Nat.max (textExtent primaryRow) (textExtent secondaryRow) in
  let primaryHeaderMap :=
    fold_left (mapPrimaryStep primaryRow secondaryRow maxCols)
              (seq 0 maxCols) (repeat [] maxCols) in
  let dateHeaderCount :=
    countIf (fun h => jsstring_eqb h (js "정산완료일(일별)"))
            primaryHeaderMap in
  if 3 <? dateHeaderCount then
    fst (fold_left (fixPrimaryStep primaryRow secondaryRow maxCols)
                   (seq 0 maxCols) (repeat [] maxCols, []))
  else primaryHeaderMap.

(** The name the last loop gives to a column. *)
Definition columnName (primaryRow secondaryRow : Row) (colIndex : nat)
  : jsstring :=
  finalHeader (nth colIndex (primaryHeaderMapOf primaryRow secondaryRow) [])
              (cellText (cellAt secondaryRow colIndex)).

Definition combinedHeaders (primaryRow secondaryRow : Row) : list jsstring :=
  let maxCols := Nat.max (textExtent primaryRow) (textExtent secondaryRow) in
  filter (fun header => negb (isEmptyText header))
         (map (columnName primaryRow secondaryRow) (seq 0 maxCols)).

Definition combineMultiRowHeaders (data : Grid) (headerRows : list nat)
  : list jsstring :=
  match headerRows with
  | [] => []
  | [r] => rowHeaders (nth r data [])
  | r1 :: r2 :: _ =>
    let primaryRow := nth r1 data [] in
    let secondaryRow := nth r2 data [] in
    if isSimpleStructure primaryRow secondaryRow then
      if countIf hasText primaryRow <? countIf hasText secondaryRow
      then rowHeaders secondaryRow
      else rowHeaders primaryRow
    else uniqueHeaders [] (combinedHeaders primaryRow secondaryRow)
  end.

End Headers.

(** A column keeps its name in the result when the name is not empty, has
    not been seen, and no column from [a] up to it has the same name. *)
Definition keepsName (name : nat -> jsstring) (seen : list jsstring)
  (a c : nat) : bool :=
  negb (isEmptyText (name c))
  && negb (arr_includes seen (name c))
  && negb (existsb (fun c' => jsstring_eqb (name c') (name c))
                   (seq a (c - a))).

(** A sheet with one header row in which a name occurs twice. *)
Definition repeatedHeaderSheet : Grid :=
  [[CStr (js "날짜"); CStr (js "금액"); CStr (js "금액")];
   [CStr (js "2024-01-15"); CNum 1000; CNum 500]].

(** A sheet with a parent row over repeating tax labels. *)
Definition parentChildSheet : Grid :=
  [[CStr (js "정산일"); CStr (js "주문금액"); CUndef; CStr (js "주문금액")];
   [CUndef; CStr (js "과세"); CStr (js "면세"); CStr (js "과세")]].

(** ** Header detection ([detectHeaderRow]) *)

Definition headerKeywords : list jsstring :=
  [js "날짜"; js "일자"; js "date"; js "Date"; js "DATE";
   js "금액"; js "면세"; js "과세"; js "amount"; js "Amount"; js "AMOUNT";
   js "총액"; js "합계"; js "total"; js "Total"; js "TOTAL";
   js "상품"; js "제품"; js "product"; js "Product"; js "PRODUCT";
   js "주문"; js "번호"; js "order"; js "Order"; js "ORDER";
   js "배송"; js "배송비"; js "shipping"; js "Shipping"; js "SHIPPING";
   js "구분"; js "분류"; js "type"; js "Type"; js "TYPE";
   js "매출"; js "수익"; js "sales"; js "Sales"; js "SALES"].

(** The class [[가-힣a-zA-Z]]. *)
Definition isLetter (c : N) : bool :=
  ((44032 <=? c) && (c <=? 55203) || (97 <=? c) && (c <=? 122)
   || (65 <=? c) && (c <=? 90))%N.

(** The characters of the class of unusual punctuation; the last is the
    double quote. *)
Definition unusualPunctuation : jsstring :=
  js "!@#$%^&*()+=[]{};':\|,.<>/?" ++ [34%N].

Definition isUnusualPunctuation (c : N) : bool :=
  existsb (N.eqb c) unusualPunctuation.

(** What [detectHeaderRow] returns about the row it chooses.  The fields
    [isMultiRowHeader] and [headerRows], computed afterwards from the grid
    and the chosen row, and the diagnostic [reasons] are left out. *)
Record Detection := {
  headerRow : nat;
  confidence : nat
}.

Record Candidate := {
  cand_row : nat;
  cand_score : nat
}.

(** [(a, b) => b.score - a.score] *)
Definition byScoreDescending (a b : Candidate) : number :=
  num_sub (ofZ (Z.of_nat (cand_score b))) (ofZ (Z.of_nat (cand_score a))).

Section Detection.

Variable RT : Runtime.

(** [cell != null && cell.toString().trim() !== ''] *)
Definition isNonEmptyCell (cell : Cell) : bool :=
  notNullish cell && negb (isEmptyText (trim (toString RT cell))).

Definition matchesKeyword (cell : Cell) : bool :=
  let cellStr := toLowerCase RT (toString RT cell) in
  some (fun keyword => includes cellStr (toLowerCase RT keyword))
       headerKeywords.

(** [isNaN(Number(str)) || str.match(/[가-힣a-zA-Z]/)] *)
Definition isTextCell (cell : Cell) : bool :=
  let str := toString RT cell in
  isNaN (Number_ofString str) || existsb isLetter str.

(** [cell != null && !isNaN(Number(cell)) && cell.toString().trim() !== ''] *)
Definition isNumericCell (cell : Cell) : bool :=
  notNullish cell && negb (isNaN (Number_ofCell cell))
  && negb (isEmptyText (trim (toString RT cell))).

Definition hasUnusualPunctuation (cell : Cell) : bool :=
  existsb isUnusualPunctuation (toString RT cell).

(** The score of one iteration of the loop over the rows, [None] when the
    row is skipped for having no non-empty cell.  The ratios compared with
    0.5 and 0.7 are ratios of whole numbers, and the comparisons are those of
    the cross products. *)
Definition rowScore (data : Grid) (rowIndex : nat) : option nat :=
  let row := nth rowIndex data [] in
  let score := 0 in
  let nonEmptyCells := filter isNonEmptyCell row in
  if length nonEmptyCells =? 0 then None
  else
    let score :=
      if length row <? 2 * length nonEmptyCells then score + 20 else score in
    let keywordMatches := countIf matchesKeyword nonEmptyCells in
    let score :=
      if 0 <? keywordMatches then score + keywordMatches * 15 else score in
    let textCells := filter isTextCell nonEmptyCells in
    let highTextRatio :=
      7 * length nonEmptyCells <? 10 * length textCells in
    let score := if highTextRatio then score + 25 else score in
    let score :=
      if S rowIndex <? length data then
        let nextRow := nth (S rowIndex) data [] in
        let nextRowNumbers := countIf isNumericCell nextRow in
        if highTextRatio
           && (countIf notNullish nextRow <? 2 * nextRowNumbers)
        then score + 30 else score
      else score in
    let score :=
      if 0 <? rowIndex then
        let prevRow := nth (rowIndex - 1) data [] in
        if countIf isNonEmptyCell prevRow =? 0 then score + 10 else score
      else score in
    let score :=
      if negb (some hasUnusualPunctuation nonEmptyCells)
      then score + 5 else score in
    Some score.

(** The rows pushed to [candidates], in row order. *)
Definition candidatesOf (data : Grid) : list Candidate :=
  flat_map
    (fun rowIndex =>
       match rowScore data rowIndex with
       | Some score =>
         if 0 <? score
         then [{| cand_row := rowIndex; cand_score := score |}] else []
       | None => []
       end)
    (seq 0 (Nat.min 10 (length data))).

(** [detectHeaderRow] from the grid read from the sheet. *)
Definition detectHeaderRow (data : Grid) : Result Detection :=
  if length data =? 0 then Throw (js "No data found in Excel file")
  else
    match Array_sort byScoreDescending (candidatesOf data) with
    | [] => Return {| headerRow := 0; confidence := 30 |}
    | best :: _ =>
      Return {| headerRow := cand_row best;
                confidence := Nat.min 100 (cand_score best) |}
    end.

(** *** The score in the words of the specification *)

Definition weight (b : bool) (w : nat) : nat := if b then w else 0.

Definition nonEmptyCellsOf (row : Row) : list Cell := filter isNonEmptyCell row.

(** The fraction of the non-empty cells that are text-like exceeds 0.7. *)
Definition textLike (row : Row) : bool :=
  7 * length (nonEmptyCellsOf row)
  <? 10 * countIf isTextCell (nonEmptyCellsOf row).

(** More than half of the non-null cells of a row parse as numbers. *)
Definition mostlyNumeric (row : Row) : bool :=
  countIf notNullish row <? 2 * countIf isNumericCell row.

Definition entirelyEmpty (row : Row) : bool :=
  countIf isNonEmptyCell row =? 0.

(** The six rules, with the bonus of the preceding row given to rows that
    have a preceding row. *)
Definition scoreOf (data : Grid) (i : nat) : option nat :=
  let row := nth i data [] in
  if entirelyEmpty row then None
  else
    Some (weight (length row <? 2 * length (nonEmptyCellsOf row)) 20
          + 15 * countIf matchesKeyword (nonEmptyCellsOf row)
          + weight (textLike row) 25
          + weight (textLike row && (S i <? length data)
                    && mostlyNumeric (nth (S i) data [])) 30
          + weight ((0 <? i) && entirelyEmpty (nth (i - 1) data [])) 10
          + weight (negb (some hasUnusualPunctuation (nonEmptyCellsOf row))) 5).

(** The six rules in the words of the specification: the bonus of the
    preceding row is given when that row is absent or entirely empty, and
    the first row has no preceding row. *)
Definition statedScoreOf (data : Grid) (i : nat) : option nat :=
  let row := nth i data [] in
  if entirelyEmpty row then None
  else
    Some (weight (length row <? 2 * length (nonEmptyCellsOf row)) 20
          + 15 * countIf matchesKeyword (nonEmptyCellsOf row)
          + weight (textLike row) 25
          + weight (textLike row && (S i <? length data)
                    && mostlyNumeric (nth (S i) data [])) 30
          + weight (match i with
                    | 0 => true
                    | S j => entirelyEmpty (nth j data [])
                    end) 10
          + weight (negb (some hasUnusualPunctuation (nonEmptyCellsOf row))) 5).

End Detection.

(** Two rows of one text each; the first holds a full stop. *)
Definition twoTitleRows : Grid :=
  [[CStr (js "a.b")]; [CStr (js "abc")]].

(** A sheet with a title, an empty row, a header row and data rows. *)
Definition reportSheet : Grid :=
  [[CStr (js "Shopping Mall Sales Report")];
   [];
   [CStr (js "날짜"); CStr (js "면세금액"); CStr (js "과세금액"); CStr (js "총액")];
   [CStr (js "2024-01-01"); CNum 100000; CNum 50000; CNum 150000];
   [CStr (js "2024-01-02"); CNum 200000; CNum 75000; CNum 275000]].

(** The first of the candidates with the highest score. *)
Fixpoint firstBest (l : list Candidate) : option Candidate :=
  match l with
  | [] => None
  | a :: rest =>
    match firstBest rest with
    | Some h => if cand_score a <? cand_score h then Some h else Some a
    | None => Some a
    end
  end.

(** * Further functions of the two services

    The functions below complete the embedding of the two services: the
    objects built from the rows of a sheet, the run of the two extraction
    loops over all rows, the detection of two-row headers, the reading of
    dates from texts, the listing of column headers, the growth rate and
    the export of the yearly totals. *)

(** ** Row objects ([readExcelFile])

    [headers.forEach((header, index) => { if (header) obj[header] =
    row[index]; })]: the property name is the text of the header.  The name
    [__proto__] reaches the prototype of the object and creates no property
    of the object itself. *)

Section RowObjects.

Variable RT : Runtime.

Definition rowObjectStep (row : Row) (obj : RowObject) (entry : Cell * nat)
  : RowObject :=
  let (header, index) := entry in
  if truthy header then
    if jsstring_eqb (toString RT header) (js "__proto__") then obj
    else objSet obj (toString RT header) (cellAt row index)
  else obj.

Definition rowObjectOf (headers : list Cell) (row : Row) : RowObject :=
  fold_left (rowObjectStep row)
            (combine headers (seq 0 (length headers))) [].

(** [sheet.slice(dataStartRow).map(row => ...)] *)
Definition rowObjectsOf (headers : list Cell) (sheet : Grid)
  (dataStartRow : nat) : list RowObject :=
  map (rowObjectOf headers) (skipn dataStartRow sheet).

(** A column carries a name when its header is truthy and has that text. *)
Definition carriesName (headers : list Cell) (name : jsstring) (i : nat)
  : bool :=
  truthy (nth i headers CUndef)
  && jsstring_eqb (toString RT (nth i headers CUndef)) name.

End RowObjects.

(** ** The extraction loops over all rows *)

Section RowLoops.

Variable RT : Runtime.
Variable parseDateText : jsstring -> option Z.
Variable options : ProcessingOptions.

(** The cell of the date column of a row. *)
Definition dateCellOf (row : RowObject) : Cell :=
  getProp row (orElse (dateColumn options) (js "날짜")).

(** The date of a row that the traditional loop keeps: the row is not a
    summary line and its date parses. *)
Definition datedRow (row : RowObject) : option Z :=
  if isSummaryRow RT (dateCellOf row) then None
  else parseDate parseDateText (dateCellOf row).

(** The date of a row that the tax-type loop counts: a dated row whose
    amount is a number other than zero. *)
Definition countedRow (row : RowObject) : option Z :=
  match datedRow row with
  | Some date =>
    if isNaN (rowAmount options row) || num_is_zero (rowAmount options row)
    then None else Some date
  | None => None
  end.

Definition isExemptRow (row : RowObject) : bool :=
  matchesAny RT (taxTypeOf RT options row) (exemptValuesOf options).

(** The counted rows of a month, given by its key, in row order. *)
Definition countedRowsOf (key : jsstring) (rows : list RowObject)
  : list RowObject :=
  filter (fun row =>
            match countedRow row with
            | Some date => jsstring_eqb (dateKey RT date) key
            | None => false
            end)
         rows.

(** The keys of the months of the counted rows, each once, in the order of
    their first row. *)
Definition addMonthKey (keys : list jsstring) (row : RowObject)
  : list jsstring :=
  match countedRow row with
  | Some date =>
    if arr_includes keys (dateKey RT date) then keys
    else keys ++ [dateKey RT date]
  | None => keys
  end.

Definition monthKeysOf (rows : list RowObject) : list jsstring :=
  fold_left addMonthKey rows [].

Definition amountsOf (rows : list RowObject) : list number :=
  map (rowAmount options) rows.

(** The entry of a month: the date of its first counted row and the sums of
    the amounts of its exempt rows and of its other rows, in row order. *)
Definition monthGroupOf (rows : list RowObject) (key : jsstring) : DateGroup :=
  let counted := countedRowsOf key rows in
  {| dg_date := match counted with
                | row :: _ =>
                  match countedRow row with Some date => date | None => 0%Z end
                | [] => 0%Z
                end;
     dg_taxExempt :=
       fold_left num_add (amountsOf (filter isExemptRow counted)) (Fin 0);
     dg_taxable :=
       fold_left num_add
         (amountsOf (filter (fun row => negb (isExemptRow row)) counted))
         (Fin 0) |}.

Definition monthGroupsOf (keys : list jsstring) (rows : list RowObject)
  : JsObject DateGroup :=
  map (fun key => (key, monthGroupOf rows key)) keys.

(** The record of a dated row in the traditional mode. *)
Definition traditionalRecord (row : RowObject) (date : Z) : MonthlyData :=
  {| month := getMonth RT date + 1;
     year := getFullYear RT date;
     taxExemptAmount :=
       parseAmount (getProp row (orElse (taxExemptColumn options)
                                        (js "면세금액")));
     taxableAmount :=
       parseAmount (getProp row (orElse (taxableColumn options)
                                        (js "과세금액"))) |}.

End RowLoops.

(** ** Two-row headers ([detectMultiRowHeaders]) *)

Definition subHeaderKeywords : list jsstring :=
  [js "과세금액"; js "면세금액"; js "금액"; js "수량"; js "건수"; js "합계";
   js "결제금액"].

Definition strongHeaderKeywords : list jsstring :=
  [js "과세금액"; js "면세금액"; js "결제금액"].

Definition sikbomKeywords : list jsstring := [js "과세"; js "면세"; js "VAT"].

(** [keywords.some(keyword => text.includes(keyword))] *)
Definition includesAny (keywords : list jsstring) (text : jsstring) : bool :=
  some (fun keyword => includes text keyword) keywords.

(** The counters of the loop over the columns. *)
Record HeaderCounts := {
  multiRowIndicators : nat;
  totalCells : nat;
  mergedCellPatterns : nat;
  nextRowHeaderCount : nat
}.

(** What [detectMultiRowHeaders] returns. *)
Record MultiRow := {
  isMultiRow : bool;
  headerRows : list nat
}.

Section MultiRowHeaders.

Variable RT : Runtime.

(** The body of the loop over the columns: the six cases in turn. *)
Definition countColumn (primaryRow nextRow : Row) (counts : HeaderCounts)
  (i : nat) : HeaderCounts :=
  let primaryCell := cellText RT (cellAt primaryRow i) in
  let nextCell := cellText RT (cellAt nextRow i) in
  let hasPrimary := negb (isEmptyText primaryCell) in
  let hasNext := negb (isEmptyText nextCell) in
  let indicators := multiRowIndicators counts in
  let merged := mergedCellPatterns counts in
  let nextCount := nextRowHeaderCount counts in
  let merged :=
    if hasPrimary && negb hasNext && (2 <? length primaryCell)
    then merged + 1 else merged in
  let '(indicators, nextCount) :=
    if negb hasPrimary && hasNext && includesAny strongHeaderKeywords nextCell
    then (indicators + 3, nextCount + 1) else (indicators, nextCount) in
  let indicators :=
    if hasPrimary && hasNext && includesAny subHeaderKeywords nextCell
    then indicators + 1 else indicators in
  let indicators :=
    if includes primaryCell (js ">") || includes nextCell (js ">")
    then indicators + 2 else indicators in
  let '(indicators, nextCount) :=
    if hasPrimary && hasNext
       && (includes primaryCell (js "주문금액")
           || includes primaryCell (js "정산"))
       && includesAny sikbomKeywords nextCell
    then (indicators + 3, nextCount + 1) else (indicators, nextCount) in
  let '(indicators, nextCount) :=
    if hasNext && includesAny sikbomKeywords nextCell
    then (indicators + 1, nextCount + 1) else (indicators, nextCount) in
  {| multiRowIndicators := indicators;
     totalCells := totalCells counts + 1;
     mergedCellPatterns := merged;
     nextRowHeaderCount := nextCount |}.

(** A cell of the row above that names a main category. *)
Definition isSikbomMainHeader (cell : Cell) : bool :=
  let cellStr := if truthy cell then toString RT cell else [] in
  includes cellStr (js "주문금액") || includes cellStr (js "쿠폰")
  || includes cellStr (js "정산") || includes cellStr (js "현금영수증")
  || includes cellStr (js "신용카드").

(** The ratios compared with 0.3, 0.4 and 0.2 are ratios of whole numbers
    (the divisor is at most 20), and the comparisons are those of the cross
    products. *)
Definition detectMultiRowHeaders (data : Grid) (primaryHeaderRow : nat)
  : MultiRow :=
  let nextRowIndex := primaryHeaderRow + 1 in
  if length data <=? nextRowIndex
  then {| isMultiRow := false; headerRows := [primaryHeaderRow] |}
  else
    let prevRowIndex := primaryHeaderRow - 1 in
    let hasPrevRow :=
      (1 <=? primaryHeaderRow) && (prevRowIndex <? length data) in
    let primaryRow := nth primaryHeaderRow data [] in
    let nextRow := nth nextRowIndex data [] in
    let prevRow := if hasPrevRow then nth prevRowIndex data [] else [] in
    let counts :=
      fold_left (countColumn primaryRow nextRow)
        (seq 0 (Nat.min 20 (Nat.max (length primaryRow) (length nextRow))))
        {| multiRowIndicators := 0; totalCells := 0;
           mergedCellPatterns := 0; nextRowHeaderCount := 0 |} in
    let cells := Nat.max (totalCells counts) 1 in
    let sikbomStyleDetected :=
      hasPrevRow
      && (2 <=? countIf isSikbomMainHeader prevRow)
      && (4 <=? countIf (isTaxLabel RT) primaryRow) in
    let isMultiRow :=
      (3 * cells <? 10 * multiRowIndicators counts)
        && (2 <=? nextRowHeaderCount counts)
      || (2 * cells <? 5 * mergedCellPatterns counts)
           && (2 <? multiRowIndicators counts)
      || (cells <? 5 * nextRowHeaderCount counts)
           && (1 <? multiRowIndicators counts)
      || sikbomStyleDetected in
    {| isMultiRow := isMultiRow;
       headerRows :=
         if isMultiRow then
           if sikbomStyleDetected && hasPrevRow
           then [prevRowIndex; primaryHeaderRow]
           else [primaryHeaderRow; nextRowIndex]
         else [primaryHeaderRow] |}.

(** What [detectHeaderRow] returns, with the fields [isMultiRowHeader] and
    [headerRows], which the default answer does not carry. *)
Record FullDetection := {
  fd_detection : Detection;
  fd_multiRow : option MultiRow
}.

Definition detectHeaderRowFull (data : Grid) : Result FullDetection :=
  if length data =? 0 then Throw (js "No data found in Excel file")
  else
    match Array_sort byScoreDescending (candidatesOf RT data) with
    | [] =>
      Return {| fd_detection := {| headerRow := 0; confidence := 30 |};
                fd_multiRow := None |}
    | best :: _ =>
      Return {| fd_detection :=
                  {| headerRow := cand_row best;
                     confidence := Nat.min 100 (cand_score best) |};
                fd_multiRow :=
                  Some (detectMultiRowHeaders data (cand_row best)) |}
    end.

(** [detection.isMultiRowHeader || false] and
    [detection.headerRows || [headerRowIndex]] *)
Definition isMultiRowHeaderOf (d : FullDetection) : bool :=
  match fd_multiRow d with
  | Some m => isMultiRow m
  | None => false
  end.

Definition headerRowsOf (d : FullDetection) : list nat :=
  match fd_multiRow d with
  | Some m => headerRows m
  | None => [headerRow (fd_detection d)]
  end.

End MultiRowHeaders.

(** ** Regular expressions

    The patterns of the program are built from characters, classes of
    characters, greedy repetitions of a class, sequences, alternatives and
    capturing groups (none inside another).  [matchFrom] is the backtracking
    matcher of the language: it tries to match at the start of a text and
    hands the rest of the text and the captures made so far to what has to
    match next. *)

Inductive Regex :=
| REmpty
| RChar (c : N)
| RClass (p : N -> bool)
| RRep (p : N -> bool) (min : nat) (max : option nat)
| RSeq (a b : Regex)
| RAlt (a b : Regex)
| RGroup (r : Regex).

(** A greedy repetition of a class: as many characters as allowed are
    taken, and fewer when what follows does not match. *)
Fixpoint repeatGreedy {X} (p : N -> bool) (min : nat) (max : option nat)
  (s : jsstring) (k : jsstring -> option X) {struct s} : option X :=
  let stop := match min with 0 => k s | S _ => None end in
  match s with
  | c :: t =>
    let allowed := match max with Some 0 => false | _ => true end in
    if p c && allowed then
      match repeatGreedy p (pred min) (option_map pred max) t k with
      | Some r => Some r
      | None => stop
      end
    else stop
  | [] => stop
  end.

Fixpoint matchFrom {X} (r : Regex) (s : jsstring) (caps : list jsstring)
  (k : jsstring -> list jsstring -> option X) {struct r} : option X :=
  match r with
  | REmpty => k s caps
  | RChar c =>
    match s with
    | c' :: t => if (c =? c')%N then k t caps else None
    | [] => None
    end
  | RClass p =>
    match s with
    | c' :: t => if p c' then k t caps else None
    | [] => None
    end
  | RRep p min max => repeatGreedy p min max s (fun rest => k rest caps)
  | RSeq a b => matchFrom a s caps (fun rest caps' => matchFrom b rest caps' k)
  | RAlt a b =>
    match matchFrom a s caps k with
    | Some x => Some x
    | None => matchFrom b s caps k
    end
  | RGroup g =>
    matchFrom g s caps
      (fun rest caps' =>
         k rest (caps' ++ [firstn (length s - length rest) s]))
  end.

(** [s.match(/^r$/)]: the captures when the whole text matches. *)
Definition matchWhole (r : Regex) (s : jsstring) : option (list jsstring) :=
  matchFrom r s []
    (fun rest caps => match rest with [] => Some caps | _ => None end).

(** [s.match(/r/)]: the captures of the first match, searched from left to
    right. *)
Fixpoint matchFirst (r : Regex) (s : jsstring) : option (list jsstring) :=
  match matchFrom r s [] (fun _ caps => Some caps) with
  | Some caps => Some caps
  | None =>
    match s with
    | [] => None
    | _ :: t => matchFirst r t
    end
  end.

Definition RSeqs (rs : list Regex) : Regex := fold_right RSeq REmpty rs.

(** A literal text. *)
Definition RLit (s : jsstring) : Regex := RSeqs (map RChar s).

(** [\d{4}], [\d{1,2}], [\s*], [\s+] and [[~\-]]. *)
Definition digits4 : Regex := RRep isDigit 4 (Some 4).
Definition digits12 : Regex := RRep isDigit 1 (Some 2).
Definition spaces : Regex := RRep isWhiteSpace 0 None.
Definition spaces1 : Regex := RRep isWhiteSpace 1 None.
Definition rangeMark : Regex := RClass (fun c => (c =? 126) || (c =? 45))%N.

(** ** [parseInt]

    The result is a whole number or NaN, given here as [None]. *)

Fixpoint takeWhile {A} (f : A -> bool) (l : list A) : list A :=
  match l with
  | x :: t => if f x then x :: takeWhile f t else []
  | [] => []
  end.

Definition parseInt (s : jsstring) : option Z :=
  let t := trimStart s in
  let '(negative, t) :=
    match t with
    | 45%N :: u => (true, u)
    | 43%N :: u => (false, u)
    | _ => (false, t)
    end in
  let '(radix, t) :=
    match t with
    | 48%N :: x :: u =>
      if ((x =? 120) || (x =? 88))%N then (16%N, u) else (10%N, t)
    | _ => (10%N, t)
    end in
  let ds :=
    takeWhile (fun c => match digitOfBase radix c with
                        | Some _ => true
                        | None => false
                        end) t in
  match ds, valueInBase radix 0 ds with
  | _ :: _, Some v => Some (if negative then - Z.of_N v else Z.of_N v)%Z
  | _, _ => None
  end.

(** [lo <= v && v <= hi] on a whole number or NaN. *)
Definition within (lo hi : Z) (v : option Z) : bool :=
  match v with
  | Some z => ((lo <=? z) && (z <=? hi))%Z
  | None => false
  end.

(** A field that has passed its range check. *)
Definition field (v : option Z) : Z :=
  match v with Some z => z | None => 0%Z end.

(** ** Dates read from texts ([parseDate], [extractSikbomDateContext])

    Besides the local time of [Runtime], the reading of dates relies on the
    runtime for the time value of a local time and for its own parser of
    date texts. *)

Record DateRuntime := {
  (** the time value of a local time value: [UTC(t)] of ECMA-262, defined
      by the time zone and its daylight saving rules *)
  utcOfLocal : Z -> Z;
  (** [Date.parse(s)], which is also how [new Date(s)] reads a text: the
      time value, [None] for NaN *)
  Date_parse : jsstring -> option Z
}.

(** [MakeDay] and [MakeTime] of ECMA-262 on whole numbers. *)
Definition MakeDay (year month date : Z) : Z :=
  (days_from_civil (year + month / 12) (month mod 12 + 1) 1 + date - 1)%Z.

Definition MakeTime (hour minute second ms : Z) : Z :=
  (hour * 3600000 + minute * 60000 + second * 1000 + ms)%Z.

(** [date.getDate()] of a valid date. *)
Definition getDate (RT : Runtime) (t : Z) : Z :=
  let '(_, _, d) := civil_from_days (localTime RT t / msPerDay) in d.

(** The patterns of [parseDate], in the order of the source. *)

Definition dotDate : Regex :=
  RSeqs [digits4; RChar 46; digits12; RChar 46; digits12].

Definition dashDate : Regex :=
  RSeqs [digits4; RChar 45; digits12; RChar 45; digits12].

Definition clockTime : Regex :=
  RSeqs [RGroup digits12; RChar 58; RGroup digits12; RChar 58; RGroup digits12].

(** [/^(\d{4}\.\d{1,2}\.\d{1,2})\s*[~\-]\s*(\d{4}\.\d{1,2}\.\d{1,2})$/] *)
Definition dateRangePattern : Regex :=
  RSeqs [RGroup dotDate; spaces; rangeMark; spaces; RGroup dotDate].

(** [/^(\d{4})년\s*(\d{1,2})월\s*(\d{1,2})일$/] without the anchors *)
Definition koreanDate : Regex :=
  RSeqs [RGroup digits4; RLit (js "년"); spaces; RGroup digits12;
         RLit (js "월"); spaces; RGroup digits12; RLit (js "일")].

(** [/^(\d{4})년\s*(\d{1,2})월\s*(\d{1,2})일\s*[~\-]\s*(\d{4})년\s*(\d{1,2})월\s*(\d{1,2})일$/] *)
Definition koreanRangePattern : Regex :=
  RSeqs [koreanDate; spaces; rangeMark; spaces; koreanDate].

(** [/^(\d{4}\.\d{1,2})\s*[~\-]\s*(\d{4}\.\d{1,2})$/] *)
Definition monthRangePattern : Regex :=
  RSeqs [RGroup (RSeqs [digits4; RChar 46; digits12]); spaces; rangeMark;
         spaces; RGroup (RSeqs [digits4; RChar 46; digits12])].

(** [/^(\d{4}-\d{1,2}-\d{1,2})\s*[~\-]\s*(\d{4}-\d{1,2}-\d{1,2})$/] *)
Definition isoDateRangePattern : Regex :=
  RSeqs [RGroup dashDate; spaces; rangeMark; spaces; RGroup dashDate].

(** [/^(\d{4}\.\d{1,2}\.\d{1,2})[~\-](\d{4}\.\d{1,2}\.\d{1,2})$/] *)
Definition compactRangePattern : Regex :=
  RSeqs [RGroup dotDate; rangeMark; RGroup dotDate].

(** [/^(\d{4})\.(\d{1,2})$/] *)
Definition yearMonthDotPattern : Regex :=
  RSeqs [RGroup digits4; RChar 46; RGroup digits12].

(** [/^(\d{4})년\s*(\d{1,2})월$/] *)
Definition koreanYearMonthPattern : Regex :=
  RSeqs [RGroup digits4; RLit (js "년"); spaces; RGroup digits12;
         RLit (js "월")].

(** [/^(\d{4})-(\d{1,2})-(\d{1,2})\s+(오전|오후)\s+(\d{1,2}):(\d{1,2}):(\d{1,2})$/] *)
Definition koreanAmPmDateTimePattern : Regex :=
  RSeqs [RGroup digits4; RChar 45; RGroup digits12; RChar 45; RGroup digits12;
         spaces1; RGroup (RAlt (RLit (js "오전")) (RLit (js "오후")));
         spaces1; clockTime].

(** [/^(\d{4})-(\d{1,2})-(\d{1,2})\s+(\d{1,2}):(\d{1,2}):(\d{1,2})$/] *)
Definition isoDateTimePattern : Regex :=
  RSeqs [RGroup digits4; RChar 45; RGroup digits12; RChar 45; RGroup digits12;
         spaces1; clockTime].

(** [/^(\d{4})-(\d{1,2})-(\d{1,2})$/] *)
Definition isoDatePattern : Regex :=
  RSeqs [RGroup digits4; RChar 45; RGroup digits12; RChar 45; RGroup digits12].

(** [/^(\d{4})\.(\d{1,2})\.(\d{1,2})\s+(\d{1,2}):(\d{1,2}):(\d{1,2})$/] *)
Definition dotDateTimePattern : Regex :=
  RSeqs [RGroup digits4; RChar 46; RGroup digits12; RChar 46; RGroup digits12;
         spaces1; clockTime].

(** [/^(\d{4})\.(\d{1,2})\.(\d{1,2})$/] *)
Definition dotDatePattern : Regex :=
  RSeqs [RGroup digits4; RChar 46; RGroup digits12; RChar 46; RGroup digits12].

(** [/^(\d{1,2})\/(\d{1,2})\/(\d{4})$/] *)
Definition slashDatePattern : Regex :=
  RSeqs [RGroup digits12; RChar 47; RGroup digits12; RChar 47; RGroup digits4].

(** [/^(\d{1,2})일\s*$/] *)
Definition sikbomDayPattern : Regex :=
  RSeqs [RGroup digits12; RLit (js "일"); spaces].

(** [/(\d{4})년\s*(\d{1,2})월/] *)
Definition contextPattern : Regex :=
  RSeqs [RGroup digits4; RLit (js "년"); spaces; RGroup digits12;
         RLit (js "월")].

(** [a || b] between two attempts: the first that returns. *)
Definition orTry {A} (a b : option A) : option A :=
  match a with
  | Some x => Some x
  | None => b
  end.

Section DateTexts.

Variable RT : Runtime.
Variable DRT : DateRuntime.

(** [new Date(year, month, date, hours, minutes, seconds)] on whole numbers;
    a year from 0 to 99 stands for 1900 + year.  The offset of the local
    time is less than a day, so that the time value is in the range of
    dates for the years the program lets through. *)
Definition newDate (year month date hours minutes seconds : Z) : Z :=
  let yr := if ((0 <=? year) && (year <=? 99))%Z then (1900 + year)%Z
            else year in
  utcOfLocal DRT
    (MakeDay yr month date * msPerDay + MakeTime hours minutes seconds 0)%Z.

(** A date built from year, month and day, each within its range. *)
Definition dateOfFields (year month day : option Z) : option Z :=
  if within 1900 2100 year && within 1 12 month && within 1 31 day
  then Some (newDate (field year) (field month - 1) (field day) 0 0 0)
  else None.

(** A date built from year and month. *)
Definition monthOfFields (year month : option Z) : option Z :=
  if within 1900 2100 year && within 1 12 month
  then Some (newDate (field year) (field month - 1) 1 0 0 0)
  else None.

(** A date and time built from six fields. *)
Definition dateTimeOfFields (year month day hour minute second : option Z)
  : option Z :=
  if within 1900 2100 year && within 1 12 month && within 1 31 day
     && within 0 23 hour && within 0 59 minute && within 0 59 second
  then Some (newDate (field year) (field month - 1) (field day)
                     (field hour) (field minute) (field second))
  else None.

(** A text read by the runtime's own parser, kept when it is a date whose
    year lies between 1900 and 2100. *)
Definition nativeDate (s : jsstring) : option Z :=
  match Date_parse DRT s with
  | Some t =>
    if ((1900 <=? getFullYear RT t) && (getFullYear RT t <=? 2100))%Z
    then Some t else None
  | None => None
  end.

(** Strategy 0: [2024.10.01 ~ 2024.10.31], the start of the range. *)
Definition parseDateRange (trimmed : jsstring) : option Z :=
  match matchWhole dateRangePattern trimmed with
  | Some (startDateStr :: _) =>
    match splitOn 46 startDateStr with
    | [a; b; c] => dateOfFields (parseInt a) (parseInt b) (parseInt c)
    | _ => None
    end
  | _ => None
  end.

(** Strategy 0.1: the Korean range, the start of the range. *)
Definition parseKoreanRange (trimmed : jsstring) : option Z :=
  match matchWhole koreanRangePattern trimmed with
  | Some (y :: m :: d :: _) =>
    dateOfFields (parseInt y) (parseInt m) (parseInt d)
  | _ => None
  end.

(** Strategy 0.2: [2024.10 ~ 2024.11], the first day of the first month. *)
Definition parseMonthRange (trimmed : jsstring) : option Z :=
  match matchWhole monthRangePattern trimmed with
  | Some (startMonthStr :: _) =>
    match splitOn 46 startMonthStr with
    | [a; b] => monthOfFields (parseInt a) (parseInt b)
    | _ => None
    end
  | _ => None
  end.

(** Strategy 0.3: [2024-10-01 ~ 2024-10-31], the start read by the runtime. *)
Definition parseIsoDateRange (trimmed : jsstring) : option Z :=
  match matchWhole isoDateRangePattern trimmed with
  | Some (startDateStr :: _) => nativeDate startDateStr
  | _ => None
  end.

(** Strategy 0.4: the range without spaces. *)
Definition parseCompactRange (trimmed : jsstring) : option Z :=
  match matchWhole compactRangePattern trimmed with
  | Some (startDateStr :: _) =>
    match splitOn 46 startDateStr with
    | [a; b; c] => dateOfFields (parseInt a) (parseInt b) (parseInt c)
    | _ => None
    end
  | _ => None
  end.

(** Strategies 1 and 2: [2024.07] and [2024년 7월]. *)
Definition parseYearMonth (pattern : Regex) (trimmed : jsstring) : option Z :=
  match matchWhole pattern trimmed with
  | Some (y :: m :: _) => monthOfFields (parseInt y) (parseInt m)
  | _ => None
  end.

(** Strategy 3: [2024-11-25 오후 10:31:08]. *)
Definition parseKoreanAmPm (trimmed : jsstring) : option Z :=
  match matchWhole koreanAmPmDateTimePattern trimmed with
  | Some (y :: m :: d :: amPm :: h :: mi :: s :: _) =>
    let hour := parseInt h in
    let hour :=
      if jsstring_eqb amPm (js "오후")
         && negb (match hour with Some 12%Z => true | _ => false end)
      then option_map (fun x => x + 12)%Z hour
      else if jsstring_eqb amPm (js "오전")
              && (match hour with Some 12%Z => true | _ => false end)
      then Some 0%Z
      else hour in
    dateTimeOfFields (parseInt y) (parseInt m) (parseInt d)
                     hour (parseInt mi) (parseInt s)
  | _ => None
  end.

(** Strategies 4 and 6: a date and a time of day. *)
Definition parseDateTime (pattern : Regex) (trimmed : jsstring) : option Z :=
  match matchWhole pattern trimmed with
  | Some (y :: m :: d :: h :: mi :: s :: _) =>
    dateTimeOfFields (parseInt y) (parseInt m) (parseInt d)
                     (parseInt h) (parseInt mi) (parseInt s)
  | _ => None
  end.

(** Strategies 5, 7 and 8: year, month and day in this order. *)
Definition parseYearMonthDay (pattern : Regex) (trimmed : jsstring)
  : option Z :=
  match matchWhole pattern trimmed with
  | Some (y :: m :: d :: _) =>
    dateOfFields (parseInt y) (parseInt m) (parseInt d)
  | _ => None
  end.

(** Strategy 9: [MM/DD/YYYY]. *)
Definition parseUsDate (trimmed : jsstring) : option Z :=
  match matchWhole slashDatePattern trimmed with
  | Some (m :: d :: y :: _) =>
    dateOfFields (parseInt y) (parseInt m) (parseInt d)
  | _ => None
  end.

(** Strategy 10: [DD/MM/YYYY], tried when the day is above 12. *)
Definition parseEuropeanDate (trimmed : jsstring) : option Z :=
  match matchWhole slashDatePattern trimmed with
  | Some (d :: m :: y :: _) =>
    if within 13 31 (parseInt d)
    then dateOfFields (parseInt y) (parseInt m) (parseInt d)
    else None
  | _ => None
  end.

(** Strategy 12: [5일], a day of the month named in the title of the sheet,
    kept when the month has such a day. *)
Definition parseSikbomDay (context : option (Z * Z)) (trimmed : jsstring)
  : option Z :=
  match matchWhole sikbomDayPattern trimmed with
  | Some (d :: _) =>
    let day := parseInt d in
    match context with
    | Some (year, month) =>
      if within 1 31 day then
        let daysInMonth := getDate RT (newDate year month 0 0 0 0) in
        if (field day <=? daysInMonth)%Z
        then Some (newDate year (month - 1) (field day) 0 0 0)
        else None
      else None
    | None => None
    end
  | _ => None
  end.

(** The strategies of [parseDate] for a trimmed text that is not empty, in
    the order in which they are tried. *)
Definition parseDateString (context : option (Z * Z)) (trimmed : jsstring)
  : option Z :=
  orTry (parseDateRange trimmed)
  (orTry (parseKoreanRange trimmed)
  (orTry (parseMonthRange trimmed)
  (orTry (parseIsoDateRange trimmed)
  (orTry (parseCompactRange trimmed)
  (orTry (parseYearMonth yearMonthDotPattern trimmed)
  (orTry (parseYearMonth koreanYearMonthPattern trimmed)
  (orTry (parseKoreanAmPm trimmed)
  (orTry (parseDateTime isoDateTimePattern trimmed)
  (orTry (parseYearMonthDay isoDatePattern trimmed)
  (orTry (parseDateTime dotDateTimePattern trimmed)
  (orTry (parseYearMonthDay dotDatePattern trimmed)
  (orTry (parseYearMonthDay koreanDate trimmed)
  (orTry (parseUsDate trimmed)
  (orTry (parseEuropeanDate trimmed)
  (orTry (nativeDate trimmed)
  (orTry (parseSikbomDay context trimmed)
         (nativeDate trimmed))))))))))))))))).

(** [extractSikbomDateContext]: the year and month named in the first cell
    of one of the first five rows. *)
Definition contextOfRow (row : Row) : option (Z * Z) :=
  match row with
  | [] => None
  | _ :: _ =>
    let cellValue := cellText RT (cellAt row 0) in
    match matchFirst contextPattern cellValue with
    | Some (y :: m :: _) =>
      if within 1900 2100 (parseInt y) && within 1 12 (parseInt m)
      then Some (field (parseInt y), field (parseInt m))
      else None
    | _ => None
    end
  end.

Fixpoint firstContext (rows : list Row) : option (Z * Z) :=
  match rows with
  | [] => None
  | row :: rest => orTry (contextOfRow row) (firstContext rest)
  end.

Definition extractSikbomDateContext (data : Grid) : option (Z * Z) :=
  firstContext (firstn 5 data).

(** [parseDate] with its strategies for texts, for a sheet whose title rows
    give the context. *)
Definition parseDateIn (context : option (Z * Z)) (dateValue : Cell)
  : option Z :=
  parseDate (parseDateString context) dateValue.

End DateTexts.

(** *** Texts of one shape

    A text in which the digits are replaced by other digits matches a
    pattern as the text itself does, when the pattern tells no digit from
    another.  [substDigits ds] puts the [i]-th element of [ds] in the place
    of the digit [i]. *)

Definition substDigits (ds : list N) (c : N) : N :=
  if isDigit c then nth (N.to_nat (c - 48)) ds c else c.

Definition tenDigits : list N := [48; 49; 50; 51; 52; 53; 54; 55; 56; 57]%N.

Definition sameOnDigits (p : N -> bool) : bool :=
  forallb p tenDigits || forallb (fun c => negb (p c)) tenDigits.

Fixpoint digitBlind (r : Regex) : bool :=
  match r with
  | REmpty => true
  | RChar c => negb (isDigit c)
  | RClass p => sameOnDigits p
  | RRep p _ _ => sameOnDigits p
  | RSeq a b => digitBlind a && digitBlind b
  | RAlt a b => digitBlind a && digitBlind b
  | RGroup g => digitBlind g
  end.

(** A runtime for the worked examples: local time is UTC and the runtime's
    own parser reads no text. *)
Definition exampleDateRuntime : DateRuntime :=
  {| utcOfLocal := fun t => t; Date_parse := fun _ => None |}.

(** *** Calendar days

    [daysIn year month] is the last day of a month (1..12), read as the
    program reads it: the day before the first day of the next month. *)

Definition daysIn (year month : Z) : Z :=
  let '(_, _, d) := civil_from_days (MakeDay year month 0) in d.

(** The calendar day on which the day [day] of a month falls: the day
    itself when the month has such a day, and otherwise the day of the next
    month that many days after its end. *)
Definition landsOn (year month day : Z) : Z * Z * Z :=
  if (day <=? daysIn year month)%Z then (year, month, day)
  else (year, month + 1, day - daysIn year month)%Z.

Definition zrange (lo : Z) (n : nat) : list Z :=
  map (fun i => (lo + Z.of_nat i)%Z) (seq 0 n).

Definition triple_eqb (a b : Z * Z * Z) : bool :=
  let '(a1, a2, a3) := a in
  let '(b1, b2, b3) := b in
  ((a1 =? b1) && (a2 =? b2) && (a3 =? b3))%Z.

(** ** Columns after validation *)

(** A required column and what the validation makes of it: a name that is a
    column of the sheet, the configured name itself when that is one. *)
Definition resolvedAs (availableColumns : list jsstring)
  (configuredColumn resolvedColumn : jsstring * option jsstring) : Prop :=
  fst resolvedColumn = fst configuredColumn
  /\ exists name found,
       snd configuredColumn = Some name
       /\ snd resolvedColumn = Some found
       /\ found <> []
       /\ In found availableColumns
       /\ (In name availableColumns -> found = name).

(** ** From the sheet to the records ([readExcelFile])

    [readSheet] is [readExcelFile] from the grids read from the sheet: the
    grid of raw values on which the header row is detected, the grid of
    formatted values from which the rows are taken, and the merge regions
    of the sheet. *)

(** [Math.max(...rows)] for a list that is not empty. *)
Definition maxOf (rows : list nat) : nat := fold_right Nat.max 0 rows.

Section Sheets.

Variable RT : Runtime.
Variable DRT : DateRuntime.

(** The objects of the rows below the header: the names are the cells of
    the header row, or the combined names of two header rows, and a name
    goes with the cell at its own position in the list of names. *)
Definition sheetRows (sheet : Grid) (headerRowIndex : nat)
  (isMultiRowHeader : bool) (headerRows : list nat) : list RowObject :=
  if maxOf headerRows <? length sheet then
    let '(headers, dataStartRow) :=
      if isMultiRowHeader && (1 <? length headerRows)
      then (map CStr (combineMultiRowHeaders RT sheet headerRows),
            maxOf headerRows + 1)
      else (nth headerRowIndex sheet [], headerRowIndex + 1) in
    rowObjectsOf RT headers sheet dataStartRow
  else [].

(** The header row, whether the header has two rows, and the header rows:
    detected on the raw values unless the header row is given. *)
Definition headerOf (detectData : Grid) (givenHeaderRow : option nat)
  : Result (nat * bool * list nat) :=
  match givenHeaderRow with
  | None =>
    match detectHeaderRowFull RT detectData with
    | Return d =>
      Return (headerRow (fd_detection d), isMultiRowHeaderOf d, headerRowsOf d)
    | Throw message => Throw message
    end
  | Some headerRowIndex => Return (headerRowIndex, false, [headerRowIndex])
  end.

Definition readSheet (detectData rawData : Grid) (merges : list MergeRegion)
  (givenHeaderRow : option nat) (options : ProcessingOptions)
  : Result (list MonthlyData) :=
  match headerOf detectData givenHeaderRow with
  | Throw message => Throw message
  | Return (headerRowIndex, isMultiRowHeader, headerRows) =>
    let context := extractSikbomDateContext RT rawData in
    let sheet :=
      match merges with
      | [] => rawData
      | _ :: _ => resolveMerges rawData merges
      end in
    readExcelFile RT (parseDateString RT DRT context)
      (sheetRows sheet headerRowIndex isMultiRowHeader headerRows) options
  end.

End Sheets.

(** A sheet with a header of two rows and an empty second column in both
    header rows. *)
Definition gappedSheet : Grid :=
  [ [CStr (js "날짜"); CUndef; CStr (js "합계")];
    [CUndef; CUndef; CStr (js "금액")];
    [CStr (js "2024-01-15"); CStr (js "메모"); CNum 1000];
    [CStr (js "2024-01-16"); CStr (js "메모"); CNum 2000] ].

(** ** The headers offered for the choice of columns ([getColumnHeaders]) *)

Section ColumnHeaders.

Variable RT : Runtime.

(** [header != null && header.toString().trim() !== ''] *)
Definition isListedHeader (header : Cell) : bool :=
  match header with
  | CUndef | CNull => false
  | _ => negb (isEmptyText (trim (toString RT header)))
  end.

(** One merge region in the loop over the header row.  [headers] is the
    header row of [data] itself, so a region whose first row is the header
    row takes its value from the cells as filled so far. *)
Definition fillHeaders (data : Grid) (headerRowIndex : nat) (headers : Row)
  (merge : MergeRegion) : Row :=
  if (s_r merge <=? headerRowIndex) && (headerRowIndex <=? e_r merge) then
    let value :=
      if s_r merge =? headerRowIndex then cellAt headers (s_c merge)
      else cellOf data (s_r merge) (s_c merge) in
    fold_left (rowFillCell value) (mergeCols merge) headers
  else headers.

(** The branch of a single header row. *)
Definition headersOfRow (data : Grid) (merges : list MergeRegion)
  (headerRowIndex : nat) : Result (list Cell) :=
  if length data <=? headerRowIndex then
    Throw (js "Header row " ++ natToString (N.of_nat headerRowIndex)
           ++ js " exceeds data length "
           ++ natToString (N.of_nat (length data)))
  else
    Return (filter isListedHeader
              (fold_left (fillHeaders data headerRowIndex) merges
                         (nth headerRowIndex data []))).

(** [givenHeaderRow] is [options.headerRow] and [autoDetect] is
    [options.autoDetect], both [None] when absent. *)
Definition getColumnHeaders (data : Grid) (merges : list MergeRegion)
  (givenHeaderRow : option nat) (autoDetect : option bool)
  : Result (list Cell) :=
  if length data =? 0 then Throw (js "No data found in Excel file")
  else
    match givenHeaderRow, autoDetect with
    | Some headerRowIndex, _ => headersOfRow data merges headerRowIndex
    | None, Some false => headersOfRow data merges 0
    | None, _ =>
      match detectHeaderRowFull RT data with
      | Throw message => Throw message
      | Return d =>
        if isMultiRowHeaderOf d
        then Return (map CStr (combineMultiRowHeaders RT data (headerRowsOf d)))
        else headersOfRow data merges (headerRow (fd_detection d))
      end
    end.

End ColumnHeaders.

(** A sheet whose header cell of the second column spans two columns. *)
Definition mergedHeaderSheet : Grid :=
  [ [CStr (js "날짜"); CStr (js "매출")];
    [CStr (js "2024-01-15"); CNum 1000; CNum 2000] ].

(** ** Summary lines ([isSummaryRow]) *)

(** The four of the eight patterns that no other pattern contains. *)
Definition decisivePatterns : list jsstring :=
  [js "계"; js "총합"; js "total"; js "sum"].

(** ** The growth rate ([calculateGrowthRate]) *)

(** [a * b] on numbers. *)
Definition num_mul (a b : number) : number :=
  match a, b with
  | NaN, _ | _, NaN => NaN
  | Fin p, Fin q => Fin (p * q)
  | Inf s, Fin q | Fin q, Inf s =>
    if (Qnum q =? 0)%Z then NaN else Inf (xorb s (Qnum q <? 0)%Z)
  | Inf s, Inf t => Inf (xorb s t)
  end.

(** [a / b] on numbers.  The sign of a zero is not part of the model: a
    zero divisor counts as [+0] (the growth rate never divides by zero). *)
Definition num_div (a b : number) : number :=
  match a, b with
  | NaN, _ | _, NaN => NaN
  | Fin p, Fin q =>
    if (Qnum q =? 0)%Z then
      if (Qnum p =? 0)%Z then NaN else Inf (Qnum p <? 0)%Z
    else Fin (p / q)
  | Fin _, Inf _ => Fin 0
  | Inf s, Fin q => Inf (xorb s (Qnum q <? 0)%Z)
  | Inf _, Inf _ => NaN
  end.

Definition calculateGrowthRate (current previous : number) : number :=
  if num_is_zero previous then Fin 0
  else num_mul (num_div (num_sub current previous) previous) (Fin 100).

(** ** The export of the yearly totals as text ([exportResults], CSV) *)

(** The text of a number in a template literal. *)
Definition num_toString (RT : Runtime) (n : number) : jsstring :=
  match n with
  | NaN => js "NaN"
  | Fin q => Number_toString RT q
  | Inf negative => if negative then js "-Infinity" else js "Infinity"
  end.

Definition csvHeader : jsstring :=
  js "쇼핑몰,연간 면세 합계,연간 과세 합계,연간 총 합계".

(** [`${r.mallName},${r.yearlyTotal.taxExempt},${r.yearlyTotal.taxable},${r.yearlyTotal.total}`] *)
Definition csvLine (RT : Runtime) (r : CalculationResult) : jsstring :=
  cr_mallName r ++ js "," ++ num_toString RT (yt_taxExempt (yearlyTotal r))
  ++ js "," ++ num_toString RT (yt_taxable (yearlyTotal r))
  ++ js "," ++ num_toString RT (yt_total (yearlyTotal r)).

(** The text written to the file: the header and one line per result,
    joined by line feeds. *)
Definition exportCsv (RT : Runtime) (results : list CalculationResult)
  : jsstring :=
  join [10%N] (csvHeader :: map (csvLine RT) results).

(** A whole amount that is not negative and is written without an
    exponent. *)
Definition wholeAmount (n : number) : Prop :=
  exists z, (0 <= z < 10 ^ 21)%Z /\ num_equiv n (ofZ z).

Definition wholeTotals (r : CalculationResult) : Prop :=
  wholeAmount (yt_taxExempt (yearlyTotal r))
  /\ wholeAmount (yt_taxable (yearlyTotal r))
  /\ wholeAmount (yt_total (yearlyTotal r)).

Definition sampleResult : CalculationResult :=
  {| cr_mallName := js "Mall, Inc.";
     monthlyTotals := [];
     yearlyTotal := {| yt_taxExempt := ofZ 1000;
                       yt_taxable := ofZ 2000;
                       yt_total := ofZ 3000 |} |}.

(** A sheet with a header of two rows, a parent row over tax labels, and
    the choice of its columns. *)
Definition settlementSheet : Grid :=
  [ [CStr (js "날짜"); CStr (js "주문금액"); CStr (js "주문금액");
     CStr (js "배송비 금액")];
    [CUndef; CStr (js "과세금액"); CStr (js "면세금액")];
    [CStr (js "2024-01-15"); CNum 1000; CNum 2000; CNum 30];
    [CStr (js "2024-02-16"); CNum 3000; CNum 4000; CNum 70] ].

Definition settlementOptions : ProcessingOptions :=
  {| dateColumn := Some (js "날짜");
     taxExemptColumn := Some (js "주문금액 > 면세금액");
     taxableColumn := Some (js "주문금액 > 과세금액");
     useTaxTypeClassification := false;
     taxTypeColumn := None;
     amountColumn := None;
     taxExemptValues := None;
     taxableValues := None;
     useMultiColumnSum := false;
     amountColumns := None |}.

(** * Properties *)

(** ** Strings and numbers *)

Lemma jsstring_eqb_eq (a b : jsstring) : jsstring_eqb a b = true <-> a = b.
Proof.
  unfold jsstring_eqb. destruct (list_eq_dec N.eq_dec a b); split; congruence.
Qed.

Lemma takeDigits_all (ds : jsstring) :
  forallb isDigit ds = true -> takeDigits ds = (ds, []).
Proof.
  induction ds as [|c ds IH]; simpl; intros H; [reflexivity|].
  apply andb_prop in H as [Hc Hds]. rewrite Hc, (IH Hds). reflexivity.
Qed.

Lemma digit_not_space (c : N) : isDigit c = true -> isWhiteSpace c = false.
Proof.
  unfold isDigit, isWhiteSpace. intros H.
  apply andb_prop in H as [H1 H2].
  apply N.leb_le in H1. apply N.leb_le in H2.
  repeat match goal with
  | |- context [(?a <=? ?b)%N] => destruct (N.leb_spec a b)
  | |- context [(?a =? ?b)%N] => destruct (N.eqb_spec a b)
  end; simpl; try reflexivity; lia.
Qed.

Lemma strDecimalLiteral_digits (ds : jsstring) :
  ds <> [] -> forallb isDigit ds = true ->
  strDecimalLiteral ds = Some (Fin (inject_Z (Z.of_N (decValue ds))), []).
Proof.
  intros Hne Hd. destruct ds as [|c ds]; [congruence|].
  assert (Hc : isDigit c = true) by (simpl in Hd; apply andb_prop in Hd; tauto).
  assert (H45 : (c =? 45)%N = false /\ (c =? 43)%N = false /\ (c =? 73)%N = false).
  { unfold isDigit in Hc. apply andb_prop in Hc as [H1 H2].
    apply N.leb_le in H1. apply N.leb_le in H2.
    repeat split; apply N.eqb_neq; lia. }
  destruct H45 as (H45 & H43 & H73).
  assert (Hlit : strDecimalLiteral (c :: ds)
                 = strUnsignedDecimalLiteral (c :: ds)).
  { unfold strDecimalLiteral. apply N.eqb_neq in H45. apply N.eqb_neq in H43.
    destruct c as [|p]; [reflexivity|].
    do 6 (destruct p as [p|p|]; try reflexivity); congruence. }
  rewrite Hlit. unfold strUnsignedDecimalLiteral.
  replace (startsWith (c :: ds) (js "Infinity")) with false.
  2:{ change (js "Infinity") with [73; 110; 102; 105; 110; 105; 116; 121]%N.
      cbn [startsWith]. rewrite N.eqb_sym, H73. reflexivity. }
  rewrite (takeDigits_all _ Hd). cbn [exponentPart].
  unfold scale10. cbn [Z.leb Z.compare]. rewrite Z.pow_0_r, Z.mul_1_r.
  reflexivity.
Qed.

Lemma trimStart_digits (ds : jsstring) :
  forallb isDigit ds = true -> trimStart ds = ds.
Proof.
  destruct ds as [|c ds]; [reflexivity|]. cbn [forallb trimStart]. intros H.
  apply andb_prop in H as [Hc _]. now rewrite (digit_not_space _ Hc).
Qed.

Lemma trim_digits (ds : jsstring) :
  forallb isDigit ds = true -> trim ds = ds.
Proof.
  intros H. unfold trim, trimEnd. rewrite (trimStart_digits _ H).
  rewrite trimStart_digits; [apply rev_involutive|].
  apply forallb_forall. intros c Hin. apply in_rev in Hin.
  rewrite forallb_forall in H. now apply H.
Qed.

(** A non-empty run of decimal digits is read by [parseFloat] and by
    [Number] as the integer it denotes. *)
Lemma parseFloat_digits (ds : jsstring) :
  ds <> [] -> forallb isDigit ds = true ->
  parseFloat ds = Fin (inject_Z (Z.of_N (decValue ds))).
Proof.
  intros Hne Hd. unfold parseFloat.
  now rewrite (trimStart_digits _ Hd), (strDecimalLiteral_digits _ Hne Hd).
Qed.

Lemma Number_ofString_digits (ds : jsstring) :
  ds <> [] -> forallb isDigit ds = true ->
  Number_ofString ds = Fin (inject_Z (Z.of_N (decValue ds))).
Proof.
  intros Hne Hd. unfold Number_ofString. rewrite (trim_digits _ Hd).
  destruct ds as [|c ds]; [congruence|].
  assert (Hnd : nonDecimalIntegerLiteral (c :: ds) = None).
  { unfold nonDecimalIntegerLiteral.
    destruct (N.eqb_spec c 48) as [->|Hc].
    - destruct ds as [|p [|q ds]]; try reflexivity.
      cbn [forallb] in Hd. apply andb_prop in Hd as [_ Hd].
      apply andb_prop in Hd as [Hp _]. unfold isDigit in Hp.
      apply andb_prop in Hp as [H1 H2].
      apply N.leb_le in H1. apply N.leb_le in H2.
      repeat match goal with
      | |- context [(?a =? ?b)%N] => destruct (N.eqb_spec a b); [lia|]
      end. reflexivity.
    - destruct c as [|p]; [reflexivity|].
      do 6 (destruct p as [p|p|]; try reflexivity); congruence. }
  rewrite Hnd. now rewrite (strDecimalLiteral_digits _ Hne Hd).
Qed.

Lemma orZero_not_NaN (n : number) : isNaN (orZero n) = false.
Proof. destruct n; unfold orZero; simpl; try reflexivity.
  destruct (Qnum q =? 0)%Z; reflexivity. Qed.

Lemma parseAmount_not_NaN (c : Cell) : isNaN (parseAmount c) = false.
Proof. destruct c; simpl; auto using orZero_not_NaN. Qed.

Lemma orZero_inject_Z (z : Z) : orZero (Fin (inject_Z z)) = Fin (inject_Z z).
Proof.
  unfold orZero, num_truthy, inject_Z. cbn [Qnum].
  destruct (Z.eqb_spec z 0) as [->|]; reflexivity.
Qed.

(** ** Amount parsing *)



(** ** Date parsing *)

Lemma newDate_ofNumber_whole (n : Z) :
  newDate_ofNumber ((inject_Z n - 25569) * 86400 * 1000)
  = (utcMidnight 1899 12 30 + n * (86400 * 1000))%Z.
Proof.
  unfold newDate_ofNumber, utcMidnight, msPerDay.
  change (days_from_civil 1899 12 30) with (-25569)%Z.
  cbn [Qnum Qden inject_Z Qminus Qplus Qopp Qmult Pos.mul].
  rewrite Z.quot_1_r. lia.
Qed.

Lemma newDate_ofNumber_close (x : Q) :
  (Qabs (inject_Z (newDate_ofNumber x) - x) < 1)%Q.
Proof.
  destruct x as [a d]. unfold newDate_ofNumber. cbn [Qnum Qden].
  pose proof (Z.quot_rem' a (Zpos d)) as Hqr.
  assert (Hr : (Z.abs (Z.rem a (Zpos d)) < Zpos d)%Z).
  { pose proof (Z.rem_bound_abs a (Zpos d)). lia. }
  set (k := Z.quot a (Zpos d)) in *. set (r := Z.rem a (Zpos d)) in *.
  assert (E : (inject_Z k - (a # d) == (- r) # d)%Q).
  { unfold Qeq, Qminus, Qplus, Qopp, inject_Z. cbn [Qnum Qden].
    rewrite Hqr. rewrite !Pos2Z.inj_mul. ring. }
  rewrite E. unfold Qabs, Qlt. cbn [Qnum Qden]. lia.
Qed.



(** ** Merge resolution *)

(** *** Rows *)

Lemma cellAt_overflow (row : Row) (c : nat) :
  length row <= c -> cellAt row c = CUndef.
Proof. intros H. unfold cellAt. now apply nth_overflow. Qed.

Lemma truthy_in_range (row : Row) (c : nat) :
  truthy (cellAt row c) = true -> c < length row.
Proof.
  intros H. destruct (Nat.lt_ge_cases c (length row)) as [|Hge]; [assumption|].
  rewrite (cellAt_overflow _ _ Hge) in H. discriminate.
Qed.

Lemma length_setCell (row : Row) (c : nat) (v : Cell) :
  length (setCell row c v) = Nat.max (length row) (S c).
Proof.
  unfold setCell. destruct (Nat.ltb_spec c (length row)) as [Hlt|Hge].
  - rewrite length_app, length_firstn. cbn [length]. rewrite length_skipn. lia.
  - rewrite !length_app, repeat_length. cbn [length]. lia.
Qed.

Lemma cellAt_setCell (row : Row) (c c' : nat) (v : Cell) :
  cellAt (setCell row c v) c' = if c' =? c then v else cellAt row c'.
Proof.
  unfold setCell, cellAt.
  destruct (Nat.ltb_spec c (length row)) as [Hlt|Hge];
    destruct (Nat.eqb_spec c' c) as [->|Hne].
  - rewrite app_nth2; rewrite length_firstn; [|lia].
    replace (c - Nat.min c (length row)) with 0 by lia. reflexivity.
  - destruct (Nat.lt_ge_cases c' c) as [Hlt'|Hge'].
    + rewrite app_nth1 by (rewrite length_firstn; lia).
      rewrite nth_firstn. destruct (Nat.ltb_spec c' c); [reflexivity|lia].
    + rewrite app_nth2; rewrite length_firstn; [|lia].
      replace (Nat.min c (length row)) with c by lia.
      destruct (c' - c) as [|k] eqn:E; [lia|]. cbn [nth].
      rewrite nth_skipn. f_equal. lia.
  - rewrite app_nth2 by lia. rewrite app_nth2; rewrite repeat_length; [|lia].
    replace (c - length row - (c - length row)) with 0 by lia. reflexivity.
  - destruct (Nat.lt_ge_cases c' (length row)) as [Hlt'|Hge'].
    + now rewrite app_nth1.
    + rewrite app_nth2 by lia. rewrite (nth_overflow row) by lia.
      destruct (Nat.lt_ge_cases (c' - length row) (c - length row)).
      * rewrite app_nth1 by (rewrite repeat_length; lia).
        apply nth_repeat.
      * rewrite app_nth2; rewrite repeat_length; [|lia].
        destruct (c' - length row - (c - length row)) as [|k] eqn:E; [lia|].
        cbn [nth]. now destruct k.
Qed.

Lemma row_ext (a b : Row) :
  length a = length b -> (forall c, cellAt a c = cellAt b c) -> a = b.
Proof. intros Hl H. apply (nth_ext a b CUndef CUndef Hl). intros; apply H. Qed.

Lemma cellAt_rowFillCell (value : Cell) (row : Row) (c c' : nat) :
  cellAt (rowFillCell value row c) c'
  = if (c' =? c) && negb (truthy (cellAt row c)) then value
    else cellAt row c'.
Proof.
  unfold rowFillCell. destruct (truthy (cellAt row c)) eqn:E.
  - now rewrite andb_false_r.
  - rewrite cellAt_setCell, andb_true_r. reflexivity.
Qed.

Lemma length_rowFillCell (value : Cell) (row : Row) (c : nat) :
  length (rowFillCell value row c) = Nat.max (length row) (S c).
Proof.
  unfold rowFillCell. destruct (truthy (cellAt row c)) eqn:E.
  - apply truthy_in_range in E. lia.
  - apply length_setCell.
Qed.

Lemma fold_rowFillCell_seq (value : Cell) (row : Row) (a n : nat) :
  let row' := fold_left (rowFillCell value) (seq a n) row in
  length row' = (if n =? 0 then length row else Nat.max (length row) (a + n))
  /\ forall c, cellAt row' c
       = if (a <=? c) && (c <? a + n) && negb (truthy (cellAt row c))
         then value else cellAt row c.
Proof.
  induction n as [|n IH]; cbn zeta.
  - split; [reflexivity|]. intros c. cbn [seq fold_left].
    destruct (Nat.leb_spec a c), (Nat.ltb_spec c (a + 0)); cbn [andb];
      try reflexivity; lia.
  - rewrite seq_S, fold_left_app. cbn [fold_left].
    cbn zeta in IH. destruct IH as [IHl IHc].
    set (row' := fold_left (rowFillCell value) (seq a n) row) in *.
    split.
    + rewrite length_rowFillCell, IHl. cbn [Nat.eqb].
      destruct (Nat.eqb_spec n 0); lia.
    + intros c. rewrite cellAt_rowFillCell, !IHc.
      destruct (Nat.eqb_spec c (a + n)) as [->|Hne];
        repeat match goal with
        | |- context [?x <=? ?y] => destruct (Nat.leb_spec x y)
        | |- context [?x <? ?y] => destruct (Nat.ltb_spec x y)
        end; cbn [andb negb]; try lia; try reflexivity;
        now destruct (truthy (cellAt row (a + n))).
Qed.

Lemma cellAt_fillRow (value : Cell) (m : MergeRegion) (row : Row) (c : nat) :
  cellAt (fillRow value m row) c
  = if (s_c m <=? c) && (c <=? e_c m) && negb (truthy (cellAt row c))
    then value else cellAt row c.
Proof.
  unfold fillRow, mergeCols.
  destruct (fold_rowFillCell_seq value row (s_c m) (S (e_c m) - s_c m))
    as [_ H].
  rewrite H.
  replace (c <? s_c m + (S (e_c m) - s_c m))
    with ((s_c m <=? c) && (c <=? e_c m) || negb (s_c m <=? c)).
  - destruct (s_c m <=? c), (c <=? e_c m); reflexivity.
  - destruct (Nat.leb_spec (s_c m) c), (Nat.leb_spec c (e_c m)),
      (Nat.ltb_spec c (s_c m + (S (e_c m) - s_c m))); cbn; try reflexivity; lia.
Qed.

Lemma length_fillRow (value : Cell) (m : MergeRegion) (row : Row) :
  length (fillRow value m row)
  = if s_c m <=? e_c m then Nat.max (length row) (S (e_c m)) else length row.
Proof.
  unfold fillRow, mergeCols.
  destruct (fold_rowFillCell_seq value row (s_c m) (S (e_c m) - s_c m))
    as [H _].
  rewrite H.
  destruct (Nat.leb_spec (s_c m) (e_c m)), (Nat.eqb_spec (S (e_c m) - s_c m) 0);
    lia.
Qed.

(** *** Grids *)

Lemma length_updRow (g : Grid) (r : nat) (row : Row) :
  r < length g -> length (updRow g r row) = length g.
Proof.
  intros H. unfold updRow. rewrite length_app, length_firstn. cbn [length].
  rewrite length_skipn. lia.
Qed.

Lemma nth_updRow (g : Grid) (r r' : nat) (row : Row) :
  r < length g ->
  nth r' (updRow g r row) [] = if r' =? r then row else nth r' g [].
Proof.
  intros H. unfold updRow. destruct (Nat.eqb_spec r' r) as [->|Hne].
  - rewrite app_nth2; rewrite length_firstn; [|lia].
    replace (r - Nat.min r (length g)) with 0 by lia. reflexivity.
  - destruct (Nat.lt_ge_cases r' r) as [Hlt|Hge].
    + rewrite app_nth1 by (rewrite length_firstn; lia).
      rewrite nth_firstn. destruct (Nat.ltb_spec r' r); [reflexivity|lia].
    + rewrite app_nth2; rewrite length_firstn; [|lia].
      replace (Nat.min r (length g)) with r by lia.
      destruct (r' - r) as [|k] eqn:E; [lia|]. cbn [nth].
      rewrite nth_skipn. f_equal. lia.
Qed.

Lemma grid_ext (a b : Grid) :
  length a = length b -> (forall r, nth r a [] = nth r b []) -> a = b.
Proof. intros Hl H. apply (nth_ext a b [] [] Hl). intros; apply H. Qed.

Lemma updRow_same (g : Grid) (r : nat) :
  r < length g -> updRow g r (nth r g []) = g.
Proof.
  intros H. apply grid_ext; [now apply length_updRow|].
  intros r'. rewrite nth_updRow by assumption.
  now destruct (Nat.eqb_spec r' r) as [->|].
Qed.

Lemma updRow_updRow (g : Grid) (r : nat) (a b : Row) :
  r < length g -> updRow (updRow g r a) r b = updRow g r b.
Proof.
  intros H. apply grid_ext.
  - rewrite !length_updRow; rewrite ?length_updRow; auto.
  - intros r'. rewrite !nth_updRow; rewrite ?length_updRow; auto.
    now destruct (r' =? r).
Qed.

Lemma gridFillCell_updRow (value : Cell) (r c : nat) (g : Grid) :
  r < length g ->
  gridFillCell value r c g = updRow g r (rowFillCell value (nth r g []) c).
Proof.
  intros H. unfold gridFillCell, rowFillCell, cellOf.
  apply Nat.ltb_lt in H as Hb. rewrite Hb.
  destruct (truthy (cellAt (nth r g []) c)); [|reflexivity].
  symmetry. now apply updRow_same.
Qed.

Lemma fold_gridFillCell (value : Cell) (r : nat) (cols : list nat) (g : Grid) :
  r < length g ->
  fold_left (fun g c => gridFillCell value r c g) cols g
  = updRow g r (fold_left (rowFillCell value) cols (nth r g [])).
Proof.
  revert g. induction cols as [|c cols IH]; intros g H; cbn [fold_left].
  - symmetry. now apply updRow_same.
  - rewrite (gridFillCell_updRow value r c g H).
    rewrite IH by (now rewrite length_updRow).
    rewrite nth_updRow, Nat.eqb_refl by assumption.
    now apply updRow_updRow.
Qed.

Lemma fold_updRow_seq (F : Row -> Row) (g : Grid) (a n : nat) :
  a + n <= length g ->
  let g' := fold_left (fun g r => updRow g r (F (nth r g []))) (seq a n) g in
  length g' = length g
  /\ forall r, nth r g' []
       = if (a <=? r) && (r <? a + n) then F (nth r g []) else nth r g [].
Proof.
  induction n as [|n IH]; intros Hle; cbn zeta.
  - split; [reflexivity|]. intros r. cbn [seq fold_left].
    destruct (Nat.leb_spec a r), (Nat.ltb_spec r (a + 0)); cbn [andb];
      try reflexivity; lia.
  - rewrite seq_S, fold_left_app. cbn [fold_left].
    destruct IH as [IHl IHn]; [lia|].
    set (g' := fold_left _ (seq a n) g) in *.
    split; [rewrite length_updRow; lia|].
    intros r. rewrite nth_updRow by lia. rewrite !IHn.
    destruct (Nat.eqb_spec r (a + n)) as [->|Hne];
      repeat match goal with
      | |- context [?x <=? ?y] => destruct (Nat.leb_spec x y)
      | |- context [?x <? ?y] => destruct (Nat.ltb_spec x y)
      end; cbn [andb]; try lia; reflexivity.
Qed.

Lemma fillRegion_rows (g : Grid) (m : MergeRegion) :
  length (fillRegion g m) = length g
  /\ forall r, nth r (fillRegion g m) []
       = if (s_r m <=? r) && (r <=? e_r m) && (r <? length g)
         then fillRow (cellOf g (s_r m) (s_c m)) m (nth r g [])
         else nth r g [].
Proof.
  unfold fillRegion, mergeRows.
  set (value := cellOf g (s_r m) (s_c m)).
  set (n := Nat.min (S (e_r m)) (length g) - s_r m).
  assert (Hfold : forall g0, s_r m + n <= length g0 ->
    fold_left (fun g r => fold_left (fun g c => gridFillCell value r c g)
                                    (mergeCols m) g) (seq (s_r m) n) g0
    = fold_left (fun g r => updRow g r (fillRow value m (nth r g [])))
                (seq (s_r m) n) g0).
  { generalize (s_r m) as a. induction n as [|k IH]; intros a g0 Hle.
    - reflexivity.
    - cbn [seq fold_left]. rewrite fold_gridFillCell by lia.
      apply IH. rewrite length_updRow; lia. }
  destruct (Nat.le_gt_cases n 0) as [Hz|Hpos].
  - assert (n = 0) as Hn by lia. rewrite Hn in *. cbn [seq fold_left].
    split; [reflexivity|]. intros r.
    destruct (Nat.leb_spec (s_r m) r), (Nat.leb_spec r (e_r m)),
      (Nat.ltb_spec r (length g)); cbn [andb]; try reflexivity.
    subst n. lia.
  - rewrite Hfold by (subst n; lia).
    destruct (fold_updRow_seq (fillRow value m) g (s_r m) n) as [Hl Hn];
      [subst n; lia|].
    split; [exact Hl|]. intros r. rewrite Hn.
    destruct (Nat.leb_spec (s_r m) r), (Nat.leb_spec r (e_r m)),
      (Nat.ltb_spec r (length g)), (Nat.ltb_spec r (s_r m + n));
      cbn [andb]; try reflexivity; subst n; lia.
Qed.

Lemma length_fillRegion (g : Grid) (m : MergeRegion) :
  length (fillRegion g m) = length g.
Proof. apply fillRegion_rows. Qed.

Lemma length_resolveMerges (ms : list MergeRegion) (g : Grid) :
  length (resolveMerges g ms) = length g.
Proof.
  revert g. induction ms as [|m ms IH]; intros g; [reflexivity|].
  unfold resolveMerges in *. cbn [fold_left]. rewrite IH.
  apply length_fillRegion.
Qed.

Lemma cellOf_outside (g : Grid) (r c : nat) :
  length g <= r -> cellOf g r c = CUndef.
Proof.
  intros H. unfold cellOf. rewrite nth_overflow by assumption. now destruct c.
Qed.

Lemma cellOf_fillRegion (g : Grid) (m : MergeRegion) (r c : nat) :
  cellOf (fillRegion g m) r c
  = if (r <? length g) && inRectb m r c && negb (truthy (cellOf g r c))
    then cellOf g (s_r m) (s_c m) else cellOf g r c.
Proof.
  unfold cellOf at 1. destruct (fillRegion_rows g m) as [_ H]. rewrite H.
  unfold inRectb.
  destruct (s_r m <=? r), (r <=? e_r m), (r <? length g); cbn [andb];
    try reflexivity.
  rewrite cellAt_fillRow. fold (cellOf g r c).
  destruct (s_c m <=? c), (c <=? e_c m); reflexivity.
Qed.

Lemma inRectb_spec (m : MergeRegion) (r c : nat) :
  inRectb m r c = true <-> inRect m r c.
Proof.
  unfold inRectb, inRect. rewrite !andb_true_iff, !Nat.leb_le. tauto.
Qed.

Lemma inRectb_false (m : MergeRegion) (r c : nat) :
  ~ inRect m r c -> inRectb m r c = false.
Proof.
  intros H. destruct (inRectb m r c) eqn:E; [|reflexivity].
  apply inRectb_spec in E. contradiction.
Qed.

Lemma overlapb_spec (m1 m2 : MergeRegion) :
  overlapb m1 m2 = true <-> overlap m1 m2.
Proof.
  unfold overlapb, overlap, inRect. rewrite andb_true_iff, !Nat.leb_le. split.
  - intros [Hr Hc].
    exists (Nat.max (s_r m1) (s_r m2)), (Nat.max (s_c m1) (s_c m2)). lia.
  - intros (r & c & H1 & H2). lia.
Qed.

(** A region leaves the grid as it is exactly when every row it covers is
    long enough and every falsy cell it covers already holds the value of
    its origin. *)
Lemma fillRegion_fixed (g : Grid) (m : MergeRegion) :
  fillRegion g m = g <->
  (forall r, s_r m <= r <= e_r m -> r < length g ->
     (s_c m <= e_c m -> S (e_c m) <= length (nth r g []))
     /\ forall c, s_c m <= c <= e_c m -> truthy (cellOf g r c) = false ->
                  cellOf g r c = cellOf g (s_r m) (s_c m)).
Proof.
  destruct (fillRegion_rows g m) as [Hl Hn]. split.
  - intros E r Hr Hlt.
    assert (Hrow : fillRow (cellOf g (s_r m) (s_c m)) m (nth r g [])
                   = nth r g []).
    { specialize (Hn r). rewrite E in Hn.
      destruct (Nat.leb_spec (s_r m) r), (Nat.leb_spec r (e_r m)),
        (Nat.ltb_spec r (length g)); cbn [andb] in Hn; try lia.
      now symmetry. }
    split.
    + intros Hc. pose proof (length_fillRow (cellOf g (s_r m) (s_c m)) m
                               (nth r g [])) as L.
      rewrite Hrow in L. apply Nat.leb_le in Hc. rewrite Hc in L. lia.
    + intros c Hc Hf.
      pose proof (cellAt_fillRow (cellOf g (s_r m) (s_c m)) m (nth r g []) c)
        as C.
      rewrite Hrow in C. fold (cellOf g r c) in C. rewrite Hf in C.
      destruct (Nat.leb_spec (s_c m) c), (Nat.leb_spec c (e_c m));
        cbn [andb negb] in C; try lia. exact C.
  - intros H. apply grid_ext; [exact Hl|]. intros r. rewrite Hn.
    destruct (Nat.leb_spec (s_r m) r), (Nat.leb_spec r (e_r m)),
      (Nat.ltb_spec r (length g)); cbn [andb]; try reflexivity.
    destruct (H r) as [HL HC]; [lia|assumption|].
    apply row_ext.
    + rewrite length_fillRow.
      destruct (Nat.leb_spec (s_c m) (e_c m)); [|reflexivity].
      specialize (HL ltac:(assumption)). lia.
    + intros c. rewrite cellAt_fillRow. fold (cellOf g r c).
      destruct (Nat.leb_spec (s_c m) c), (Nat.leb_spec c (e_c m));
        cbn [andb]; try reflexivity.
      destruct (truthy (cellOf g r c)) eqn:E; cbn [negb]; [reflexivity|].
      symmetry. apply HC; [lia|assumption].
Qed.

Lemma cellOf_fillRegion_origin (g : Grid) (m : MergeRegion) :
  cellOf (fillRegion g m) (s_r m) (s_c m) = cellOf g (s_r m) (s_c m).
Proof.
  rewrite cellOf_fillRegion.
  now destruct (_ && _ && _).
Qed.

Lemma length_row_fillRegion (g : Grid) (m : MergeRegion) (r : nat) :
  length (nth r g []) <= length (nth r (fillRegion g m) []).
Proof.
  destruct (fillRegion_rows g m) as [_ Hn]. rewrite Hn.
  destruct (_ && _ && _); [|lia].
  rewrite length_fillRow. destruct (s_c m <=? e_c m); lia.
Qed.

Lemma length_row_fillRegion_in (g : Grid) (m : MergeRegion) (r : nat) :
  s_r m <= r <= e_r m -> r < length g -> s_c m <= e_c m ->
  S (e_c m) <= length (nth r (fillRegion g m) []).
Proof.
  intros Hr Hlt Hc. destruct (fillRegion_rows g m) as [_ Hn]. rewrite Hn.
  destruct (Nat.leb_spec (s_r m) r), (Nat.leb_spec r (e_r m)),
    (Nat.ltb_spec r (length g)); cbn [andb]; try lia.
  rewrite length_fillRow. apply Nat.leb_le in Hc. rewrite Hc. lia.
Qed.

(** One region, applied twice, changes nothing the second time. *)
Lemma fillRegion_idem (g : Grid) (m : MergeRegion) :
  fillRegion (fillRegion g m) m = fillRegion g m.
Proof.
  apply fillRegion_fixed. rewrite length_fillRegion. intros r Hr Hlt. split.
  - intros Hc. now apply length_row_fillRegion_in.
  - intros c Hc. rewrite cellOf_fillRegion_origin, !cellOf_fillRegion.
    apply Nat.ltb_lt in Hlt. rewrite Hlt.
    rewrite (proj2 (inRectb_spec m r c)) by (unfold inRect; lia).
    cbn [andb]. destruct (truthy (cellOf g r c)) eqn:E; cbn [negb].
    + congruence.
    + reflexivity.
Qed.

(** A region that leaves the grid as it is still does so after a region that
    does not overlap it has been applied. *)
Lemma fillRegion_fixed_preserved (g : Grid) (m m' : MergeRegion) :
  ~ overlap m m' -> fillRegion g m = g ->
  fillRegion (fillRegion g m') m = fillRegion g m'.
Proof.
  intros Hno Hfix. apply fillRegion_fixed. rewrite length_fillRegion.
  pose proof (proj1 (fillRegion_fixed g m) Hfix) as Hfix'.
  intros r Hr Hlt. destruct (Hfix' r Hr Hlt) as [HL HC]. split.
  - intros Hc. specialize (HL Hc).
    pose proof (length_row_fillRegion g m' r). lia.
  - intros c Hc.
    assert (Hout : forall r0 c0, inRect m r0 c0 ->
              cellOf (fillRegion g m') r0 c0 = cellOf g r0 c0).
    { intros r0 c0 Hin. rewrite cellOf_fillRegion.
      rewrite (inRectb_false m' r0 c0).
      - now rewrite andb_false_r.
      - intros Hin'. apply Hno. now exists r0, c0. }
    rewrite (Hout r c) by (unfold inRect; lia).
    rewrite (Hout (s_r m) (s_c m)) by (unfold inRect; lia).
    now apply HC.
Qed.

Lemma overlap_sym (m m' : MergeRegion) : overlap m m' -> overlap m' m.
Proof. intros (r & c & H1 & H2). now exists r, c. Qed.

Lemma resolveMerges_fixed_preserved (ms : list MergeRegion) :
  forall (g : Grid) (m : MergeRegion),
  Forall (fun m' => ~ overlap m m') ms -> fillRegion g m = g ->
  fillRegion (resolveMerges g ms) m = resolveMerges g ms.
Proof.
  induction ms as [|m0 ms IH]; intros g m Hall Hfix; [exact Hfix|].
  inversion Hall as [|? ? Hm0 Hrest]; subst.
  unfold resolveMerges in *. cbn [fold_left]. apply IH; [assumption|].
  now apply fillRegion_fixed_preserved.
Qed.

Lemma resolveMerges_all_fixed (ms : list MergeRegion) :
  nonOverlapping ms -> forall (g : Grid) (m : MergeRegion), In m ms ->
  fillRegion (resolveMerges g ms) m = resolveMerges g ms.
Proof.
  induction ms as [|m0 ms IH]; intros Hno g m Hin; [contradiction|].
  destruct Hno as [Hall Hno]. unfold resolveMerges in *. cbn [fold_left].
  destruct Hin as [->|Hin].
  - apply (resolveMerges_fixed_preserved ms (fillRegion g m) m Hall).
    apply fillRegion_idem.
  - now apply IH.
Qed.

Lemma resolveMerges_fixpoint (ms : list MergeRegion) (g : Grid) :
  (forall m, In m ms -> fillRegion g m = g) -> resolveMerges g ms = g.
Proof.
  induction ms as [|m0 ms IH]; intros H; [reflexivity|].
  unfold resolveMerges in *. cbn [fold_left].
  rewrite (H m0) by now left. apply IH. intros m Hin. apply H. now right.
Qed.

Lemma resolveMerges_idem (ms : list MergeRegion) (g : Grid) :
  nonOverlapping ms ->
  resolveMerges (resolveMerges g ms) ms = resolveMerges g ms.
Proof.
  intros Hno. apply resolveMerges_fixpoint. intros m Hin.
  now apply resolveMerges_all_fixed.
Qed.

Lemma resolveMerges_outside (ms : list MergeRegion) :
  forall (g : Grid) (r c : nat),
  (forall m, In m ms -> ~ inRect m r c) ->
  cellOf (resolveMerges g ms) r c = cellOf g r c.
Proof.
  induction ms as [|m0 ms IH]; intros g r c H; [reflexivity|].
  unfold resolveMerges in *. cbn [fold_left].
  rewrite IH by (intros m Hin; apply H; now right).
  rewrite cellOf_fillRegion, (inRectb_false m0 r c) by (apply H; now left).
  now rewrite andb_false_r.
Qed.

Lemma resolveMerges_inside (ms : list MergeRegion) :
  nonOverlapping ms ->
  forall (g : Grid) (m : MergeRegion) (r c : nat),
  In m ms -> inRect m r c -> r < length g ->
  cellOf (resolveMerges g ms) r c
  = if truthy (cellOf g r c) then cellOf g r c
    else cellOf g (s_r m) (s_c m).
Proof.
  induction ms as [|m0 ms IH]; intros Hno g m r c Hin Hrect Hlt;
    [contradiction|].
  destruct Hno as [Hall Hno]. unfold resolveMerges in *. cbn [fold_left].
  destruct Hin as [->|Hin].
  - fold (resolveMerges (fillRegion g m) ms).
    rewrite resolveMerges_outside.
    + rewrite cellOf_fillRegion. apply Nat.ltb_lt in Hlt. rewrite Hlt.
      rewrite (proj2 (inRectb_spec m r c) Hrect). cbn [andb].
      now destruct (truthy (cellOf g r c)).
    + intros m' Hin' Hrect'. rewrite Forall_forall in Hall.
      apply (Hall m' Hin'). now exists r, c.
  - rewrite (IH Hno (fillRegion g m0) m r c Hin Hrect)
      by (now rewrite length_fillRegion).
    assert (Hout : forall r0 c0, inRect m r0 c0 ->
              cellOf (fillRegion g m0) r0 c0 = cellOf g r0 c0).
    { intros r0 c0 Hin0. rewrite cellOf_fillRegion.
      rewrite (inRectb_false m0 r0 c0).
      - now rewrite andb_false_r.
      - intros Hin'. rewrite Forall_forall in Hall.
        apply (Hall m Hin). now exists r0, c0. }
    rewrite (Hout r c Hrect).
    rewrite (Hout (s_r m) (s_c m)); [reflexivity|].
    unfold inRect in *. lia.
Qed.

(** *** The store *)

Lemma rowOf_app_l (h g : Heap) (a : addr) :
  a < length h -> rowOf (h ++ g) a = rowOf h a.
Proof. intros H. unfold rowOf. now apply app_nth1. Qed.

Lemma rowOf_app_r (h g : Heap) (r : nat) :
  rowOf (h ++ g) (length h + r) = nth r g [].
Proof.
  unfold rowOf. rewrite app_nth2 by lia. f_equal. lia.
Qed.

Lemma nth_error_seq_lt (a n r : nat) :
  r < n -> nth_error (seq a n) r = Some (a + r).
Proof.
  revert a r. induction n as [|n IH]; intros a r H; [lia|].
  destruct r as [|r]; cbn [seq nth_error]; [f_equal; lia|].
  rewrite IH by lia. f_equal. lia.
Qed.

Lemma nth_error_seq_ge (a n r : nat) :
  n <= r -> nth_error (seq a n) r = None.
Proof. intros H. apply nth_error_None. now rewrite length_seq. Qed.

Lemma readGrid_app_seq (h : Heap) (g : Grid) :
  readGrid (h ++ g) (seq (length h) (length g)) = g.
Proof.
  unfold readGrid. apply grid_ext.
  - now rewrite length_map, length_seq.
  - intros r. destruct (Nat.lt_ge_cases r (length g)) as [Hlt|Hge].
    + rewrite (nth_indep _ [] (rowOf (h ++ g) 0))
        by (now rewrite length_map, length_seq).
      rewrite map_nth, seq_nth by assumption. apply rowOf_app_r.
    + rewrite !nth_overflow; rewrite ?length_map, ?length_seq; auto.
Qed.

Lemma heapSetCell_app (h : Heap) (g : Grid) (r c : nat) (v : Cell) :
  r < length g ->
  heapSetCell (h ++ g) (length h + r) c v
  = h ++ updRow g r (setCell (nth r g []) c v).
Proof.
  intros H. unfold heapSetCell, updRow.
  rewrite nth_error_app2 by lia.
  replace (length h + r - length h) with r by lia.
  rewrite (nth_error_nth' g [] H).
  rewrite firstn_app, firstn_all2 by lia.
  replace (length h + r - length h) with r by lia.
  rewrite <- app_assoc. f_equal. f_equal. f_equal.
  replace (S (length h + r)) with (length h + S r) by lia.
  now rewrite skipn_app, skipn_all2, Nat.add_comm, Nat.add_sub by lia.
Qed.

Lemma length_gridFillCell (value : Cell) (r c : nat) (g : Grid) :
  length (gridFillCell value r c g) = length g.
Proof.
  unfold gridFillCell. destruct (Nat.ltb_spec r (length g)); [|reflexivity].
  destruct (truthy _); [reflexivity|]. now apply length_updRow.
Qed.

Lemma fillCell_app (value : Cell) (h : Heap) (g : Grid) (r c : nat) :
  fillCell value (seq (length h) (length g)) r c (h ++ g)
  = h ++ gridFillCell value r c g.
Proof.
  unfold fillCell, gridFillCell.
  destruct (Nat.ltb_spec r (length g)) as [Hlt|Hge].
  - rewrite nth_error_seq_lt by assumption. rewrite rowOf_app_r.
    fold (cellOf g r c). destruct (truthy (cellOf g r c)); [reflexivity|].
    now apply heapSetCell_app.
  - now rewrite nth_error_seq_ge.
Qed.

Lemma fold_fillCell_app (value : Cell) (h : Heap) (n r : nat)
  (cols : list nat) :
  forall g : Grid, length g = n ->
  fold_left (fun h0 c => fillCell value (seq (length h) n) r c h0) cols
            (h ++ g)
  = h ++ fold_left (fun g c => gridFillCell value r c g) cols g.
Proof.
  induction cols as [|c cols IH]; intros g Hg; cbn [fold_left];
    [reflexivity|].
  pose proof (fillCell_app value h g r c) as E. rewrite Hg in E. rewrite E.
  apply IH. now rewrite length_gridFillCell.
Qed.

Lemma length_fold_gridFillCell (value : Cell) (r : nat) (cols : list nat) :
  forall g : Grid,
  length (fold_left (fun g c => gridFillCell value r c g) cols g) = length g.
Proof.
  induction cols as [|c cols IH]; intros g; cbn [fold_left]; [reflexivity|].
  rewrite IH. apply length_gridFillCell.
Qed.

Lemma originValue_app (h : Heap) (g : Grid) (m : MergeRegion) :
  originValue (h ++ g) (seq (length h) (length g)) m
  = cellOf g (s_r m) (s_c m).
Proof.
  unfold originValue.
  destruct (Nat.lt_ge_cases (s_r m) (length g)) as [Hlt|Hge].
  - rewrite nth_error_seq_lt by assumption. now rewrite rowOf_app_r.
  - rewrite nth_error_seq_ge by assumption. symmetry.
    now apply cellOf_outside.
Qed.

Lemma processMerge_app (h : Heap) (g : Grid) (m : MergeRegion) :
  processMerge (seq (length h) (length g)) (h ++ g) m = h ++ fillRegion g m.
Proof.
  unfold processMerge, fillRegion. rewrite originValue_app. cbv zeta.
  set (value := cellOf g (s_r m) (s_c m)).
  rewrite length_seq. generalize (mergeRows m (length g)) as rows.
  assert (Hgen : forall n rows (g0 : Grid), length g0 = n ->
    fold_left
      (fun h0 r =>
         fold_left (fun h1 c => fillCell value (seq (length h) n) r c h1)
                   (mergeCols m) h0) rows (h ++ g0)
    = h ++ fold_left
             (fun g1 r =>
                fold_left (fun g2 c => gridFillCell value r c g2)
                          (mergeCols m) g1) rows g0).
  { intros n rows. induction rows as [|r rows IH]; intros g0 Hn;
      cbn [fold_left]; [reflexivity|].
    rewrite (fold_fillCell_app value h n r (mergeCols m) g0 Hn).
    apply IH. now rewrite length_fold_gridFillCell. }
  intros rows. now apply Hgen.
Qed.

Lemma fold_processMerge_app (h : Heap) (ms : list MergeRegion) :
  forall g : Grid,
  fold_left (processMerge (seq (length h) (length g))) ms (h ++ g)
  = h ++ resolveMerges g ms.
Proof.
  induction ms as [|m ms IH]; intros g; [reflexivity|].
  unfold resolveMerges. cbn [fold_left]. rewrite processMerge_app.
  rewrite <- (length_fillRegion g m). apply IH.
Qed.

(** Merge resolution in the store is merge resolution on the grid read from
    it, written to fresh rows after the existing ones. *)
Lemma processMergedCells_eq (h : Heap) (data : list addr)
  (merges : list MergeRegion) :
  processMergedCells h data merges
  = (h ++ resolveMerges (readGrid h data) merges,
     seq (length h) (length data)).
Proof.
  unfold processMergedCells, copyRows. f_equal.
  fold (readGrid h data).
  replace (length data) with (length (readGrid h data))
    by (unfold readGrid; apply length_map).
  apply fold_processMerge_app.
Qed.

Lemma processMergedCells_result (h : Heap) (data : list addr)
  (merges : list MergeRegion) :
  readGrid (fst (processMergedCells h data merges))
           (snd (processMergedCells h data merges))
  = resolveMerges (readGrid h data) merges.
Proof.
  rewrite processMergedCells_eq. cbn [fst snd].
  replace (length data)
    with (length (resolveMerges (readGrid h data) merges)).
  - apply readGrid_app_seq.
  - rewrite length_resolveMerges. unfold readGrid. apply length_map.
Qed.

Lemma isBlank_falsy (c : Cell) : isBlank c = true -> truthy c = false.
Proof. destruct c as [| | |[|]|]; simpl; congruence. Qed.

Lemma nonOverlapping_of_bool (ms : list MergeRegion) :
  (fix go (l : list MergeRegion) : bool :=
     match l with
     | [] => true
     | m :: rest => forallb (fun m' => negb (overlapb m m')) rest && go rest
     end) ms = true -> nonOverlapping ms.
Proof.
  induction ms as [|m ms IH]; intros H; [exact I|].
  apply andb_prop in H as [H1 H2]. split; [|now apply IH].
  rewrite forallb_forall in H1. apply Forall_forall. intros m' Hin Hov.
  specialize (H1 m' Hin). apply overlapb_spec in Hov. rewrite Hov in H1.
  discriminate.
Qed.

(** C2 (amended). Merge resolution leaves every existing row of the store
    as it was and returns a grid of new rows, as many as the input has.  For
    regions that do not overlap, inside each rectangle and within the rows of
    the grid, a cell that is absent or the empty text receives the value of
    the origin cell of its region, a cell that holds a non-empty text, a
    non-zero number or a date keeps its value, and every cell outside all
    rectangles reads as before.  Rows of a rectangle below the last row of
    the grid are not created. *)
Theorem processMergedCells_spec (h : Heap) (data : list addr)
  (merges : list MergeRegion) :
  nonOverlapping merges ->
  let g := readGrid h data in
  let res := processMergedCells h data merges in
  let g' := readGrid (fst res) (snd res) in
  (forall a, a < length h -> rowOf (fst res) a = rowOf h a)
  /\ firstn (length h) (fst res) = h
  /\ Forall (fun a => length h <= a) (snd res)
  /\ length g' = length g
  /\ (forall m r c, In m merges -> inRect m r c -> r < length g ->
        (isBlank (cellOf g r c) = true ->
         cellOf g' r c = cellOf g (s_r m) (s_c m))
        /\ (truthy (cellOf g r c) = true -> cellOf g' r c = cellOf g r c))
  /\ (forall r c, (forall m, In m merges -> ~ inRect m r c) ->
        cellOf g' r c = cellOf g r c).
Proof.
  intros Hno g res g'.
  assert (Eg' : g' = resolveMerges g merges)
    by apply processMergedCells_result.
  assert (Eres : res = (h ++ resolveMerges g merges,
                        seq (length h) (length data)))
    by apply processMergedCells_eq.
  rewrite Eg', Eres. cbn [fst snd]. repeat split.
  - intros a Ha. now apply rowOf_app_l.
  - rewrite firstn_app, firstn_all, Nat.sub_diag. cbn [firstn].
    apply app_nil_r.
  - apply Forall_forall. intros a Ha. apply in_seq in Ha. lia.
  - apply length_resolveMerges.
  - intros Hb. rewrite (resolveMerges_inside merges Hno g m r c) by assumption.
    now rewrite (isBlank_falsy _ Hb).
  - intros Ht. rewrite (resolveMerges_inside merges Hno g m r c) by assumption.
    now rewrite Ht.
  - intros r c H. now apply resolveMerges_outside.
Qed.

Lemma processMergedCells_spec_witness :
  let h : Heap := [[CStr (js "a"); CUndef]; [CNull; CStr (js "b"); CStr []]] in
  let data := [0; 1] in
  let merges := [Build_MergeRegion 0 0 1 0; Build_MergeRegion 0 1 0 2] in
  let res := processMergedCells h data merges in
  nonOverlapping merges
  /\ cellOf (readGrid (fst res) (snd res)) 1 0 = CStr (js "a")
  /\ cellOf (readGrid (fst res) (snd res)) 1 1 = CStr (js "b")
  /\ firstn (length h) (fst res) = h.
Proof.
  intros h data merges res.
  assert (Hno : nonOverlapping merges)
    by (apply nonOverlapping_of_bool; reflexivity).
  destruct (processMergedCells_spec h data merges Hno)
    as (_ & Hh & _ & _ & Hin & Hout).
  split; [exact Hno|]. split; [|split; [|exact Hh]].
  - apply (Hin (Build_MergeRegion 0 0 1 0) 1 0); cbn; try reflexivity;
      auto; unfold inRect; cbn; lia.
  - apply (Hout 1 1). intros m [<-|[<-|[]]]; unfold inRect; cbn; lia.
Defined.

(** A rectangle that reaches below the grid: the absent cell of the missing
    row lies in the rectangle and does not receive the origin value. *)
Lemma processMergedCells_below_grid :
  let h : Heap := [[CStr (js "x")]] in
  let m := Build_MergeRegion 0 0 1 0 in
  let res := processMergedCells h [0] [m] in
  inRect m 1 0
  /\ isBlank (cellOf (readGrid h [0]) 1 0) = true
  /\ cellOf (readGrid (fst res) (snd res)) 1 0
     <> cellOf (readGrid h [0]) (s_r m) (s_c m).
Proof.
  cbv zeta. split; [unfold inRect; cbn; lia|]. split; [reflexivity|].
  vm_compute. discriminate.
Qed.

(** C9. For regions that do not overlap, resolving the merges of a grid that
    has already been resolved with the same regions yields the same grid. *)
Theorem processMergedCells_idempotent (h : Heap) (data : list addr)
  (merges : list MergeRegion) :
  nonOverlapping merges ->
  let res1 := processMergedCells h data merges in
  let res2 := processMergedCells (fst res1) (snd res1) merges in
  readGrid (fst res2) (snd res2) = readGrid (fst res1) (snd res1).
Proof.
  intros Hno res1 res2. unfold res2.
  rewrite processMergedCells_result. unfold res1.
  rewrite processMergedCells_result. now apply resolveMerges_idem.
Qed.

Lemma processMergedCells_idempotent_witness :
  let h : Heap := [[CStr (js "a"); CUndef]; [CNull; CStr (js "b"); CStr []]] in
  let merges := [Build_MergeRegion 0 0 1 0; Build_MergeRegion 0 1 0 2] in
  let res1 := processMergedCells h [0; 1] merges in
  let res2 := processMergedCells (fst res1) (snd res1) merges in
  nonOverlapping merges
  /\ readGrid (fst res2) (snd res2) = readGrid (fst res1) (snd res1).
Proof.
  intros h merges res1 res2.
  assert (Hno : nonOverlapping merges)
    by (apply nonOverlapping_of_bool; reflexivity).
  split; [exact Hno|].
  exact (processMergedCells_idempotent h [0; 1] merges Hno).
Defined.

(** Regions that overlap are outside the contract: resolving twice can then
    differ from resolving once. *)
Example resolveMerges_overlapping_regions :
  let g : Grid := [[CStr (js "a"); CUndef; CUndef]] in
  let merges := [Build_MergeRegion 0 1 0 2; Build_MergeRegion 0 0 0 1] in
  resolveMerges (resolveMerges g merges) merges <> resolveMerges g merges.
Proof. vm_compute. discriminate. Qed.

(** ** Decimal keys *)

Lemma isDigit_not_minus (c : N) : isDigit c = true -> c <> 45%N.
Proof.
  unfold isDigit. intros H ->. discriminate.
Qed.

Lemma uintCodes_digits (u : Decimal.uint) : forallb isDigit (uintCodes u) = true.
Proof. induction u; cbn [uintCodes forallb]; try reflexivity; exact IHu. Qed.

Lemma decFold_uintCodes_acc (u : Decimal.uint) :
  forall acc : positive,
  decFold (Npos acc) (uintCodes u) = Npos (Pos.of_uint_acc u acc).
Proof.
  unfold decFold.
  induction u; intros acc; cbn [uintCodes fold_left Pos.of_uint_acc];
    try reflexivity; rewrite <- IHu; f_equal; lia.
Qed.

Lemma decValue_uintCodes (u : Decimal.uint) :
  decValue (uintCodes u) = N.of_uint u.
Proof.
  unfold N.of_uint, decValue.
  induction u; cbn [uintCodes Pos.of_uint]; try reflexivity;
    try exact IHu;
    match goal with
    | |- _ = N.pos (Pos.of_uint_acc u ?p) =>
      rewrite <- (decFold_uintCodes_acc u p); reflexivity
    end.
Qed.

Lemma natToString_digits (n : N) : forallb isDigit (natToString n) = true.
Proof. apply uintCodes_digits. Qed.

Lemma natToString_nonempty (n : N) : natToString n <> [].
Proof.
  unfold natToString. destruct n as [|p]; [discriminate|].
  cbn [N.to_uint].
  pose proof (DecimalPos.Unsigned.to_uint_nonnil p) as H.
  destruct (Pos.to_uint p); cbn [uintCodes]; congruence.
Qed.

Lemma decValue_natToString (n : N) : decValue (natToString n) = n.
Proof.
  unfold natToString. rewrite decValue_uintCodes.
  apply DecimalN.Unsigned.of_to.
Qed.

Lemma natToString_no_minus (n : N) : ~ In 45%N (natToString n).
Proof.
  intros H. pose proof (natToString_digits n) as D.
  rewrite forallb_forall in D. specialize (D _ H). discriminate.
Qed.

Lemma intToString_nonneg (z : Z) :
  (0 <= z)%Z -> intToString z = natToString (Z.to_N z).
Proof.
  intros H. unfold intToString.
  destruct (Z.ltb_spec z 0); [lia|reflexivity].
Qed.

Lemma Number_ofString_natToString (n : N) :
  Number_ofString (natToString n) = ofZ (Z.of_N n).
Proof.
  rewrite Number_ofString_digits
    by (apply natToString_nonempty || apply natToString_digits).
  now rewrite decValue_natToString.
Qed.

Lemma splitOn_no_sep (sep : N) (s : jsstring) :
  ~ In sep s -> splitOn sep s = [s].
Proof.
  induction s as [|c s IH]; intros H; [reflexivity|]. cbn [splitOn].
  destruct (N.eqb_spec c sep) as [->|Hne]; [exfalso; apply H; now left|].
  rewrite IH; [reflexivity|]. intros Hin. apply H. now right.
Qed.

Lemma splitOn_app (sep : N) (a b : jsstring) :
  ~ In sep a -> splitOn sep (a ++ sep :: b) = a :: splitOn sep b.
Proof.
  induction a as [|c a IH]; intros H; cbn [app splitOn].
  - rewrite N.eqb_refl. reflexivity.
  - destruct (N.eqb_spec c sep) as [->|Hne]; [exfalso; apply H; now left|].
    rewrite IH; [reflexivity|]. intros Hin. apply H. now right.
Qed.

Lemma splitOn_yearMonthKey (y m : Z) :
  (0 <= y)%Z -> (0 <= m)%Z ->
  map Number_ofString (splitOn 45 (yearMonthKey y m)) = [ofZ y; ofZ m].
Proof.
  intros Hy Hm. unfold yearMonthKey.
  rewrite !intToString_nonneg by assumption.
  change (js "-") with [45%N]. cbn [app].
  rewrite splitOn_app by apply natToString_no_minus.
  rewrite splitOn_no_sep by apply natToString_no_minus.
  cbn [map]. rewrite !Number_ofString_natToString, !Z2N.id by assumption.
  reflexivity.
Qed.

Lemma ofZ_inj (a b : Z) : ofZ a = ofZ b -> a = b.
Proof. unfold ofZ, inject_Z. congruence. Qed.

Lemma yearMonthKey_inj (y m y' m' : Z) :
  (0 <= y)%Z -> (0 <= m)%Z -> (0 <= y')%Z -> (0 <= m')%Z ->
  yearMonthKey y m = yearMonthKey y' m' -> y = y' /\ m = m'.
Proof.
  intros Hy Hm Hy' Hm' E.
  pose proof (splitOn_yearMonthKey y m Hy Hm) as S.
  rewrite E, (splitOn_yearMonthKey y' m' Hy' Hm') in S.
  injection S as S1 S2. split; apply ofZ_inj; congruence.
Qed.

Lemma yearMonthKey_not_index (y m : Z) :
  (0 <= y)%Z -> isArrayIndex (yearMonthKey y m) = false.
Proof.
  intros Hy. unfold isArrayIndex.
  destruct (yearMonthKey y m) as [|c t] eqn:E; [reflexivity|].
  assert (Hin : In 45%N (c :: t)).
  { rewrite <- E. unfold yearMonthKey. apply in_or_app. right. now left. }
  destruct (forallb isDigit (c :: t)) eqn:D; [|reflexivity].
  rewrite forallb_forall in D. specialize (D _ Hin). discriminate.
Qed.

(** ** Sums of numbers *)

Lemma num_equiv_refl (a : number) : num_equiv a a.
Proof. destruct a; cbn; auto. apply Qeq_refl. Qed.

Lemma num_equiv_sym (a b : number) : num_equiv a b -> num_equiv b a.
Proof. destruct a, b; cbn; auto. apply Qeq_sym. Qed.

Lemma num_equiv_trans (a b c : number) :
  num_equiv a b -> num_equiv b c -> num_equiv a c.
Proof.
  destruct a, b, c; cbn; auto; try contradiction; try congruence.
  apply Qeq_trans.
Qed.

Lemma num_add_equiv (a a' b b' : number) :
  num_equiv a a' -> num_equiv b b' -> num_equiv (num_add a b) (num_add a' b').
Proof.
  destruct a, a', b, b'; cbn; auto; try contradiction; try congruence.
  - intros H1 H2. now rewrite H1, H2.
  - intros -> ->. destruct (Bool.eqb negative0 negative2); cbn; auto.
Qed.

Lemma num_add_swap (z x y : number) :
  num_equiv (num_add (num_add z x) y) (num_add (num_add z y) x).
Proof.
  destruct z as [|p|[|]], x as [|q|[|]], y as [|r|[|]]; cbn; auto.
  ring.
Qed.

Lemma fold_num_add_equiv (l : list number) :
  forall z z', num_equiv z z' ->
  num_equiv (fold_left num_add l z) (fold_left num_add l z').
Proof.
  induction l as [|x l IH]; intros z z' H; cbn [fold_left]; [assumption|].
  apply IH. apply num_add_equiv; [assumption|apply num_equiv_refl].
Qed.

(** The sum of a list of numbers does not depend on the order of the list. *)
Lemma fold_num_add_perm (l l' : list number) :
  Permutation l l' ->
  forall z, num_equiv (fold_left num_add l z) (fold_left num_add l' z).
Proof.
  induction 1 as [|x l l' _ IH|x y l|l l' l'' _ IH1 _ IH2]; intros z;
    cbn [fold_left].
  - apply num_equiv_refl.
  - apply IH.
  - apply fold_num_add_equiv. apply num_add_swap.
  - eapply num_equiv_trans; [apply IH1|apply IH2].
Qed.

(** ** Aggregation *)

Lemma ym_eqb_eq (a b : YM) : ym_eqb a b = true <-> a = b.
Proof.
  destruct a as [y m], b as [y' m']. unfold ym_eqb. cbn [fst snd].
  rewrite andb_true_iff, !Z.eqb_eq. split; [intros [-> ->]|intros [= -> ->]];
    auto.
Qed.

Lemma ym_eqb_refl (a : YM) : ym_eqb a a = true.
Proof. now apply ym_eqb_eq. Qed.

Lemma ym_eqb_neq (a b : YM) : ym_eqb a b = false <-> a <> b.
Proof.
  destruct (ym_eqb a b) eqn:E.
  - apply ym_eqb_eq in E. split; congruence.
  - split; [|reflexivity]. intros _ H. apply ym_eqb_eq in H. congruence.
Qed.

Lemma existsb_ym (k : YM) (ks : list YM) :
  existsb (ym_eqb k) ks = true <-> In k ks.
Proof.
  rewrite existsb_exists. split.
  - intros (x & Hin & E). apply ym_eqb_eq in E. now subst.
  - intros H. exists k. split; [assumption|apply ym_eqb_refl].
Qed.

Lemma keyStr_eqb (a b : YM) :
  nonNegative a -> nonNegative b ->
  jsstring_eqb (keyStr a) (keyStr b) = ym_eqb a b.
Proof.
  intros [Ha1 Ha2] [Hb1 Hb2].
  destruct (ym_eqb a b) eqn:E.
  - apply ym_eqb_eq in E. subst. now apply jsstring_eqb_eq.
  - destruct (jsstring_eqb (keyStr a) (keyStr b)) eqn:F; [|reflexivity].
    apply jsstring_eqb_eq in F. unfold keyStr in F.
    apply yearMonthKey_inj in F; try assumption.
    apply ym_eqb_neq in E. destruct a, b, F. cbn [fst snd] in *. congruence.
Qed.

Section Grouping.

Variable V : Type.
Variable f : YM -> V.

Let G (ks : list YM) : JsObject V := map (fun k => (keyStr k, f k)) ks.

Lemma objGet_keys (ks : list YM) (k0 : YM) :
  Forall nonNegative ks -> nonNegative k0 ->
  objGet (G ks) (keyStr k0) = if existsb (ym_eqb k0) ks then Some (f k0) else None.
Proof.
  intros Hks Hk0. induction Hks as [|k ks Hk Hks IH]; [reflexivity|].
  cbn [G map objGet existsb]. rewrite (keyStr_eqb k0 k Hk0 Hk).
  destruct (ym_eqb k0 k) eqn:E; cbn [orb].
  - apply ym_eqb_eq in E. now subst.
  - exact IH.
Qed.

Lemma objSet_keys_absent (ks : list YM) (k0 : YM) (v : V) :
  Forall nonNegative ks -> nonNegative k0 -> ~ In k0 ks ->
  objSet (G ks) (keyStr k0) v = G ks ++ [(keyStr k0, v)].
Proof.
  intros Hks Hk0. induction Hks as [|k ks Hk Hks IH]; intros Hnin;
    [reflexivity|].
  cbn [G map objSet app]. rewrite (keyStr_eqb k0 k Hk0 Hk).
  destruct (ym_eqb k0 k) eqn:E.
  - apply ym_eqb_eq in E. subst. exfalso. apply Hnin. now left.
  - f_equal. apply IH. intros Hin. apply Hnin. now right.
Qed.

Lemma objSet_keys_present (ks : list YM) (k0 : YM) (v : V) :
  Forall nonNegative ks -> nonNegative k0 -> NoDup ks -> In k0 ks ->
  objSet (G ks) (keyStr k0) v
  = map (fun k => (keyStr k, if ym_eqb k0 k then v else f k)) ks.
Proof.
  intros Hks Hk0. induction Hks as [|k ks Hk Hks IH]; intros Hnd Hin;
    [contradiction|].
  inversion Hnd as [|? ? Hnotin Hnd']; subst.
  cbn [G map objSet]. rewrite (keyStr_eqb k0 k Hk0 Hk).
  destruct (ym_eqb k0 k) eqn:E.
  - apply ym_eqb_eq in E. subst k. f_equal.
    apply map_ext_in. intros k' Hk'.
    destruct (ym_eqb k0 k') eqn:E'; [|reflexivity].
    apply ym_eqb_eq in E'. subst. contradiction.
  - f_equal. apply IH; [assumption|].
    destruct Hin as [->|Hin]; [|assumption].
    rewrite ym_eqb_refl in E. discriminate.
Qed.

End Grouping.

Lemma objGet_app_absent {V} (o : JsObject V) (k : jsstring) (v : V) :
  objGet o k = None -> objGet (o ++ [(k, v)]) k = Some v.
Proof.
  induction o as [|[k' v'] o IH]; cbn [app objGet]; intros H.
  - now rewrite (proj2 (jsstring_eqb_eq k k) eq_refl).
  - destruct (jsstring_eqb k k'); [discriminate|]. now apply IH.
Qed.

Lemma objSet_app_absent {V} (o : JsObject V) (k : jsstring) (v w : V) :
  objGet o k = None -> objSet (o ++ [(k, v)]) k w = o ++ [(k, w)].
Proof.
  induction o as [|[k' v'] o IH]; cbn [app objGet objSet]; intros H.
  - now rewrite (proj2 (jsstring_eqb_eq k k) eq_refl).
  - destruct (jsstring_eqb k k'); [discriminate|]. f_equal. now apply IH.
Qed.

Lemma recordsOf_snoc (k : YM) (pre : list MonthlyData) (item : MonthlyData) :
  recordsOf k (pre ++ [item])
  = recordsOf k pre ++ (if ym_eqb (keyOf item) k then [item] else []).
Proof. unfold recordsOf. rewrite filter_app. reflexivity. Qed.

Lemma recordsOf_none (k : YM) (pre : list MonthlyData) :
  (forall item, In item pre -> keyOf item <> k) -> recordsOf k pre = [].
Proof.
  intros H. unfold recordsOf. induction pre as [|it pre IH]; [reflexivity|].
  cbn [filter]. rewrite (proj2 (ym_eqb_neq (keyOf it) k)) by (apply H; now left).
  apply IH. intros item Hin. apply H. now right.
Qed.

Lemma groupStep_groupsOf (ks : list YM) (pre : list MonthlyData)
  (item : MonthlyData) :
  Forall nonNegative ks -> NoDup ks -> nonNegative (keyOf item) ->
  (forall it, In it pre -> In (keyOf it) ks) ->
  groupStep (groupsOf ks pre) item
  = groupsOf (addKey ks (keyOf item)) (pre ++ [item]).
Proof.
  intros Hks Hnd Hk Hpre. unfold groupStep, addKey.
  change (yearMonthKey (year item) (month item)) with (keyStr (keyOf item)).
  cbv zeta.
  set (k0 := keyOf item) in *. unfold groupsOf.
  pose proof (objGet_keys _ (fun k => recordsOf k pre) ks k0 Hks Hk) as Hget.
  cbv beta in Hget. rewrite !Hget.
  destruct (existsb (ym_eqb k0) ks) eqn:E.
  - rewrite Hget. apply existsb_ym in E.
    rewrite (objSet_keys_present _ (fun k => recordsOf k pre) ks k0 _ Hks Hk Hnd E).
    apply map_ext_in. intros k Hin. f_equal.
    rewrite recordsOf_snoc. fold k0.
    destruct (ym_eqb k0 k) eqn:E'.
    + apply ym_eqb_eq in E'. now subst.
    + now rewrite app_nil_r.
  - assert (Hnin : ~ In k0 ks).
    { intros Hin. apply existsb_ym in Hin. congruence. }
    rewrite (objSet_keys_absent _ (fun k => recordsOf k pre) ks k0 [] Hks Hk Hnin).
    rewrite (objGet_app_absent _ _ _ Hget), (objSet_app_absent _ _ _ _ Hget).
    rewrite map_app. cbn [map app]. f_equal.
    + apply map_ext_in. intros k Hin. f_equal. rewrite recordsOf_snoc.
      fold k0. rewrite (proj2 (ym_eqb_neq k0 k)); [now rewrite app_nil_r|].
      intros ->. contradiction.
    + f_equal. f_equal. rewrite recordsOf_snoc. fold k0.
      rewrite ym_eqb_refl, recordsOf_none; [reflexivity|].
      intros it Hin E'. apply Hnin. rewrite <- E'. now apply Hpre.
Qed.

Lemma addKey_props (ks : list YM) (k : YM) :
  Forall nonNegative ks -> NoDup ks -> nonNegative k ->
  Forall nonNegative (addKey ks k) /\ NoDup (addKey ks k)
  /\ (forall k', In k' (addKey ks k) <-> In k' ks \/ k' = k).
Proof.
  intros Hks Hnd Hk. unfold addKey.
  destruct (existsb (ym_eqb k) ks) eqn:E.
  - apply existsb_ym in E. repeat split; auto.
    intros [H| ->]; assumption.
  - assert (Hnin : ~ In k ks).
    { intros Hin. apply existsb_ym in Hin. congruence. }
    repeat split.
    + apply Forall_app. split; [assumption|]. now constructor.
    + apply NoDup_app; [assumption|now repeat constructor|].
      intros x Hin [->|[]]. contradiction.
    + intros H. apply in_app_or in H as [H|[->|[]]]; auto.
    + intros [H| ->]; apply in_or_app; [now left|right; now left].
Qed.

Lemma groupBy_fold (rest : list MonthlyData) :
  forall (ks : list YM) (pre : list MonthlyData),
  Forall nonNegative ks -> NoDup ks ->
  (forall it, In it pre -> In (keyOf it) ks) ->
  Forall (fun it => nonNegative (keyOf it)) rest ->
  let ks' := fold_left (fun ks item => addKey ks (keyOf item)) rest ks in
  fold_left groupStep rest (groupsOf ks pre) = groupsOf ks' (pre ++ rest)
  /\ Forall nonNegative ks' /\ NoDup ks'
  /\ (forall k, In k ks' <->
        In k ks \/ exists it, In it rest /\ keyOf it = k).
Proof.
  induction rest as [|item rest IH]; intros ks pre Hks Hnd Hpre Hrest;
    cbn zeta; cbn [fold_left].
  - rewrite app_nil_r. repeat split; auto.
    intros [H|(it & [] & _)]. assumption.
  - inversion Hrest as [|? ? Hitem Hrest']; subst.
    rewrite groupStep_groupsOf by assumption.
    destruct (addKey_props ks (keyOf item) Hks Hnd Hitem) as (A1 & A2 & A3).
    destruct (IH (addKey ks (keyOf item)) (pre ++ [item]) A1 A2) as (B1 & B2 & B3 & B4).
    + intros it Hin. apply A3. apply in_app_or in Hin as [Hin|[->|[]]]; auto.
    + assumption.
    + rewrite <- app_assoc in B1. cbn [app] in B1.
      repeat split; try assumption.
      * intros H. apply B4 in H as [H|(it & Hin & E)].
        -- apply A3 in H as [H| ->]; [now left|].
           right. exists item. split; [now left|reflexivity].
        -- right. exists it. split; [now right|assumption].
      * intros [H|(it & [->|Hin] & E)]; apply B4.
        -- left. apply A3. now left.
        -- left. apply A3. now right.
        -- right. now exists it.
Qed.

Lemma groupByYearMonth_spec (data : list MonthlyData) :
  Forall (fun it => nonNegative (keyOf it)) data ->
  groupByYearMonth data = groupsOf (keysOf data) data
  /\ Forall nonNegative (keysOf data) /\ NoDup (keysOf data)
  /\ (forall k, In k (keysOf data) <-> exists it, In it data /\ keyOf it = k).
Proof.
  intros H.
  destruct (groupBy_fold data [] [] ltac:(constructor) ltac:(constructor))
    as (A & B & C & D).
  - intros it [].
  - assumption.
  - cbn [app] in A. repeat split; try assumption.
    + intros Hin. apply D in Hin as [[]|Hin]. assumption.
    + intros Hin. apply D. now right.
Qed.

Lemma Object_entries_groupsOf (ks : list YM) (data : list MonthlyData) :
  Forall nonNegative ks ->
  Object_entries (groupsOf ks data) = groupsOf ks data.
Proof.
  intros H. unfold Object_entries.
  assert (E : forall e, In e (groupsOf ks data) -> isArrayIndex (fst e) = false).
  { intros e Hin. unfold groupsOf in Hin. apply in_map_iff in Hin as (k & <- & Hk).
    rewrite Forall_forall in H. apply yearMonthKey_not_index. now apply H. }
  induction (groupsOf ks data) as [|e l IH]; [reflexivity|].
  cbn [filter]. rewrite (E e) by now left. cbn [negb].
  specialize (IH (fun e' Hin => E e' (or_intror Hin))).
  destruct (filter _ l) eqn:F in IH |- *.
  - cbn [fold_right app] in *. now f_equal.
  - exfalso.
    assert (Hin : In p (filter (fun e0 => isArrayIndex (fst e0)) l))
      by (rewrite F; now left).
    apply filter_In in Hin as [Hin Ht]. rewrite E in Ht by now right.
    discriminate.
Qed.

Lemma addGroup_fold (data : list MonthlyData) (ks : list YM) :
  Forall nonNegative ks ->
  forall (acc : list MonthlyTotal) (ye yt : number),
  fold_left addGroup (groupsOf ks data) (acc, ye, yt)
  = (acc ++ map (totalOf data) ks,
     fold_left (fun s k => num_add s (mt_taxExempt (totalOf data k))) ks ye,
     fold_left (fun s k => num_add s (mt_taxable (totalOf data k))) ks yt).
Proof.
  intros H. induction H as [|k ks Hk Hks IH]; intros acc ye yt.
  - cbn [groupsOf map fold_left]. now rewrite app_nil_r.
  - cbn [groupsOf map fold_left]. fold (groupsOf ks data).
    unfold addGroup at 2. unfold keyStr.
    destruct Hk as [Hy Hm].
    rewrite (splitOn_yearMonthKey _ _ Hy Hm). cbn [nth].
    rewrite IH. rewrite <- app_assoc. reflexivity.
Qed.

Lemma num_pos_sub_ofZ (a b : Z) :
  num_pos (num_sub (ofZ a) (ofZ b)) = (b <? a)%Z.
Proof.
  unfold num_sub, ofZ, num_neg, num_add, num_pos, inject_Z, Qopp, Qplus.
  cbn [Qnum Qden].
  destruct (Z.ltb_spec 0 (a * 1 + - b * 1)), (Z.ltb_spec b a);
    try reflexivity; lia.
Qed.

Lemma num_strict_eq_ofZ (a b : Z) :
  num_strict_eq (ofZ a) (ofZ b) = (a =? b)%Z.
Proof.
  unfold num_strict_eq, ofZ, inject_Z, Qeq_bool. cbn [Qnum Qden].
  destruct (Z.eqb_spec (a * 1) (b * 1)), (Z.eqb_spec a b);
    try reflexivity; lia.
Qed.

Lemma byYearMonth_totalOf (data : list MonthlyData) (a b : YM) :
  num_pos (byYearMonth (totalOf data a) (totalOf data b)) = ym_gtb a b.
Proof.
  unfold byYearMonth, ym_gtb, totalOf. cbn [mt_year mt_month].
  rewrite num_strict_eq_ofZ.
  destruct (Z.eqb_spec (fst a) (fst b)) as [E|E]; cbn [negb andb].
  - rewrite num_pos_sub_ofZ, E.
    destruct (Z.ltb_spec (fst b) (fst b)); [lia|reflexivity].
  - rewrite num_pos_sub_ofZ. now rewrite orb_false_r.
Qed.

Lemma Array_sort_map {A} (cmp : A -> A -> number) (f : YM -> A)
  (l : list YM) :
  (forall a b, num_pos (cmp (f a) (f b)) = ym_gtb a b) ->
  Array_sort cmp (map f l) = map f (sortKeys l).
Proof.
  intros H. unfold Array_sort, sortKeys.
  induction l as [|k l IH]; [reflexivity|].
  cbn [map fold_right]. rewrite IH.
  generalize (fold_right insertKey [] l) as s. intros s.
  induction s as [|k' s IHs]; [reflexivity|].
  cbn [map sortInsert insertKey]. rewrite H.
  destruct (ym_gtb k k'); cbn [map]; [now rewrite IHs|reflexivity].
Qed.

Lemma insertKey_perm (k : YM) (l : list YM) :
  Permutation (insertKey k l) (k :: l).
Proof.
  induction l as [|k' l IH]; cbn [insertKey]; [reflexivity|].
  destruct (ym_gtb k k'); [|reflexivity].
  rewrite IH. apply perm_swap.
Qed.

Lemma sortKeys_perm (l : list YM) : Permutation (sortKeys l) l.
Proof.
  unfold sortKeys. induction l as [|k l IH]; cbn [fold_right]; [reflexivity|].
  rewrite insertKey_perm. now constructor.
Qed.

Lemma ym_le_trans (a b c : YM) : ym_le a b -> ym_le b c -> ym_le a c.
Proof.
  unfold ym_le, ym_gtb. destruct a, b, c. cbn [fst snd].
  rewrite !orb_false_iff, !andb_false_iff, !Z.ltb_ge, !Z.eqb_neq. lia.
Qed.

Lemma ym_le_total (a b : YM) : ym_gtb a b = true -> ym_le b a.
Proof.
  unfold ym_le, ym_gtb. destruct a, b. cbn [fst snd].
  rewrite orb_true_iff, andb_true_iff, !Z.ltb_lt, Z.eqb_eq.
  rewrite !orb_false_iff, !andb_false_iff, !Z.ltb_ge, !Z.eqb_neq. lia.
Qed.

Lemma ym_le_neq_lt (a b : YM) : ym_le a b -> a <> b -> ym_lt a b.
Proof.
  unfold ym_le, ym_gtb, ym_lt. destruct a as [y m], b as [y' m'].
  cbn [fst snd].
  rewrite !orb_false_iff, !andb_false_iff, !Z.ltb_ge, !Z.eqb_neq.
  intros H Hne.
  assert (y <> y' \/ m <> m') by (destruct (Z.eq_dec y y'); [right|left]; congruence).
  lia.
Qed.

Lemma insertKey_sorted (k : YM) (l : list YM) :
  StronglySorted ym_le l -> StronglySorted ym_le (insertKey k l).
Proof.
  induction l as [|k' l IH]; intros Hs; cbn [insertKey].
  - repeat constructor.
  - inversion Hs as [|? ? Hs' Hall]; subst.
    destruct (ym_gtb k k') eqn:E.
    + constructor; [now apply IH|].
      apply ym_le_total in E.
      eapply Permutation_Forall; [symmetry; apply insertKey_perm|].
      now constructor.
    + constructor; [assumption|]. constructor; [exact E|].
      eapply Forall_impl; [|exact Hall]. intros c Hc.
      exact (ym_le_trans _ _ _ E Hc).
Qed.

Lemma sortKeys_sorted (l : list YM) :
  NoDup l -> StronglySorted ym_lt (sortKeys l).
Proof.
  intros Hnd.
  assert (Hle : StronglySorted ym_le (sortKeys l)).
  { unfold sortKeys. induction l as [|k l IH]; cbn [fold_right].
    - constructor.
    - inversion Hnd; subst. apply insertKey_sorted. now apply IH. }
  assert (Hnd' : NoDup (sortKeys l)).
  { eapply Permutation_NoDup; [|exact Hnd]. symmetry. apply sortKeys_perm. }
  induction Hle as [|a s Hs IH Hall]; [constructor|].
  inversion Hnd' as [|? ? Hnin Hnd'']; subst.
  constructor; [now apply IH|].
  rewrite Forall_forall in *. intros b Hb.
  apply ym_le_neq_lt; [now apply Hall|]. intros ->. contradiction.
Qed.

Lemma calculateTotals_eq (mallData : ShoppingMallData) :
  Forall (fun it => nonNegative (keyOf it)) (data mallData) ->
  let ks := keysOf (data mallData) in
  let d := data mallData in
  calculateTotals mallData
  = {| cr_mallName := mallName mallData;
       monthlyTotals := map (totalOf d) (sortKeys ks);
       yearlyTotal :=
         let e := fold_left (fun s k => num_add s (mt_taxExempt (totalOf d k)))
                            ks (Fin 0) in
         let t := fold_left (fun s k => num_add s (mt_taxable (totalOf d k)))
                            ks (Fin 0) in
         {| yt_taxExempt := e; yt_taxable := t; yt_total := num_add e t |} |}.
Proof.
  intros H. cbv zeta. unfold calculateTotals.
  destruct (groupByYearMonth_spec _ H) as (Hg & Hnn & _ & _).
  rewrite Hg, (Object_entries_groupsOf _ _ Hnn), (addGroup_fold _ _ Hnn).
  cbn [app].
  rewrite (Array_sort_map byYearMonth (totalOf (data mallData)) _
             (byYearMonth_totalOf (data mallData))).
  reflexivity.
Qed.

Lemma fold_left_map_num {A} (f : A -> number) (l : list A) (z : number) :
  fold_left (fun s k => num_add s (f k)) l z
  = fold_left (fun s g => num_add s g) (map f l) z.
Proof.
  revert z. induction l as [|a l IH]; intros z; [reflexivity|].
  cbn [map fold_left]. apply IH.
Qed.




(** ** Tax-type classification *)

Lemma jsstring_eqb_refl (k : jsstring) : jsstring_eqb k k = true.
Proof. now apply jsstring_eqb_eq. Qed.

Lemma jsstring_eqb_neq (a b : jsstring) : a <> b -> jsstring_eqb a b = false.
Proof.
  intros H. destruct (jsstring_eqb a b) eqn:E; [|reflexivity].
  apply jsstring_eqb_eq in E. contradiction.
Qed.

Lemma objGet_objSet_same {V} (o : JsObject V) (k : jsstring) (v : V) :
  objGet (objSet o k v) k = Some v.
Proof.
  induction o as [|[k' v'] o IH]; cbn [objSet objGet].
  - now rewrite jsstring_eqb_refl.
  - destruct (jsstring_eqb k k') eqn:E; cbn [objGet]; rewrite E;
      [reflexivity|exact IH].
Qed.

Lemma objGet_objSet_other {V} (o : JsObject V) (k k' : jsstring) (v : V) :
  k' <> k -> objGet (objSet o k v) k' = objGet o k'.
Proof.
  intros Hne. induction o as [|[k0 v0] o IH]; cbn [objSet objGet].
  - now rewrite (jsstring_eqb_neq _ _ Hne).
  - destruct (jsstring_eqb k k0) eqn:E; cbn [objGet].
    + apply jsstring_eqb_eq in E. subst k0.
      now rewrite (jsstring_eqb_neq _ _ Hne).
    + destruct (jsstring_eqb k' k0); [reflexivity|exact IH].
Qed.

Lemma app_sep_inj (sep : N) (a a' b b' : jsstring) :
  ~ In sep a -> ~ In sep a' ->
  a ++ sep :: b = a' ++ sep :: b' -> a = a' /\ b = b'.
Proof.
  revert a'. induction a as [|c a IH]; intros [|c' a'] Ha Ha' E;
    cbn [app] in E.
  - injection E as ->. auto.
  - injection E as -> _. exfalso. apply Ha'. now left.
  - injection E as -> _. exfalso. apply Ha. now left.
  - injection E as -> E.
    destruct (IH a') as [-> ->]; auto.
    + intros H. apply Ha. now right.
    + intros H. apply Ha'. now right.
Qed.

Lemma natToString_inj (a b : N) : natToString a = natToString b -> a = b.
Proof.
  intros E. rewrite <- (decValue_natToString a), <- (decValue_natToString b).
  now rewrite E.
Qed.

Lemma natToString_head (n : N) :
  exists c s, natToString n = c :: s /\ isDigit c = true.
Proof.
  pose proof (natToString_nonempty n) as Hne.
  pose proof (natToString_digits n) as Hd.
  destruct (natToString n) as [|c s]; [congruence|].
  exists c, s. split; [reflexivity|].
  cbn [forallb] in Hd. now apply andb_prop in Hd.
Qed.

Lemma intToString_inj (a b : Z) : intToString a = intToString b -> a = b.
Proof.
  unfold intToString.
  destruct (Z.ltb_spec a 0) as [Ha|Ha], (Z.ltb_spec b 0) as [Hb|Hb]; intros E.
  - injection E as E. apply natToString_inj in E. lia.
  - destruct (natToString_head (Z.to_N b)) as (c & s & Hs & Hc).
    rewrite Hs in E. injection E as <- _. discriminate.
  - destruct (natToString_head (Z.to_N a)) as (c & s & Hs & Hc).
    rewrite Hs in E. injection E as -> _. discriminate.
  - apply natToString_inj in E. lia.
Qed.

(** Two keys are equal exactly when the year and the month are. *)
Lemma yearMonthKey_inj_Z (y m y' m' : Z) :
  yearMonthKey y m = yearMonthKey y' m' -> y = y' /\ m = m'.
Proof.
  unfold yearMonthKey. change (js "-") with [45%N]. cbn [app].
  intros E.
  assert (Hgen : intToString y = intToString y'
                 /\ intToString m = intToString m').
  { unfold intToString at 1 3 in E. unfold intToString at 1 2.
    destruct (Z.ltb_spec y 0) as [Hy|Hy], (Z.ltb_spec y' 0) as [Hy'|Hy'].
    - cbn [app] in E. injection E as E.
      apply app_sep_inj in E as [E1 E2];
        try apply natToString_no_minus. now rewrite E1.
    - destruct (natToString_head (Z.to_N y')) as (c & s & Hs & Hc).
      rewrite Hs in E. cbn [app] in E. injection E as <- _. discriminate.
    - destruct (natToString_head (Z.to_N y)) as (c & s & Hs & Hc).
      rewrite Hs in E. cbn [app] in E. injection E as -> _. discriminate.
    - apply app_sep_inj in E as [E1 E2];
        try apply natToString_no_minus. now rewrite E1. }
  destruct Hgen as [E1 E2]. split; now apply intToString_inj.
Qed.

Lemma dateKey_same_month (RT : Runtime) (d d' : Z) :
  dateKey RT d' = dateKey RT d <->
  getFullYear RT d' = getFullYear RT d /\ getMonth RT d' = getMonth RT d.
Proof.
  unfold dateKey. split.
  - intros E. apply (yearMonthKey_inj_Z _ _ _ _) in E. lia.
  - intros [-> ->]. reflexivity.
Qed.

Lemma fold_amounts (row : RowObject) (cols : list jsstring) :
  forall z : number,
  fold_left
    (fun sum colName =>
       let colValue := parseAmount (getProp row colName) in
       num_add sum (if isNaN colValue then Fin 0 else colValue)) cols z
  = fold_left
      (fun sum colName => num_add sum (parseAmount (getProp row colName)))
      cols z.
Proof.
  induction cols as [|x cols IH]; intros z; [reflexivity|].
  cbn [fold_left]. cbv zeta. rewrite parseAmount_not_NaN. apply IH.
Qed.

Lemma rowAmount_sum (options : ProcessingOptions) (row : RowObject) :
  rowAmount options row
  = match useMultiColumnSum options, amountColumns options with
    | true, Some (c :: cs) => amountColumnsSum row (c :: cs)
    | _, _ =>
      parseAmount (getProp row (orElse (amountColumn options) (js "금액")))
    end.
Proof.
  unfold rowAmount, amountColumnsSum.
  destruct (useMultiColumnSum options); [|reflexivity].
  destruct (amountColumns options) as [[|c cs]|]; try reflexivity.
  apply fold_amounts.
Qed.

Section TaxType.

Variable RT : Runtime.
Variable parseDateText : jsstring -> option Z.
Variable options : ProcessingOptions.

(** A row with a date and a usable amount is added to the running total of
    its month, on the tax-exempt side when a tax-exempt keyword matches and
    on the taxable side otherwise; no other month changes. *)
Lemma taxTypeRow_accumulates (groups : JsObject DateGroup) (row : RowObject)
  (date : Z) :
  let dateValue := getProp row (orElse (dateColumn options) (js "날짜")) in
  isSummaryRow RT dateValue = false ->
  parseDate parseDateText dateValue = Some date ->
  let amount := rowAmount options row in
  let taxType := taxTypeOf RT options row in
  let key := dateKey RT date in
  let old := totalsBefore groups key date in
  let groups' := taxTypeRow RT parseDateText options groups row in
  isNaN amount = false -> num_is_zero amount = false ->
  objGet groups' key
  = Some (if matchesAny RT taxType (exemptValuesOf options)
          then {| dg_date := dg_date old;
                  dg_taxExempt := num_add (dg_taxExempt old) amount;
                  dg_taxable := dg_taxable old |}
          else {| dg_date := dg_date old;
                  dg_taxExempt := dg_taxExempt old;
                  dg_taxable := num_add (dg_taxable old) amount |})
  /\ forall k, k <> key -> objGet groups' k = objGet groups k.
Proof.
  intros dateValue Hsum Hdate amount taxType key old groups' Hnan Hzero.
  unfold groups', taxTypeRow. fold dateValue. rewrite Hsum, Hdate.
  fold amount. rewrite Hnan, Hzero. cbn [orb]. fold key. fold taxType.
  unfold old, totalsBefore.
  destruct (objGet groups key) as [entry|] eqn:G.
  - rewrite G. split.
    + rewrite objGet_objSet_same.
      now destruct (matchesAny RT taxType (exemptValuesOf options)),
                   (matchesAny RT taxType (taxableValuesOf options)).
    + intros k Hk. now rewrite objGet_objSet_other.
  - rewrite objGet_objSet_same. split.
    + rewrite objGet_objSet_same. cbn [dg_date dg_taxExempt dg_taxable].
      now destruct (matchesAny RT taxType (exemptValuesOf options)),
                   (matchesAny RT taxType (taxableValuesOf options)).
    + intros k Hk. now rewrite !objGet_objSet_other.
Qed.

Lemma taxTypeRow_skips (groups : JsObject DateGroup) (row : RowObject) :
  isNaN (rowAmount options row) = true
  \/ num_is_zero (rowAmount options row) = true ->
  taxTypeRow RT parseDateText options groups row = groups.
Proof.
  intros H. unfold taxTypeRow.
  destruct (isSummaryRow RT _); [reflexivity|].
  destruct (parseDate parseDateText _); [|reflexivity].
  destruct H as [-> | ->]; [reflexivity|now rewrite orb_true_r].
Qed.

End TaxType.





(** ** Column validation *)

Section ValidationFacts.

Variable RT : Runtime.
Variable parseDateText : jsstring -> option Z.
Variable availableColumns : list jsstring.

Lemma matchColumn_missing (label name : jsstring) (missing : list jsstring) :
  snd (matchColumn RT availableColumns label (Some name) missing)
  = missing
    ++ map describeRequired
         (filter (unmatched RT availableColumns) [(label, Some name)]).
Proof.
  unfold matchColumn, unmatched. cbn [filter snd].
  destruct (foundColumn RT availableColumns name); cbn [snd map];
    [now rewrite app_nil_r|reflexivity].
Qed.

Lemma matchAmountColumns_missing (l : list jsstring) :
  forall (updated missing : list jsstring),
  snd (fold_left
         (fun acc colName =>
            let '(updated, missing) := acc in
            match foundColumn RT availableColumns colName with
            | Some matched => (updated ++ [matched], missing)
            | None =>
              (updated,
               missing ++ [describeColumn (js "금액 컬럼") colName])
            end) l (updated, missing))
  = missing
    ++ map describeRequired
         (filter (unmatched RT availableColumns)
                 (map (fun n => (js "금액 컬럼", Some n)) l)).
Proof.
  induction l as [|n l IH]; intros updated missing; cbn [fold_left map filter].
  - now rewrite app_nil_r.
  - unfold unmatched at 1. cbn [snd].
    destruct (foundColumn RT availableColumns n); rewrite IH.
    + reflexivity.
    + cbn [map]. now rewrite <- app_assoc.
Qed.

Lemma unset_false (name : option jsstring) :
  unset name = false -> exists s, name = Some s.
Proof. destruct name as [s|]; [eauto|discriminate]. Qed.

Lemma describe_filter_cons (c : jsstring * option jsstring)
  (l : list (jsstring * option jsstring)) :
  map describeRequired (filter (unmatched RT availableColumns) (c :: l))
  = map describeRequired (filter (unmatched RT availableColumns) [c])
    ++ map describeRequired (filter (unmatched RT availableColumns) l).
Proof.
  change (c :: l) with ([c] ++ l). now rewrite filter_app, map_app.
Qed.

Lemma matchColumns_missing (options : ProcessingOptions) :
  configured options = true ->
  snd (matchColumns RT availableColumns options)
  = map describeRequired
      (filter (unmatched RT availableColumns) (requiredColumns options)).
Proof.
  unfold configured, matchColumns, requiredColumns.
  rewrite andb_true_iff, negb_true_iff. intros [Hd H].
  destruct (unset_false _ Hd) as [dc ->].
  rewrite describe_filter_cons.
  pose proof (matchColumn_missing (js "날짜 컬럼") dc []) as M0.
  destruct (matchColumn RT availableColumns (js "날짜 컬럼") (Some dc) [])
    as [dateCol m0]. cbn [snd app] in M0. subst m0.
  destruct (useTaxTypeClassification options).
  - rewrite andb_true_iff, negb_true_iff in H. destruct H as [Ht H].
    destruct (unset_false _ Ht) as [tc ->].
    rewrite (describe_filter_cons (js "과세유형 컬럼", Some tc)).
    match goal with
    | |- context [matchColumn RT availableColumns ?l (Some tc) ?m] =>
      pose proof (matchColumn_missing l tc m) as M1;
      destruct (matchColumn RT availableColumns l (Some tc) m)
        as [taxTypeCol m1]
    end.
    cbn [snd] in M1. subst m1.
    destruct (useMultiColumnSum options).
    + destruct (amountColumns options) as [[|c cs]|]; try discriminate.
      match goal with
      | |- context [fold_left ?f ?l (?u, ?m)] =>
        pose proof (matchAmountColumns_missing l u m) as M2;
        destruct (fold_left f l (u, m)) as [upd m2]
      end.
      cbn [snd] in *. subst m2. now rewrite app_assoc.
    + rewrite negb_true_iff in H. destruct (unset_false _ H) as [ac ->].
      match goal with
      | |- context [matchColumn RT availableColumns ?l (Some ac) ?m] =>
        pose proof (matchColumn_missing l ac m) as M2;
        destruct (matchColumn RT availableColumns l (Some ac) m)
          as [amountCol m2]
      end.
      cbn [snd] in *. subst m2. now rewrite app_assoc.
  - rewrite andb_true_iff, !negb_true_iff in H. destruct H as [He Hx].
    destruct (unset_false _ He) as [ec ->].
    destruct (unset_false _ Hx) as [xc ->].
    rewrite (describe_filter_cons (js "면세금액 컬럼", Some ec)).
    match goal with
    | |- context [matchColumn RT availableColumns ?l (Some ec) ?m] =>
      pose proof (matchColumn_missing l ec m) as M1;
      destruct (matchColumn RT availableColumns l (Some ec) m)
        as [taxExemptCol m1]
    end.
    cbn [snd] in M1. subst m1.
    match goal with
    | |- context [matchColumn RT availableColumns ?l (Some xc) ?m] =>
      pose proof (matchColumn_missing l xc m) as M2;
      destruct (matchColumn RT availableColumns l (Some xc) m)
        as [taxableCol m2]
    end.
    cbn [snd] in *. subst m2. now rewrite app_assoc.
Qed.

Lemma checkConfigured_configured (options : ProcessingOptions) :
  checkConfigured options = None <-> configured options = true.
Proof.
  unfold checkConfigured, configured.
  destruct (unset (dateColumn options)); cbn [negb andb];
    [split; discriminate|].
  destruct (useTaxTypeClassification options).
  - destruct (unset (taxTypeColumn options)); cbn [negb andb];
      [split; discriminate|].
    destruct (useMultiColumnSum options).
    + destruct (amountColumns options) as [[|c cs]|]; split;
        try discriminate; reflexivity.
    + destruct (unset (amountColumn options)); cbn [negb]; split;
        try discriminate; reflexivity.
  - destruct (unset (taxExemptColumn options)),
      (unset (taxableColumn options)); cbn [negb andb orb]; split;
      try discriminate; reflexivity.
Qed.

End ValidationFacts.

Lemma startsWith_app (x b : jsstring) : startsWith (x ++ b) x = true.
Proof.
  induction x as [|c x IH]; [reflexivity|].
  cbn [app startsWith]. now rewrite N.eqb_refl.
Qed.

Lemma includes_app (a x b : jsstring) : includes (a ++ x ++ b) x = true.
Proof.
  induction a as [|c a IH]; cbn [app].
  - destruct (x ++ b) eqn:E; cbn [includes]; rewrite <- E, startsWith_app;
      reflexivity.
  - cbn [includes]. rewrite IH. apply orb_true_r.
Qed.

Lemma includes_join (sep x : jsstring) (l : list jsstring) :
  In x l -> exists a b, join sep l = a ++ x ++ b.
Proof.
  induction l as [|p l IH]; intros Hin; [contradiction|].
  destruct Hin as [->|Hin].
  - exists []. destruct l as [|q l].
    + exists []. cbn [join app]. now rewrite app_nil_r.
    + exists (sep ++ join sep (q :: l)). reflexivity.
  - destruct (IH Hin) as (a & b & E). destruct l as [|q l]; [contradiction|].
    exists (p ++ sep ++ a), b.
    change (join sep (p :: q :: l)) with (p ++ sep ++ join sep (q :: l)).
    rewrite E. now rewrite <- !app_assoc.
Qed.

(** C8 (amended). With at least one data row and a complete configuration of
    the active mode, [readExcelFile] fails exactly when a required column is
    matched by none of the three strategies, with a single error whose
    message lists every such column (label and configured name, in the
    order of the checks); otherwise the rows are extracted.  With an
    incomplete configuration it fails with the message of the first
    configuration check that does not pass, and with no data row it returns
    no record. *)
Theorem readExcelFile_validation (RT : Runtime)
  (parseDateText : jsstring -> option Z) (sampleRow : RowObject)
  (rest : list RowObject) (options : ProcessingOptions) :
  let availableColumns := Object_keys sampleRow in
  let missing :=
    filter (unmatched RT availableColumns) (requiredColumns options) in
  let result := readExcelFile RT parseDateText (sampleRow :: rest) options in
  (configured options = true -> missing <> [] ->
     exists message,
       result = Throw message
       /\ message = js "다음 컬럼을 찾을 수 없습니다: "
                    ++ join (js ", ") (map describeRequired missing)
       /\ forall c, In c missing ->
            includes message (describeRequired c) = true)
  /\ (configured options = true -> missing = [] ->
        exists options',
          result = Return (parseMonthlyData RT parseDateText
                             (sampleRow :: rest) options'))
  /\ (configured options = false ->
        exists message,
          checkConfigured options = Some message /\ result = Throw message)
  /\ readExcelFile RT parseDateText [] options = Return [].
Proof.
  cbv zeta. repeat split.
  - intros Hc Hm. eexists. split; [|split; [reflexivity|]].
    + unfold readExcelFile.
      rewrite (proj2 (checkConfigured_configured options) Hc).
      pose proof (matchColumns_missing RT (Object_keys sampleRow) options Hc)
        as M.
      destruct (matchColumns RT (Object_keys sampleRow) options)
        as [options' missingColumns].
      cbn [snd] in M. subst missingColumns.
      destruct (map describeRequired _) eqn:E; [|reflexivity].
      apply map_eq_nil in E. contradiction.
    + intros c Hin.
      destruct (includes_join (js ", ") (describeRequired c)
                  (map describeRequired
                     (filter (unmatched RT (Object_keys sampleRow))
                             (requiredColumns options))))
        as (a & b & E); [now apply in_map|].
      rewrite E, app_assoc. apply includes_app.
  - intros Hc Hm. unfold readExcelFile.
    rewrite (proj2 (checkConfigured_configured options) Hc).
    pose proof (matchColumns_missing RT (Object_keys sampleRow) options Hc)
      as M.
    destruct (matchColumns RT (Object_keys sampleRow) options)
      as [options' missingColumns].
    cbn [snd] in M. subst missingColumns. rewrite Hm. cbn [map].
    now exists options'.
  - intros Hc. unfold readExcelFile.
    destruct (checkConfigured options) as [message|] eqn:E.
    + now exists message.
    + apply checkConfigured_configured in E. congruence.
Qed.

Lemma readExcelFile_validation_witness :
  configured traditionalOptions = true
  /\ exists message,
       readExcelFile exampleRuntime exampleParseDateText oneRowSheet
                     traditionalOptions = Throw message
       /\ message
          = js "다음 컬럼을 찾을 수 없습니다: 날짜 컬럼 '날짜', 면세금액 컬럼 '면세금액', 과세금액 컬럼 '과세금액'".
Proof.
  split; [reflexivity|].
  destruct (readExcelFile_validation exampleRuntime exampleParseDateText
              (hd [] oneRowSheet) (tl oneRowSheet) traditionalOptions)
    as (H & _).
  destruct (H eq_refl ltac:(vm_compute; discriminate)) as (message & E1 & E2 & _).
  exists message. split; [exact E1|]. rewrite E2. reflexivity.
Defined.

(** With no column configured the three required columns of the traditional
    mode are all missing, and the error names the date column alone. *)
Lemma readExcelFile_unset_columns :
  let availableColumns := Object_keys (hd [] oneRowSheet) in
  let message := js "날짜 컬럼이 지정되지 않았습니다." in
  map fst (requiredColumns unsetOptions)
  = [js "날짜 컬럼"; js "면세금액 컬럼"; js "과세금액 컬럼"]
  /\ forallb (isMissing exampleRuntime availableColumns)
             (requiredColumns unsetOptions) = true
  /\ readExcelFile exampleRuntime exampleParseDateText oneRowSheet
                   unsetOptions = Throw message
  /\ includes message (js "면세금액") = false
  /\ includes message (js "과세금액") = false.
Proof. cbv zeta. repeat split; vm_compute; reflexivity. Qed.

(** ** Header names *)

Lemma jsstring_eqb_sym (a b : jsstring) : jsstring_eqb a b = jsstring_eqb b a.
Proof.
  destruct (jsstring_eqb a b) eqn:E.
  - apply jsstring_eqb_eq in E. subst. symmetry. apply jsstring_eqb_refl.
  - destruct (jsstring_eqb b a) eqn:F; [|reflexivity].
    apply jsstring_eqb_eq in F. subst. now rewrite jsstring_eqb_refl in E.
Qed.

Lemma isEmptyText_eqb (a b : jsstring) :
  isEmptyText a = true -> isEmptyText b = false -> jsstring_eqb a b = false.
Proof.
  destruct a, b; try discriminate. intros _ _.
  now apply jsstring_eqb_neq.
Qed.

Lemma arr_includes_In (l : list jsstring) (x : jsstring) :
  arr_includes l x = true <-> In x l.
Proof.
  unfold arr_includes. rewrite existsb_exists. split.
  - intros (y & Hin & E). apply jsstring_eqb_eq in E. now subst.
  - intros H. exists x. split; [assumption|apply jsstring_eqb_refl].
Qed.

Lemma keepsName_shift (name : nat -> jsstring) (seen seen' : list jsstring)
  (a c : nat) :
  a < c ->
  (negb (isEmptyText (name c)) && negb (arr_includes seen (name c))
   && negb (jsstring_eqb (name a) (name c))
   = negb (isEmptyText (name c)) && negb (arr_includes seen' (name c))) ->
  keepsName name seen a c = keepsName name seen' (S a) c.
Proof.
  intros Hlt H. unfold keepsName.
  replace (c - a) with (S (c - S a)) by lia. cbn [seq existsb].
  rewrite negb_orb, andb_assoc, H. reflexivity.
Qed.

Lemma uniqueHeaders_columns (name : nat -> jsstring) (k : nat) :
  forall (a : nat) (seen : list jsstring),
  uniqueHeaders seen
    (filter (fun header => negb (isEmptyText header))
            (map name (seq a k)))
  = map name (filter (keepsName name seen a) (seq a k)).
Proof.
  induction k as [|k IH]; intros a seen; [reflexivity|].
  cbn [seq map filter].
  assert (Hself : keepsName name seen a a
                  = negb (isEmptyText (name a))
                    && negb (arr_includes seen (name a))).
  { unfold keepsName. rewrite Nat.sub_diag. cbn [seq existsb negb].
    now rewrite andb_true_r. }
  rewrite Hself.
  destruct (isEmptyText (name a)) eqn:He; cbn [negb andb].
  - rewrite IH. f_equal. apply filter_ext_in. intros c Hc.
    apply in_seq in Hc. symmetry. apply keepsName_shift; [lia|].
    destruct (isEmptyText (name c)) eqn:Hc'; cbn [negb andb]; [reflexivity|].
    rewrite (isEmptyText_eqb _ _ He Hc'). now rewrite andb_true_r.
  - cbn [uniqueHeaders].
    destruct (arr_includes seen (name a)) eqn:Hs; cbn [negb].
    + rewrite IH. f_equal. apply filter_ext_in. intros c Hc.
      apply in_seq in Hc. symmetry. apply keepsName_shift; [lia|].
      destruct (jsstring_eqb (name a) (name c)) eqn:E; cbn [negb];
        [|now rewrite andb_true_r].
      apply jsstring_eqb_eq in E. rewrite <- E, Hs. cbn [negb].
      now rewrite !andb_false_r.
    + cbn [map]. rewrite IH. f_equal. f_equal. apply filter_ext_in.
      intros c Hc. apply in_seq in Hc. symmetry.
      apply keepsName_shift; [lia|].
      unfold arr_includes at 2. cbn [existsb].
      fold (arr_includes seen (name c)).
      rewrite (jsstring_eqb_sym (name c) (name a)), negb_orb.
      rewrite <- !andb_assoc. f_equal. apply andb_comm.
Qed.

Lemma filter_seq_sorted (f : nat -> bool) (a k : nat) :
  StronglySorted lt (filter f (seq a k)).
Proof.
  revert a. induction k as [|k IH]; intros a; cbn [seq filter].
  - constructor.
  - destruct (f a); [|apply IH].
    constructor; [apply IH|].
    apply Forall_forall. intros c Hc. apply filter_In in Hc as [Hc _].
    apply in_seq in Hc. lia.
Qed.

Lemma keepsName_first (name : nat -> jsstring) (c : nat) :
  keepsName name [] 0 c = true <->
  name c <> [] /\ forall c', c' < c -> name c' <> name c.
Proof.
  unfold keepsName. cbn [arr_includes existsb negb]. rewrite andb_true_r.
  rewrite Nat.sub_0_r, andb_true_iff, !negb_true_iff. split.
  - intros [He Hx]. split; [now destruct (name c)|].
    intros c' Hlt E.
    assert (Hex : existsb (fun c'0 => jsstring_eqb (name c'0) (name c))
                          (seq 0 c) = true).
    { apply existsb_exists. exists c'. split; [apply in_seq; lia|].
      now apply jsstring_eqb_eq. }
    congruence.
  - intros [Hne Hfirst]. split; [now destruct (name c)|].
    destruct (existsb _ (seq 0 c)) eqn:Hex; [|reflexivity].
    apply existsb_exists in Hex as (c' & Hin & E).
    apply in_seq in Hin. apply jsstring_eqb_eq in E.
    exfalso. apply (Hfirst c'); [lia|assumption].
Qed.

Lemma NoDup_map_first (name : nat -> jsstring) (cols : list nat) :
  StronglySorted lt cols ->
  (forall c, In c cols -> forall c', c' < c -> name c' <> name c) ->
  NoDup (map name cols).
Proof.
  intros Hs. induction Hs as [|c cols Hs IH Hall]; intros Hfirst; cbn [map].
  - constructor.
  - constructor.
    + intros Hin. apply in_map_iff in Hin as (c2 & E & Hin).
      rewrite Forall_forall in Hall.
      apply (Hfirst c2 (or_intror Hin) c (Hall c2 Hin)). now symmetry.
    + apply IH. intros c2 Hin. apply Hfirst. now right.
Qed.

(** C3 (amended). With two header rows that do not form the flat two-row
    layout, the list returned holds, in increasing column order, the name of
    every column whose name is not empty and occurs at no column to its
    left: no name occurs twice and a name takes the place of its first
    occurrence.  With a single header row, or with the flat two-row layout,
    the list is the trimmed non-empty texts of the row chosen, in column
    order, repeated names included. *)
Theorem combineMultiRowHeaders_spec (RT : Runtime) (data : Grid) :
  (forall r, combineMultiRowHeaders RT data [r] = rowHeaders RT (nth r data []))
  /\ (forall r1 r2 rest,
        isSimpleStructure RT (nth r1 data []) (nth r2 data []) = true ->
        combineMultiRowHeaders RT data (r1 :: r2 :: rest)
        = rowHeaders RT
            (if countIf (hasText RT) (nth r1 data [])
                <? countIf (hasText RT) (nth r2 data [])
             then nth r2 data [] else nth r1 data []))
  /\ (forall r1 r2 rest,
        isSimpleStructure RT (nth r1 data []) (nth r2 data []) = false ->
        let name := columnName RT (nth r1 data []) (nth r2 data []) in
        let maxCols := Nat.max (textExtent RT (nth r1 data []))
                               (textExtent RT (nth r2 data [])) in
        let result := combineMultiRowHeaders RT data (r1 :: r2 :: rest) in
        NoDup result
        /\ exists cols : list nat,
             StronglySorted lt cols
             /\ result = map name cols
             /\ forall c, In c cols <->
                  c < maxCols /\ name c <> []
                  /\ forall c', c' < c -> name c' <> name c).
Proof.
  repeat split.
  - intros r1 r2 rest H. cbn [combineMultiRowHeaders]. rewrite H.
    now destruct (_ <? _).
  - cbn [combineMultiRowHeaders]. rewrite H. unfold combinedHeaders.
    rewrite uniqueHeaders_columns.
    apply NoDup_map_first; [apply filter_seq_sorted|].
    intros c Hc. apply filter_In in Hc as [_ Hc].
    now apply keepsName_first in Hc.
  - cbn [combineMultiRowHeaders]. rewrite H. unfold combinedHeaders.
    rewrite uniqueHeaders_columns.
    eexists. split; [apply filter_seq_sorted|]. split; [reflexivity|].
    intros c. rewrite filter_In, in_seq, keepsName_first.
    cbn [Nat.add]. intuition lia.
Qed.

Lemma combineMultiRowHeaders_spec_witness :
  isSimpleStructure exampleRuntime (nth 0 parentChildSheet [])
                    (nth 1 parentChildSheet []) = false
  /\ NoDup (combineMultiRowHeaders exampleRuntime parentChildSheet [0; 1])
  /\ combineMultiRowHeaders exampleRuntime parentChildSheet [0; 1]
     = [js "정산일"; js "주문금액 > 과세"; js "주문금액 > 면세"].
Proof.
  split; [reflexivity|]. split; [|reflexivity].
  destruct (combineMultiRowHeaders_spec exampleRuntime parentChildSheet)
    as (_ & _ & H).
  exact (proj1 (H 0 1 [] eq_refl)).
Defined.

(** A repeated name in a single header row is returned twice. *)
Lemma combineMultiRowHeaders_repeated_name :
  combineMultiRowHeaders exampleRuntime repeatedHeaderSheet [0]
  = [js "날짜"; js "금액"; js "금액"]
  /\ ~ NoDup (combineMultiRowHeaders exampleRuntime repeatedHeaderSheet [0]).
Proof.
  split; [reflexivity|]. intros H.
  change (combineMultiRowHeaders exampleRuntime repeatedHeaderSheet [0])
    with [js "날짜"; js "금액"; js "금액"] in H.
  inversion H as [|? ? _ H1]; subst. inversion H1 as [|? ? Hnin _]; subst.
  apply Hnin. now left.
Qed.

(** ** Header detection *)

Lemma hd_Array_sort_byScore (l : list Candidate) :
  hd_error (Array_sort byScoreDescending l) = firstBest l.
Proof.
  unfold Array_sort. induction l as [|a l IH]; [reflexivity|].
  cbn [fold_right firstBest]. rewrite <- IH.
  destruct (fold_right (sortInsert byScoreDescending) [] l) as [|h t];
    [reflexivity|].
  cbn [sortInsert hd_error]. unfold byScoreDescending.
  rewrite num_pos_sub_ofZ.
  replace (Z.of_nat (cand_score a) <? Z.of_nat (cand_score h))%Z
    with (cand_score a <? cand_score h).
  - now destruct (cand_score a <? cand_score h).
  - destruct (Nat.ltb_spec (cand_score a) (cand_score h)),
      (Z.ltb_spec (Z.of_nat (cand_score a)) (Z.of_nat (cand_score h)));
      try reflexivity; lia.
Qed.

Lemma firstBest_split (l : list Candidate) :
  match firstBest l with
  | None => l = []
  | Some b =>
    exists l1 l2, l = l1 ++ b :: l2
      /\ (forall x, In x l1 -> cand_score x < cand_score b)
      /\ (forall x, In x l2 -> cand_score x <= cand_score b)
  end.
Proof.
  induction l as [|a l IH]; [reflexivity|]. cbn [firstBest].
  destruct (firstBest l) as [h|].
  - destruct IH as (l1 & l2 & -> & H1 & H2).
    destruct (Nat.ltb_spec (cand_score a) (cand_score h)) as [Hlt|Hge].
    + exists (a :: l1), l2. repeat split; try assumption.
      intros x [<-|Hx]; [assumption|now apply H1].
    + exists [], (l1 ++ h :: l2). repeat split; [intros x []|].
      intros x Hx. apply in_app_or in Hx as [Hx|[<-|Hx]].
      * specialize (H1 x Hx). lia.
      * assumption.
      * specialize (H2 x Hx). lia.
  - subst l. exists [], []. repeat split; intros x [].
Qed.

Section DetectionFacts.

Variable RT : Runtime.

Lemma rowScore_scoreOf (data : Grid) (i : nat) :
  rowScore RT data i = scoreOf RT data i.
Proof.
  unfold rowScore, scoreOf, entirelyEmpty, textLike, mostlyNumeric,
    nonEmptyCellsOf, countIf, weight.
  destruct (length (filter (isNonEmptyCell RT) (nth i data [])) =? 0);
    [reflexivity|].
  f_equal.
  repeat match goal with
  | |- context [if ?b then _ else _] =>
    lazymatch b with
    | context [if _ then _ else _] => fail
    | _ => destruct b eqn:?; cbn [andb negb]
    end
  end; try lia;
  repeat match goal with
  | H : (0 <? _) = false |- _ => apply Nat.ltb_ge in H
  end; lia.
Qed.

Lemma candidatesOf_In (data : Grid) (c : Candidate) :
  In c (candidatesOf RT data) <->
  cand_row c < Nat.min 10 (length data)
  /\ scoreOf RT data (cand_row c) = Some (cand_score c)
  /\ 0 < cand_score c.
Proof.
  unfold candidatesOf. rewrite in_flat_map. split.
  - intros (i & Hi & Hc). apply in_seq in Hi. rewrite rowScore_scoreOf in Hc.
    destruct (scoreOf RT data i) as [s|] eqn:E; [|contradiction].
    destruct (Nat.ltb_spec 0 s); [|contradiction].
    destruct Hc as [<-|[]]. cbn [cand_row cand_score]. repeat split;
      try assumption; lia.
  - intros (Hlt & Hs & Hpos). exists (cand_row c). split; [apply in_seq; lia|].
    rewrite rowScore_scoreOf, Hs.
    destruct (Nat.ltb_spec 0 (cand_score c)); [|lia].
    left. now destruct c.
Qed.

Lemma candidates_from_sorted (data : Grid) (n : nat) :
  forall a : nat,
  StronglySorted (fun a b => cand_row a < cand_row b)
    (flat_map
       (fun rowIndex =>
          match rowScore RT data rowIndex with
          | Some score =>
            if 0 <? score
            then [{| cand_row := rowIndex; cand_score := score |}]
            else []
          | None => []
          end) (seq a n)).
Proof.
  induction n as [|n IH]; intros a; cbn [seq flat_map]; [constructor|].
  assert (Hrest : Forall (fun b => a < cand_row b)
            (flat_map
               (fun rowIndex =>
                  match rowScore RT data rowIndex with
                  | Some score =>
                    if 0 <? score
                    then [{| cand_row := rowIndex; cand_score := score |}]
                    else []
                  | None => []
                  end) (seq (S a) n))).
  { apply Forall_forall. intros b Hb. apply in_flat_map in Hb as (i & Hi & Hb).
    apply in_seq in Hi. destruct (rowScore RT data i) as [s|]; [|contradiction].
    destruct (0 <? s); [|contradiction]. destruct Hb as [<-|[]]. cbn. lia. }
  destruct (rowScore RT data a) as [s|]; [|apply IH].
  destruct (0 <? s); [|apply IH].
  cbn [app]. constructor; [apply IH|exact Hrest].
Qed.

Lemma candidatesOf_sorted (data : Grid) :
  StronglySorted (fun a b => cand_row a < cand_row b) (candidatesOf RT data).
Proof. apply candidates_from_sorted. Qed.

Lemma sorted_split_rows (l1 l2 : list Candidate) (b : Candidate) :
  StronglySorted (fun a b => cand_row a < cand_row b) (l1 ++ b :: l2) ->
  (forall x, In x l1 -> cand_row x < cand_row b)
  /\ (forall x, In x l2 -> cand_row b < cand_row x).
Proof.
  induction l1 as [|a l1 IH]; cbn [app]; intros H;
    inversion H as [|? ? Hs Hall]; subst.
  - split; [intros x []|]. rewrite Forall_forall in Hall. exact Hall.
  - destruct (IH Hs) as [H1 H2]. split; [|exact H2].
    intros x [<-|Hx]; [|now apply H1].
    rewrite Forall_forall in Hall. apply Hall. apply in_or_app. right.
    now left.
Qed.

End DetectionFacts.

(** C1 (amended). For every grid with at least one row, [detectHeaderRow]
    looks at the first 10 rows at most, skips the rows without a non-empty
    cell and gives each other row the sum of: 20 if more than half of its
    width is non-empty, 15 per non-empty cell matching a keyword, 25 if more
    than 0.7 of its non-empty cells are text-like, 30 if it is text-like and
    more than half of the non-null cells of the next row parse as numbers,
    10 if it is not the first row and the row before it is entirely empty,
    and 5 if no cell holds unusual punctuation.  It returns the row with the
    highest score, the lowest such row on a tie, with confidence the
    smaller of 100 and that score; when no row scores above 0 it returns
    row 0 with confidence 30. *)
Theorem detectHeaderRow_spec (RT : Runtime) (data : Grid) :
  data <> [] ->
  let limit := Nat.min 10 (length data) in
  ((forall i s, i < limit -> scoreOf RT data i = Some s -> s = 0) ->
     detectHeaderRow RT data = Return {| headerRow := 0; confidence := 30 |})
  /\ (forall i s, i < limit -> scoreOf RT data i = Some s -> 0 < s ->
        exists best sb,
          best < limit
          /\ scoreOf RT data best = Some sb /\ 0 < sb
          /\ (forall j sj, j < limit -> scoreOf RT data j = Some sj ->
                sj <= sb)
          /\ (forall j sj, j < best -> scoreOf RT data j = Some sj ->
                sj < sb)
          /\ detectHeaderRow RT data
             = Return {| headerRow := best;
                         confidence := Nat.min 100 sb |}).
Proof.
  intros Hne limit. unfold detectHeaderRow.
  destruct data as [|row0 rows]; [congruence|]. cbn [length Nat.eqb].
  set (data := row0 :: rows) in *.
  pose proof (hd_Array_sort_byScore (candidatesOf RT data)) as Hhd.
  pose proof (firstBest_split (candidatesOf RT data)) as Hsplit.
  destruct (firstBest (candidatesOf RT data)) as [b|] eqn:Hb.
  - destruct (Array_sort byScoreDescending (candidatesOf RT data))
      as [|b' t]; [discriminate|].
    cbn [hd_error] in Hhd. injection Hhd as ->.
    destruct Hsplit as (l1 & l2 & El & H1 & H2).
    assert (Hin : In b (candidatesOf RT data))
      by (rewrite El; apply in_or_app; right; now left).
    apply candidatesOf_In in Hin as (Hlim & Hsc & Hpos).
    pose proof (candidatesOf_sorted RT data) as Hsorted. rewrite El in Hsorted.
    apply sorted_split_rows in Hsorted as [R1 R2].
    split.
    + intros Hzero. specialize (Hzero _ _ Hlim Hsc). lia.
    + intros i s Hi Hs Hs0. exists (cand_row b), (cand_score b).
      repeat split; try assumption.
      * intros j sj Hj Hsj. destruct (Nat.eq_dec sj 0) as [->|Hnz]; [lia|].
        assert (Hc : In {| cand_row := j; cand_score := sj |}
                        (candidatesOf RT data)).
        { apply candidatesOf_In. cbn [cand_row cand_score].
          repeat split; try assumption. lia. }
        rewrite El in Hc. apply in_app_or in Hc as [Hc|[Hc|Hc]].
        -- specialize (H1 _ Hc). cbn in H1. lia.
        -- rewrite Hc. cbn. lia.
        -- specialize (H2 _ Hc). cbn in H2. lia.
      * intros j sj Hj Hsj. destruct (Nat.eq_dec sj 0) as [->|Hnz]; [lia|].
        assert (Hc : In {| cand_row := j; cand_score := sj |}
                        (candidatesOf RT data)).
        { apply candidatesOf_In. cbn [cand_row cand_score].
          repeat split; try assumption; lia. }
        rewrite El in Hc. apply in_app_or in Hc as [Hc|[Hc|Hc]].
        -- specialize (H1 _ Hc). cbn in H1. lia.
        -- rewrite Hc in Hj. cbn in Hj. lia.
        -- specialize (R2 _ Hc). cbn in R2. lia.
  - destruct (Array_sort byScoreDescending (candidatesOf RT data))
      as [|b' t]; [|discriminate].
    split; [reflexivity|].
    intros i s Hi Hs Hs0. exfalso.
    assert (Hc : In {| cand_row := i; cand_score := s |}
                    (candidatesOf RT data)).
    { apply candidatesOf_In. cbn [cand_row cand_score].
      repeat split; assumption. }
    rewrite Hsplit in Hc. contradiction.
Qed.

Lemma detectHeaderRow_spec_witness :
  reportSheet <> []
  /\ scoreOf exampleRuntime reportSheet 2 = Some 150
  /\ exists best sb,
       scoreOf exampleRuntime reportSheet best = Some sb
       /\ detectHeaderRow exampleRuntime reportSheet
          = Return {| headerRow := best; confidence := Nat.min 100 sb |}.
Proof.
  assert (Hne : reportSheet <> []) by discriminate.
  split; [exact Hne|]. split; [reflexivity|].
  destruct (proj2 (detectHeaderRow_spec exampleRuntime reportSheet Hne)
              2 150 ltac:(cbn; lia) eq_refl ltac:(lia))
    as (best & sb & _ & Hs & _ & _ & _ & Hd).
  exists best, sb. split; assumption.
Defined.

(** Given the bonus of an absent preceding row, the first of these two rows
    would score 55 against 50 and be chosen; the code gives it 45 and returns
    the second row.  An empty grid is rejected. *)
Lemma detectHeaderRow_first_row_bonus :
  statedScoreOf exampleRuntime twoTitleRows 0 = Some 55
  /\ statedScoreOf exampleRuntime twoTitleRows 1 = Some 50
  /\ detectHeaderRow exampleRuntime twoTitleRows
     = Return {| headerRow := 1; confidence := 50 |}
  /\ detectHeaderRow exampleRuntime []
     = Throw (js "No data found in Excel file").
Proof. repeat split; vm_compute; reflexivity. Qed.

(** * Properties of the further functions *)

(** ** Row objects *)

Lemma combine_append {A B} (l1 l2 : list A) (m1 m2 : list B) :
  length l1 = length m1 ->
  combine (l1 ++ l2) (m1 ++ m2) = combine l1 m1 ++ combine l2 m2.
Proof.
  revert m1. induction l1 as [|a l1 IH]; intros [|b m1] H;
    try discriminate; [reflexivity|].
  cbn [app combine]. f_equal. apply IH. now injection H.
Qed.

Lemma combine_seq_snoc {A} (l : list A) (x : A) :
  combine (l ++ [x]) (seq 0 (length (l ++ [x])))
  = combine l (seq 0 (length l)) ++ [(x, length l)].
Proof.
  rewrite length_app. cbn [length]. rewrite Nat.add_1_r, seq_S.
  rewrite combine_append by now rewrite length_seq. reflexivity.
Qed.

Lemma rowObjectOf_snoc (RT : Runtime) (headers : list Cell) (h : Cell)
  (row : Row) :
  rowObjectOf RT (headers ++ [h]) row
  = rowObjectStep RT row (rowObjectOf RT headers row) (h, length headers).
Proof.
  unfold rowObjectOf. rewrite combine_seq_snoc, fold_left_app. reflexivity.
Qed.

Lemma carriesName_app_l (RT : Runtime) (headers : list Cell) (h : Cell)
  (name : jsstring) (i : nat) :
  i < length headers ->
  carriesName RT (headers ++ [h]) name i = carriesName RT headers name i.
Proof. intros H. unfold carriesName. now rewrite app_nth1. Qed.

Lemma carriesName_last (RT : Runtime) (headers : list Cell) (h : Cell)
  (name : jsstring) :
  carriesName RT (headers ++ [h]) name (length headers)
  = truthy h && jsstring_eqb (toString RT h) name.
Proof.
  unfold carriesName. rewrite app_nth2, Nat.sub_diag by lia. reflexivity.
Qed.

Lemma rowObjectOf_absent (RT : Runtime) (headers : list Cell) (row : Row)
  (name : jsstring) :
  (forall i, i < length headers -> carriesName RT headers name i = false) ->
  objGet (rowObjectOf RT headers row) name = None.
Proof.
  induction headers as [|h headers IH] using rev_ind; intros Hno;
    [reflexivity|].
  rewrite rowObjectOf_snoc. unfold rowObjectStep.
  assert (IH' : objGet (rowObjectOf RT headers row) name = None).
  { apply IH. intros i Hi. rewrite <- (carriesName_app_l RT headers h) by lia.
    apply Hno. rewrite length_app. cbn [length]. lia. }
  specialize (Hno (length headers)). rewrite carriesName_last in Hno.
  rewrite length_app in Hno. cbn [length] in Hno.
  specialize (Hno ltac:(lia)).
  destruct (truthy h); [|exact IH'].
  destruct (jsstring_eqb (toString RT h) (js "__proto__")); [exact IH'|].
  cbn [andb] in Hno.
  rewrite objGet_objSet_other; [exact IH'|].
  intros E. rewrite E, jsstring_eqb_refl in Hno. discriminate.
Qed.

Lemma rowObjectOf_no_proto (RT : Runtime) (headers : list Cell) (row : Row) :
  objGet (rowObjectOf RT headers row) (js "__proto__") = None.
Proof.
  induction headers as [|h headers IH] using rev_ind; [reflexivity|].
  rewrite rowObjectOf_snoc. unfold rowObjectStep.
  destruct (truthy h); [|exact IH].
  destruct (jsstring_eqb (toString RT h) (js "__proto__")) eqn:E;
    [exact IH|].
  rewrite objGet_objSet_other; [exact IH|].
  intros E'. rewrite <- E', jsstring_eqb_refl in E. discriminate.
Qed.

Lemma rowObjectOf_last (RT : Runtime) (headers : list Cell) (row : Row)
  (name : jsstring) (i : nat) :
  name <> js "__proto__" ->
  i < length headers ->
  carriesName RT headers name i = true ->
  (forall j, i < j -> j < length headers ->
             carriesName RT headers name j = false) ->
  objGet (rowObjectOf RT headers row) name = Some (cellAt row i).
Proof.
  intros Hname. revert i.
  induction headers as [|h headers IH] using rev_ind; intros i Hi Hc Hlast;
    [cbn in Hi; lia|].
  rewrite length_app in Hi. cbn [length] in Hi.
  rewrite rowObjectOf_snoc. unfold rowObjectStep.
  destruct (Nat.eq_dec i (length headers)) as [->|Hne].
  - rewrite carriesName_last in Hc. apply andb_prop in Hc as [Ht He].
    rewrite Ht. apply jsstring_eqb_eq in He. rewrite He.
    rewrite (jsstring_eqb_neq _ _ Hname). apply objGet_objSet_same.
  - assert (Hi' : i < length headers) by lia.
    assert (IH' : objGet (rowObjectOf RT headers row) name
                  = Some (cellAt row i)).
    { apply IH; [exact Hi'| |].
      - now rewrite <- (carriesName_app_l RT headers h).
      - intros j Hij Hj. rewrite <- (carriesName_app_l RT headers h) by lia.
        apply Hlast; [exact Hij|]. rewrite length_app. cbn [length]. lia. }
    specialize (Hlast (length headers) ltac:(lia)).
    rewrite length_app in Hlast. cbn [length] in Hlast.
    specialize (Hlast ltac:(lia)). rewrite carriesName_last in Hlast.
    destruct (truthy h); [|exact IH'].
    destruct (jsstring_eqb (toString RT h) (js "__proto__")); [exact IH'|].
    cbn [andb] in Hlast.
    rewrite objGet_objSet_other; [exact IH'|].
    intros E. rewrite E, jsstring_eqb_refl in Hlast. discriminate.
Qed.



(** ** The extraction loops *)

Lemma civil_from_days_range (z : Z) :
  let '(_, m, d) := civil_from_days z in (1 <= m <= 12 /\ 1 <= d <= 31)%Z.
Proof.
  unfold civil_from_days. cbv zeta.
  repeat match goal with
         | |- context [if ?b then _ else _] => destruct b eqn:?
         end;
    Z.to_euclidean_division_equations; lia.
Qed.

Lemma getMonth_range (RT : Runtime) (t : Z) : (0 <= getMonth RT t <= 11)%Z.
Proof.
  unfold getMonth.
  pose proof (civil_from_days_range (localTime RT t / msPerDay)) as H.
  destruct (civil_from_days (localTime RT t / msPerDay)) as [[y m] d]. lia.
Qed.

Lemma traditionalRow_datedRow (RT : Runtime)
  (parseDateText : jsstring -> option Z) (options : ProcessingOptions)
  (row : RowObject) :
  traditionalRow RT parseDateText options row
  = option_map (traditionalRecord RT options row)
               (datedRow RT parseDateText options row).
Proof.
  unfold traditionalRow, datedRow, dateCellOf. cbv zeta.
  destruct (isSummaryRow RT _); [reflexivity|].
  destruct (parseDate parseDateText _); reflexivity.
Qed.

(** X2. In the traditional mode every row that is not a summary line and
    whose date parses yields exactly one record, in row order, and no other
    row yields any: the amounts read are never NaN, so the final filter
    removes nothing, and a row whose two amounts are missing or zero is kept
    with zeros.  The month of a record lies between 1 and 12. *)
Theorem parseMonthlyData_traditional (RT : Runtime)
  (parseDateText : jsstring -> option Z) (options : ProcessingOptions)
  (rows : list RowObject) :
  useTaxTypeClassification options = false ->
  let records := parseMonthlyData RT parseDateText rows options in
  records
  = flat_map (fun row =>
                match datedRow RT parseDateText options row with
                | Some date => [traditionalRecord RT options row date]
                | None => []
                end) rows
  /\ length records
     = countIf (fun row =>
                  match datedRow RT parseDateText options row with
                  | Some _ => true
                  | None => false
                  end) rows
  /\ Forall (fun r => (1 <= month r <= 12)%Z
                      /\ isNaN (taxExemptAmount r) = false
                      /\ isNaN (taxableAmount r) = false) records.
Proof.
  intros Hmode records.
  assert (E : records
              = flat_map (fun row =>
                  match datedRow RT parseDateText options row with
                  | Some date => [traditionalRecord RT options row date]
                  | None => []
                  end) rows).
  { unfold records, parseMonthlyData. rewrite Hmode.
    induction rows as [|row rows IH]; [reflexivity|].
    cbn [flat_map]. rewrite IH. f_equal.
    rewrite traditionalRow_datedRow.
    destruct (datedRow RT parseDateText options row); [|reflexivity].
    cbn [option_map traditionalRecord taxExemptAmount taxableAmount].
    now rewrite !parseAmount_not_NaN. }
  split; [exact E|]. rewrite E. clear. split.
  - unfold countIf. induction rows as [|row rows IH]; [reflexivity|].
    cbn [flat_map filter]. rewrite length_app, IH.
    destruct (datedRow RT parseDateText options row); reflexivity.
  - induction rows as [|row rows IH]; [constructor|].
    cbn [flat_map]. apply Forall_app. split; [|exact IH].
    destruct (datedRow RT parseDateText options row); constructor;
      [|constructor].
    cbn [traditionalRecord month taxExemptAmount taxableAmount].
    pose proof (getMonth_range RT z).
    rewrite !parseAmount_not_NaN. repeat split; lia.
Qed.

Lemma parseMonthlyData_traditional_witness :
  parseMonthlyData exampleRuntime exampleParseDateText
    [ [(js "날짜", CStr (js "2024-01-15")); (js "면세금액", CStr (js "1,000"))];
      [(js "날짜", CStr (js "합계")); (js "면세금액", CNum 1000)];
      [(js "날짜", CStr (js "2024-02-01"))] ]
    traditionalOptions
  = [ {| month := 1; year := 2024;
         taxExemptAmount := Fin 1000; taxableAmount := Fin 0 |};
      {| month := 2; year := 2024;
         taxExemptAmount := Fin 0; taxableAmount := Fin 0 |} ].
Proof.
  destruct (parseMonthlyData_traditional exampleRuntime exampleParseDateText
              traditionalOptions
              [ [(js "날짜", CStr (js "2024-01-15"));
                 (js "면세금액", CStr (js "1,000"))];
                [(js "날짜", CStr (js "합계")); (js "면세금액", CNum 1000)];
                [(js "날짜", CStr (js "2024-02-01"))] ]
              eq_refl) as (E & _ & _).
  rewrite E. vm_compute. reflexivity.
Defined.

(** *** Objects keyed by a list of distinct names *)

Section KeyedObjects.

Variable V : Type.

Lemma objGet_keyed (f : jsstring -> V) (ks : list jsstring) (k0 : jsstring) :
  objGet (map (fun k => (k, f k)) ks) k0 = if arr_includes ks k0 then Some (f k0) else None.
Proof.
  induction ks as [|k ks IH]; [reflexivity|].
  cbn [map objGet]. unfold arr_includes. cbn [existsb].
  destruct (jsstring_eqb k0 k) eqn:E; cbn [orb].
  - apply jsstring_eqb_eq in E. now subst.
  - exact IH.
Qed.

Lemma objSet_keyed_absent (f : jsstring -> V) (ks : list jsstring)
  (k0 : jsstring) (v : V) :
  arr_includes ks k0 = false ->
  objSet (map (fun k => (k, f k)) ks) k0 v = map (fun k => (k, f k)) ks ++ [(k0, v)].
Proof.
  unfold arr_includes. induction ks as [|k ks IH]; intros H; [reflexivity|].
  cbn [existsb] in H. apply orb_false_iff in H as [E H].
  cbn [map objSet app]. rewrite E. f_equal. now apply IH.
Qed.

Lemma objSet_keyed_present (f : jsstring -> V) (ks : list jsstring)
  (k0 : jsstring) (v : V) :
  NoDup ks -> In k0 ks ->
  objSet (map (fun k => (k, f k)) ks) k0 v
  = map (fun k => (k, if jsstring_eqb k0 k then v else f k)) ks.
Proof.
  induction ks as [|k ks IH]; intros Hnd Hin; [contradiction|].
  inversion Hnd as [|? ? Hnotin Hnd']; subst.
  cbn [map objSet].
  destruct (jsstring_eqb k0 k) eqn:E.
  - apply jsstring_eqb_eq in E. subst k. f_equal.
    apply map_ext_in. intros k' Hk'.
    destruct (jsstring_eqb k0 k') eqn:E'; [|reflexivity].
    apply jsstring_eqb_eq in E'. subst. contradiction.
  - f_equal. apply IH; [assumption|].
    destruct Hin as [->|Hin]; [|assumption].
    rewrite jsstring_eqb_refl in E. discriminate.
Qed.

End KeyedObjects.

(** *** The tax-type loop *)

Section TaxTypeLoop.

Variable RT : Runtime.
Variable parseDateText : jsstring -> option Z.
Variable options : ProcessingOptions.

Local Abbreviation counted := (countedRow RT parseDateText options).
Local Abbreviation rowsOfKey := (countedRowsOf RT parseDateText options).
Local Abbreviation groupOf := (monthGroupOf RT parseDateText options).
Local Abbreviation groupsOf' := (monthGroupsOf RT parseDateText options).
Local Abbreviation addKey' := (addMonthKey RT parseDateText options).

(** What holds of the keys met after a prefix of the rows. *)
Let Inv (ks : list jsstring) (pre : list RowObject) : Prop :=
  NoDup ks
  /\ (forall k, In k ks -> rowsOfKey k pre <> [])
  /\ (forall row date, In row pre -> counted row = Some date ->
        In (dateKey RT date) ks).

Lemma rowsOfKey_snoc (k : jsstring) (pre : list RowObject) (row : RowObject) :
  rowsOfKey k (pre ++ [row])
  = rowsOfKey k pre
    ++ (match counted row with
        | Some date => if jsstring_eqb (dateKey RT date) k then [row] else []
        | None => []
        end).
Proof.
  unfold countedRowsOf. rewrite filter_app. cbn [filter].
  destruct (counted row) as [date|]; [|reflexivity].
  destruct (jsstring_eqb (dateKey RT date) k); reflexivity.
Qed.

Lemma rowsOfKey_In (k : jsstring) (pre : list RowObject) :
  rowsOfKey k pre <> [] ->
  exists row date, In row pre /\ counted row = Some date
                   /\ dateKey RT date = k.
Proof.
  intros H. destruct (rowsOfKey k pre) as [|row l] eqn:E; [contradiction|].
  assert (Hin : In row (rowsOfKey k pre)) by (rewrite E; now left).
  unfold countedRowsOf in Hin. apply filter_In in Hin as [Hin Hc].
  destruct (counted row) as [date|] eqn:Ec; [|discriminate].
  exists row, date. apply jsstring_eqb_eq in Hc. auto.
Qed.

Lemma rowsOfKey_none (k : jsstring) (pre : list RowObject) :
  (forall row date, In row pre -> counted row = Some date ->
                    dateKey RT date <> k) ->
  rowsOfKey k pre = [].
Proof.
  intros H. destruct (rowsOfKey k pre) as [|row l] eqn:E; [reflexivity|].
  destruct (rowsOfKey_In k pre) as (r & d & Hin & Hc & Hk);
    [rewrite E; discriminate|].
  exfalso. exact (H r d Hin Hc Hk).
Qed.

Lemma taxTypeRow_uncounted (groups : JsObject DateGroup) (row : RowObject) :
  counted row = None ->
  taxTypeRow RT parseDateText options groups row = groups.
Proof.
  unfold countedRow, datedRow, dateCellOf, taxTypeRow. cbv zeta.
  destruct (isSummaryRow RT _); [reflexivity|].
  destruct (parseDate parseDateText _); [|reflexivity].
  destruct (isNaN (rowAmount options row) || num_is_zero (rowAmount options row));
    [reflexivity|discriminate].
Qed.

Lemma taxTypeRow_counted (groups : JsObject DateGroup) (row : RowObject)
  (date : Z) :
  counted row = Some date ->
  taxTypeRow RT parseDateText options groups row
  = let key := dateKey RT date in
    let old := totalsBefore groups key date in
    let amount := rowAmount options row in
    objSet (match objGet groups key with
            | Some _ => groups
            | None => objSet groups key old
            end) key
      (if isExemptRow RT options row
       then {| dg_date := dg_date old;
               dg_taxExempt := num_add (dg_taxExempt old) amount;
               dg_taxable := dg_taxable old |}
       else {| dg_date := dg_date old;
               dg_taxExempt := dg_taxExempt old;
               dg_taxable := num_add (dg_taxable old) amount |}).
Proof.
  unfold countedRow, datedRow, dateCellOf, taxTypeRow, isExemptRow,
    totalsBefore. cbv zeta.
  destruct (isSummaryRow RT _); [discriminate|].
  destruct (parseDate parseDateText _) as [d|]; [|discriminate].
  destruct (isNaN (rowAmount options row) || num_is_zero (rowAmount options row));
    [discriminate|].
  intros E. injection E as ->.
  destruct (objGet groups (dateKey RT date)) as [entry|] eqn:Eg.
  - rewrite Eg.
    destruct (matchesAny RT (taxTypeOf RT options row) (exemptValuesOf options));
      [reflexivity|].
    destruct (matchesAny RT (taxTypeOf RT options row)
                (taxableValuesOf options)); reflexivity.
  - rewrite objGet_objSet_same.
    destruct (matchesAny RT (taxTypeOf RT options row) (exemptValuesOf options));
      [reflexivity|].
    destruct (matchesAny RT (taxTypeOf RT options row)
                (taxableValuesOf options)); reflexivity.
Qed.

Lemma monthGroupOf_other (pre : list RowObject) (row : RowObject)
  (k : jsstring) :
  match counted row with
  | Some date => jsstring_eqb (dateKey RT date) k = false
  | None => True
  end ->
  groupOf (pre ++ [row]) k = groupOf pre k.
Proof.
  intros H. unfold monthGroupOf. cbv zeta. rewrite rowsOfKey_snoc.
  destruct (counted row) as [date|]; [rewrite H|]; now rewrite app_nil_r.
Qed.

Lemma monthGroupOf_same (pre : list RowObject) (row : RowObject) (date : Z) :
  counted row = Some date ->
  rowsOfKey (dateKey RT date) pre <> [] ->
  groupOf (pre ++ [row]) (dateKey RT date)
  = let old := groupOf pre (dateKey RT date) in
    let amount := rowAmount options row in
    if isExemptRow RT options row
    then {| dg_date := dg_date old;
            dg_taxExempt := num_add (dg_taxExempt old) amount;
            dg_taxable := dg_taxable old |}
    else {| dg_date := dg_date old;
            dg_taxExempt := dg_taxExempt old;
            dg_taxable := num_add (dg_taxable old) amount |}.
Proof.
  intros Hc Hne. unfold monthGroupOf. cbv zeta. rewrite rowsOfKey_snoc, Hc.
  rewrite jsstring_eqb_refl.
  destruct (rowsOfKey (dateKey RT date) pre) as [|r0 l]; [contradiction|].
  rewrite !filter_app. cbn [filter].
  cbn [app dg_date dg_taxExempt dg_taxable].
  destruct (isExemptRow RT options row); cbn [negb];
    unfold amountsOf; rewrite ?app_nil_r; f_equal;
    rewrite map_app, fold_left_app; reflexivity.
Qed.

Lemma monthGroupOf_first (pre : list RowObject) (row : RowObject) (date : Z) :
  counted row = Some date ->
  rowsOfKey (dateKey RT date) pre = [] ->
  groupOf (pre ++ [row]) (dateKey RT date)
  = let amount := rowAmount options row in
    if isExemptRow RT options row
    then {| dg_date := date;
            dg_taxExempt := num_add (Fin 0) amount;
            dg_taxable := Fin 0 |}
    else {| dg_date := date;
            dg_taxExempt := Fin 0;
            dg_taxable := num_add (Fin 0) amount |}.
Proof.
  intros Hc He. unfold monthGroupOf. cbv zeta. rewrite rowsOfKey_snoc, Hc, He.
  rewrite jsstring_eqb_refl. cbn [app filter]. rewrite Hc.
  destruct (isExemptRow RT options row); reflexivity.
Qed.

Lemma taxTypeRow_step (ks : list jsstring) (pre : list RowObject)
  (row : RowObject) :
  Inv ks pre ->
  taxTypeRow RT parseDateText options (groupsOf' ks pre) row
  = groupsOf' (addKey' ks row) (pre ++ [row])
  /\ Inv (addKey' ks row) (pre ++ [row]).
Proof.
  intros (Hnd & Hne & Hall). unfold addMonthKey.
  destruct (counted row) as [date|] eqn:Hc.
  - rewrite (taxTypeRow_counted _ _ _ Hc). cbv zeta.
    unfold monthGroupsOf, totalsBefore. rewrite objGet_keyed.
    destruct (arr_includes ks (dateKey RT date)) eqn:Ein.
    + (* the month has an entry *)
      assert (Hin : In (dateKey RT date) ks) by now apply arr_includes_In.
      split.
      * rewrite objSet_keyed_present by assumption.
        apply map_ext_in. intros k Hk. f_equal.
        destruct (jsstring_eqb (dateKey RT date) k) eqn:E.
        -- apply jsstring_eqb_eq in E. subst k.
           rewrite (monthGroupOf_same pre row date Hc (Hne _ Hin)).
           reflexivity.
        -- rewrite monthGroupOf_other; [reflexivity|]. now rewrite Hc.
      * split; [exact Hnd|]. split.
        -- intros k Hk. rewrite rowsOfKey_snoc. intros E.
           apply app_eq_nil in E as [E _]. exact (Hne k Hk E).
        -- intros r d Hr Hd. apply in_app_iff in Hr as [Hr|[<-|[]]].
           ++ exact (Hall r d Hr Hd).
           ++ rewrite Hc in Hd. injection Hd as <-. exact Hin.
    + (* the first row of the month *)
      assert (Hnin : ~ In (dateKey RT date) ks).
      { intros Hin. apply arr_includes_In in Hin. congruence. }
      assert (Hnone : rowsOfKey (dateKey RT date) pre = []).
      { apply rowsOfKey_none. intros r d Hr Hd E. apply Hnin.
        rewrite <- E. exact (Hall r d Hr Hd). }
      split.
      * rewrite objSet_keyed_absent by assumption.
        rewrite objSet_app_absent
          by (rewrite objGet_keyed, Ein; reflexivity).
        rewrite map_app. cbn [map]. f_equal.
        -- apply map_ext_in. intros k Hk. f_equal. symmetry.
           apply monthGroupOf_other. rewrite Hc.
           apply jsstring_eqb_neq. intros E. subst k. contradiction.
        -- rewrite (monthGroupOf_first pre row date Hc Hnone).
           cbn [dg_date dg_taxExempt dg_taxable]. reflexivity.
      * split; [|split].
        -- apply NoDup_app; [exact Hnd|repeat constructor; intros []|].
           intros k Hk [<-|[]]. contradiction.
        -- intros k Hk. rewrite rowsOfKey_snoc, Hc.
           apply in_app_iff in Hk as [Hk|[<-|[]]].
           ++ intros E. apply app_eq_nil in E as [E _]. exact (Hne k Hk E).
           ++ rewrite jsstring_eqb_refl. intros E.
              apply app_eq_nil in E as [_ E]. discriminate.
        -- intros r d Hr Hd. apply in_app_iff.
           apply in_app_iff in Hr as [Hr|[<-|[]]].
           ++ left. exact (Hall r d Hr Hd).
           ++ rewrite Hc in Hd. injection Hd as <-. right. now left.
  - rewrite (taxTypeRow_uncounted _ _ Hc). split.
    + unfold monthGroupsOf. apply map_ext. intros k. f_equal. symmetry.
      apply monthGroupOf_other. now rewrite Hc.
    + split; [exact Hnd|]. split.
      * intros k Hk. rewrite rowsOfKey_snoc, Hc, app_nil_r. exact (Hne k Hk).
      * intros r d Hr Hd. apply in_app_iff in Hr as [Hr|[<-|[]]].
        -- exact (Hall r d Hr Hd).
        -- congruence.
Qed.

Lemma taxTypeRow_fold (rest : list RowObject) :
  forall (ks : list jsstring) (pre : list RowObject),
  Inv ks pre ->
  fold_left (taxTypeRow RT parseDateText options) rest (groupsOf' ks pre)
  = groupsOf' (fold_left addKey' rest ks) (pre ++ rest)
  /\ Inv (fold_left addKey' rest ks) (pre ++ rest).
Proof.
  induction rest as [|row rest IH]; intros ks pre HI.
  - cbn [fold_left]. now rewrite app_nil_r.
  - cbn [fold_left]. destruct (taxTypeRow_step ks pre row HI) as [E HI'].
    rewrite E. replace (pre ++ row :: rest) with ((pre ++ [row]) ++ rest)
      by now rewrite <- app_assoc.
    apply IH. exact HI'.
Qed.

Lemma taxTypeLoop_groups (rows : list RowObject) :
  fold_left (taxTypeRow RT parseDateText options) rows []
  = groupsOf' (monthKeysOf RT parseDateText options rows) rows
  /\ NoDup (monthKeysOf RT parseDateText options rows)
  /\ (forall k, In k (monthKeysOf RT parseDateText options rows) <->
        exists row date, In row rows /\ counted row = Some date
                         /\ dateKey RT date = k).
Proof.
  destruct (taxTypeRow_fold rows [] []) as [E (Hnd & Hne & Hall)].
  { split; [constructor|]. split; [intros k []|intros r d []]. }
  cbn [app] in *. split; [exact E|]. split; [exact Hnd|].
  intros k. split.
  - intros Hk. apply rowsOfKey_In. now apply Hne.
  - intros (r & d & Hr & Hd & <-). exact (Hall r d Hr Hd).
Qed.

End TaxTypeLoop.

Lemma monthGroupOf_date (RT : Runtime) (parseDateText : jsstring -> option Z)
  (options : ProcessingOptions) (rows : list RowObject) (key : jsstring) :
  countedRowsOf RT parseDateText options key rows <> [] ->
  dateKey RT (dg_date (monthGroupOf RT parseDateText options rows key)) = key.
Proof.
  intros H. unfold monthGroupOf. cbv zeta. cbn [dg_date].
  destruct (countedRowsOf RT parseDateText options key rows) as [|r l] eqn:E;
    [contradiction|].
  assert (Hin : In r (countedRowsOf RT parseDateText options key rows))
    by (rewrite E; now left).
  unfold countedRowsOf in Hin. apply filter_In in Hin as [_ Hc].
  destruct (countedRow RT parseDateText options r); [|discriminate].
  now apply jsstring_eqb_eq.
Qed.


(** *** Sums by parts *)

Lemma num_add_assoc (a b c : number) :
  num_equiv (num_add (num_add a b) c) (num_add a (num_add b c)).
Proof.
  destruct a as [|p|[|]], b as [|q|[|]], c as [|r|[|]]; cbn; auto.
  ring.
Qed.

Lemma num_add_0_l (a : number) : num_equiv (num_add (Fin 0) a) a.
Proof. destruct a; cbn; auto. ring. Qed.

Lemma fold_num_add_shift (l : list number) :
  forall z, num_equiv (fold_left num_add l z)
                      (num_add z (fold_left num_add l (Fin 0))).
Proof.
  induction l as [|x l IH]; intros z; cbn [fold_left].
  - destruct z; cbn; auto. ring.
  - eapply num_equiv_trans; [apply IH|].
    eapply num_equiv_trans; [apply num_add_assoc|].
    apply num_add_equiv; [apply num_equiv_refl|].
    apply num_equiv_sym.
    eapply num_equiv_trans; [apply IH|].
    eapply num_equiv_trans; [apply num_add_assoc|].
    apply num_add_0_l.
Qed.

(** The sum of the sums of the parts is the sum of the whole. *)
Lemma fold_num_add_concat (ls : list (list number)) :
  forall z,
  num_equiv
    (fold_left num_add (map (fun l => fold_left num_add l (Fin 0)) ls) z)
    (fold_left num_add (concat ls) z).
Proof.
  induction ls as [|l ls IH]; intros z; cbn [map concat fold_left].
  - apply num_equiv_refl.
  - rewrite fold_left_app.
    eapply num_equiv_trans; [|apply IH].
    apply fold_num_add_equiv. apply num_equiv_sym, fold_num_add_shift.
Qed.

Lemma filter_filter_and {A} (f g : A -> bool) (l : list A) :
  filter f (filter g l) = filter (fun x => f x && g x) l.
Proof.
  induction l as [|x l IH]; [reflexivity|]. cbn [filter].
  destruct (g x); cbn [filter]; rewrite ?andb_true_r, ?andb_false_r;
    destruct (f x); rewrite IH; reflexivity.
Qed.

Lemma filter_disjoint_perm {A} (a b : A -> bool) (l : list A) :
  (forall x, In x l -> a x && b x = false) ->
  Permutation (filter a l ++ filter b l) (filter (fun x => a x || b x) l).
Proof.
  induction l as [|x l IH]; intros H; [constructor|].
  assert (IH' := IH (fun y Hy => H y (or_intror Hy))).
  specialize (H x (or_introl eq_refl)). cbn [filter].
  destruct (a x), (b x); cbn [orb app]; try discriminate.
  - now constructor.
  - apply Permutation_sym, Permutation_cons_app, Permutation_sym. exact IH'.
  - exact IH'.
Qed.

Section Conservation.

Variable RT : Runtime.
Variable parseDateText : jsstring -> option Z.
Variable options : ProcessingOptions.

Local Abbreviation counted := (countedRow RT parseDateText options).
Local Abbreviation rowsOfKey := (countedRowsOf RT parseDateText options).

Let keyIn (keys : list jsstring) (row : RowObject) : bool :=
  match counted row with
  | Some date => arr_includes keys (dateKey RT date)
  | None => false
  end.

Lemma rowsOfKey_partition (p : RowObject -> bool) (rows : list RowObject)
  (keys : list jsstring) :
  NoDup keys ->
  Permutation (flat_map (fun key => filter p (rowsOfKey key rows)) keys)
              (filter (fun row => p row && keyIn keys row) rows).
Proof.
  induction 1 as [|k ks Hnin Hnd IH]; cbn [flat_map].
  - induction rows as [|r rows IHr]; [constructor|]. cbn [filter].
    unfold keyIn at 1. destruct (counted r); now rewrite andb_false_r.
  - eapply Permutation_trans; [apply Permutation_app_head, IH|].
    unfold countedRowsOf. rewrite filter_filter_and.
    eapply Permutation_trans; [apply filter_disjoint_perm|].
    + intros r _. unfold keyIn. destruct (counted r) as [d|];
        [|now rewrite !andb_false_r].
      destruct (jsstring_eqb (dateKey RT d) k) eqn:E;
        [|now rewrite andb_false_r].
      apply jsstring_eqb_eq in E. subst k.
      destruct (arr_includes ks (dateKey RT d)) eqn:E';
        [|now rewrite !andb_false_r].
      apply arr_includes_In in E'. contradiction.
    + erewrite filter_ext; [apply Permutation_refl|].
      intros r. unfold keyIn, arr_includes. cbn [existsb].
      destruct (counted r) as [d|]; [|now rewrite !andb_false_r].
      rewrite (jsstring_eqb_sym (dateKey RT d) k).
      destruct (p r); reflexivity.
Qed.

Lemma sums_by_month (p : RowObject -> bool) (rows : list RowObject) :
  num_equiv
    (fold_left num_add
       (map (fun key =>
               fold_left num_add
                 (amountsOf options (filter p (rowsOfKey key rows))) (Fin 0))
            (monthKeysOf RT parseDateText options rows))
       (Fin 0))
    (fold_left num_add
       (amountsOf options
          (filter p (filter (fun row => match counted row with
                                        | Some _ => true
                                        | None => false
                                        end) rows)))
       (Fin 0)).
Proof.
  destruct (taxTypeLoop_groups RT parseDateText options rows)
    as (_ & Hnd & Hkeys).
  set (keys := monthKeysOf RT parseDateText options rows) in *.
  rewrite <- (map_map (fun key => amountsOf options
                                    (filter p (rowsOfKey key rows)))
                      (fun l => fold_left num_add l (Fin 0))).
  eapply num_equiv_trans; [apply fold_num_add_concat|].
  apply fold_num_add_perm. unfold amountsOf.
  replace (concat (map (fun key => map (rowAmount options)
                                      (filter p (rowsOfKey key rows))) keys))
    with (map (rowAmount options)
              (flat_map (fun key => filter p (rowsOfKey key rows)) keys)).
  2:{ rewrite flat_map_concat_map, concat_map, map_map. reflexivity. }
  apply Permutation_map.
  eapply Permutation_trans; [apply rowsOfKey_partition, Hnd|].
  rewrite filter_filter_and.
  erewrite filter_ext_in; [apply Permutation_refl|].
  intros r Hr. cbv beta. f_equal. unfold keyIn.
  destruct (counted r) as [d|] eqn:Hc; [|reflexivity].
  apply arr_includes_In, Hkeys. exists r, d. auto.
Qed.

End Conservation.

Lemma parseMonthlyDataWithTaxType_eq (RT : Runtime)
  (parseDateText : jsstring -> option Z) (options : ProcessingOptions)
  (rows : list RowObject) :
  parseMonthlyDataWithTaxType RT parseDateText rows options
  = map (fun key =>
           monthlyDataOf RT (monthGroupOf RT parseDateText options rows key))
        (monthKeysOf RT parseDateText options rows).
Proof.
  destruct (taxTypeLoop_groups RT parseDateText options rows) as (E & _).
  unfold parseMonthlyDataWithTaxType. rewrite E.
  unfold monthGroupsOf. rewrite map_map. reflexivity.
Qed.


(** ** Yearly totals *)

Lemma filter_by_keys_perm {A K} (hasKey : K -> A -> bool) (l : list A)
  (ks : list K) :
  (forall x k k', In k ks -> In k' ks -> k <> k' ->
                  hasKey k x && hasKey k' x = false) ->
  NoDup ks ->
  Permutation (flat_map (fun k => filter (hasKey k) l) ks)
              (filter (fun x => existsb (fun k => hasKey k x) ks) l).
Proof.
  intros Hdis Hnd. induction Hnd as [|k ks Hnin Hnd IH]; cbn [flat_map].
  - induction l as [|x l IHl]; [constructor|exact IHl].
  - eapply Permutation_trans.
    { apply Permutation_app_head, IH. intros x a b Ha Hb.
      apply Hdis; now right. }
    eapply Permutation_trans; [apply filter_disjoint_perm|].
    + intros x _. destruct (hasKey k x) eqn:E; [|reflexivity].
      cbn [andb]. apply not_true_is_false. intros Hex.
      apply existsb_exists in Hex as (k' & Hk' & E').
      assert (Hne : k <> k') by (intros ->; contradiction).
      pose proof (Hdis x k k' (or_introl eq_refl) (or_intror Hk') Hne) as D.
      rewrite E, E' in D. discriminate.
    + apply Permutation_refl.
Qed.

Lemma fold_num_add_pointwise {A} (f g : A -> number) (l : list A) :
  forall z1 z2,
  num_equiv
    (fold_left num_add (map (fun x => num_add (f x) (g x)) l) (num_add z1 z2))
    (num_add (fold_left num_add (map f l) z1) (fold_left num_add (map g l) z2)).
Proof.
  induction l as [|x l IH]; intros z1 z2; cbn [map fold_left].
  - apply num_equiv_refl.
  - eapply num_equiv_trans; [|apply IH].
    apply fold_num_add_equiv.
    destruct z1 as [|a|[|]], z2 as [|b|[|]], (f x) as [|c|[|]],
      (g x) as [|d|[|]]; cbn; auto.
    ring.
Qed.

Lemma sumOf_fold (f : MonthlyData -> number) (items : list MonthlyData) :
  sumOf f items = fold_left num_add (map f items) (Fin 0).
Proof. unfold sumOf. apply fold_left_map_num. Qed.

Lemma sums_by_key (f : MonthlyData -> number) (data : list MonthlyData) :
  Forall (fun it => nonNegative (keyOf it)) data ->
  num_equiv
    (fold_left (fun s k => num_add s (sumOf f (recordsOf k data)))
               (keysOf data) (Fin 0))
    (fold_left num_add (map f data) (Fin 0)).
Proof.
  intros H. destruct (groupByYearMonth_spec data H) as (_ & _ & Hnd & Hin).
  rewrite fold_left_map_num.
  erewrite map_ext; [|intros k; apply sumOf_fold].
  rewrite <- (map_map (fun k => map f (recordsOf k data))
                      (fun l => fold_left num_add l (Fin 0))).
  eapply num_equiv_trans; [apply fold_num_add_concat|].
  apply fold_num_add_perm.
  replace (concat (map (fun k => map f (recordsOf k data)) (keysOf data)))
    with (map f (flat_map (fun k => recordsOf k data) (keysOf data))).
  2:{ rewrite flat_map_concat_map, concat_map, map_map. reflexivity. }
  apply Permutation_map. unfold recordsOf.
  eapply Permutation_trans.
  { apply (filter_by_keys_perm (fun k item => ym_eqb (keyOf item) k));
      [|exact Hnd].
    intros x k k' _ _ Hne. destruct (ym_eqb (keyOf x) k) eqn:E; [|reflexivity].
    apply ym_eqb_eq in E. subst k. cbn [andb]. now apply ym_eqb_neq. }
  rewrite forallb_filter_id; [apply Permutation_refl|].
  apply forallb_forall. intros x Hx. apply existsb_exists.
  exists (keyOf x). split; [|apply ym_eqb_refl].
  apply Hin. now exists x.
Qed.



(** ** Two-row headers *)

Lemma detectMultiRowHeaders_shape (RT : Runtime) (data : Grid) (p : nat) :
  let m := detectMultiRowHeaders RT data p in
  (isMultiRow m = false /\ headerRows m = [p]
   \/ isMultiRow m = true
      /\ (headerRows m = [p; p + 1] \/ 1 <= p /\ headerRows m = [p - 1; p]))
  /\ (length data <= p + 1 ->
      isMultiRow m = false /\ headerRows m = [p])
  /\ (p < length data -> Forall (fun r => r < length data) (headerRows m))
  /\ In p (headerRows m).
Proof.
  cbv zeta. unfold detectMultiRowHeaders.
  destruct (Nat.leb_spec (length data) (p + 1)) as [Hlast|Hnext].
  - cbn [isMultiRow headerRows]. split; [now left|]. split; [auto|].
    split; [|now left]. intros Hp. constructor; [exact Hp|constructor].
  - cbv zeta. cbn [isMultiRow headerRows].
    match goal with
    | |- context [if ?b then (if ?c then _ else _) else _] =>
      destruct b eqn:Eb; [destruct c eqn:Ec|]
    end.
    + (* the row above and the given row *)
      apply andb_prop in Ec as [_ Ec]. apply andb_prop in Ec as [Ep _].
      apply Nat.leb_le in Ep.
      split; [|split; [|split]].
      * right. split; [reflexivity|]. right. split; [exact Ep|reflexivity].
      * intros H. lia.
      * intros Hp. repeat (constructor; [lia|]). constructor.
      * right. now left.
    + split; [|split; [|split]].
      * right. split; [reflexivity|]. now left.
      * intros H. lia.
      * intros Hp. repeat (constructor; [lia|]). constructor.
      * now left.
    + split; [|split; [|split]].
      * now left.
      * intros H. lia.
      * intros Hp. repeat (constructor; [lia|]). constructor.
      * now left.
Qed.

(** X6. [detectMultiRowHeaders] answers with the given row alone, or with
    the given row and the next one, or with the row before and the given
    row; it says that the header has two rows exactly when it names two.
    When the given row is the last row of the grid or lies beyond it the
    answer is the given row alone; when the given row is a row of the grid,
    so is every row named. *)
Theorem detectMultiRowHeaders_rows (RT : Runtime) (data : Grid) (p : nat) :
  let m := detectMultiRowHeaders RT data p in
  (isMultiRow m = false /\ headerRows m = [p]
   \/ isMultiRow m = true
      /\ (headerRows m = [p; p + 1] \/ 1 <= p /\ headerRows m = [p - 1; p]))
  /\ (length data <= p + 1 ->
      isMultiRow m = false /\ headerRows m = [p])
  /\ (p < length data -> Forall (fun r => r < length data) (headerRows m))
  /\ In p (headerRows m).
Proof. exact (detectMultiRowHeaders_shape RT data p). Qed.

Lemma detectMultiRowHeaders_rows_witness :
  let m := detectMultiRowHeaders exampleRuntime parentChildSheet 1 in
  isMultiRow m = false /\ headerRows m = [1].
Proof.
  destruct (detectMultiRowHeaders_rows exampleRuntime parentChildSheet 1)
    as (_ & H & _).
  apply H. cbn. lia.
Defined.

(** X7. On a grid with at least one row, [detectHeaderRow] returns a row
    among the first ten rows of the grid, and the header rows it names are
    rows of the grid: one row, or two adjacent rows when the header is said
    to have two rows.  Its row and confidence are as without the two-row
    analysis. *)
Theorem detectHeaderRowFull_rows (RT : Runtime) (data : Grid) :
  data <> [] ->
  exists d,
    detectHeaderRowFull RT data = Return d
    /\ detectHeaderRow RT data = Return (fd_detection d)
    /\ headerRow (fd_detection d) < Nat.min 10 (length data)
    /\ Forall (fun r => r < length data) (headerRowsOf d)
    /\ In (headerRow (fd_detection d)) (headerRowsOf d)
    /\ (isMultiRowHeaderOf d = true ->
        exists r, headerRowsOf d = [r; r + 1])
    /\ (isMultiRowHeaderOf d = false ->
        headerRowsOf d = [headerRow (fd_detection d)]).
Proof.
  intros Hne. unfold detectHeaderRowFull, detectHeaderRow.
  destruct data as [|row0 data']; [contradiction|].
  set (data := row0 :: data') in *.
  change (length data =? 0) with false. cbv iota.
  pose proof (hd_Array_sort_byScore (candidatesOf RT data)) as Hhd.
  destruct (Array_sort byScoreDescending (candidatesOf RT data))
    as [|best rest] eqn:Es.
  - eexists. split; [reflexivity|]. split; [reflexivity|].
    unfold headerRowsOf, isMultiRowHeaderOf.
    cbn [fd_detection fd_multiRow headerRow]. unfold data. cbn [length].
    repeat split.
    + lia.
    + constructor; [lia|constructor].
    + now left.
    + discriminate.
  - cbn [hd_error] in Hhd. symmetry in Hhd.
    pose proof (firstBest_split (candidatesOf RT data)) as Hsplit.
    rewrite Hhd in Hsplit. destruct Hsplit as (l1 & l2 & El & _).
    assert (Hin : In best (candidatesOf RT data))
      by (rewrite El; apply in_elt).
    apply candidatesOf_In in Hin as (Hrow & _).
    eexists. split; [reflexivity|]. split; [reflexivity|].
    unfold headerRowsOf, isMultiRowHeaderOf.
    cbn [fd_detection fd_multiRow headerRow].
    assert (Hlt : cand_row best < length data) by lia.
    destruct (detectMultiRowHeaders_shape RT data (cand_row best))
      as (Hshape & _ & Hall & Hp).
    split; [exact Hrow|]. split; [exact (Hall Hlt)|]. split; [exact Hp|].
    split.
    + intros Hm. destruct Hshape as [[E _]|[_ [E|[H1 E]]]].
      * congruence.
      * eauto.
      * exists (cand_row best - 1). rewrite E. f_equal. f_equal. lia.
    + intros Hm. destruct Hshape as [[_ E]|[E _]]; [exact E|congruence].
Qed.

Lemma detectHeaderRowFull_rows_witness :
  exists d,
    detectHeaderRowFull exampleRuntime reportSheet = Return d
    /\ headerRow (fd_detection d) < 5.
Proof.
  destruct (detectHeaderRowFull_rows exampleRuntime reportSheet
              ltac:(discriminate)) as (d & E & _ & H & _).
  exists d. split; [exact E|exact H].
Defined.

(** ** Regular expressions *)

Lemma isDigit_tenDigits (c : N) : isDigit c = true -> In c tenDigits.
Proof.
  unfold isDigit. intros H. apply andb_prop in H as [H1 H2].
  apply N.leb_le in H1. apply N.leb_le in H2.
  assert (E : (c = 48 \/ c = 49 \/ c = 50 \/ c = 51 \/ c = 52 \/ c = 53
               \/ c = 54 \/ c = 55 \/ c = 56 \/ c = 57)%N) by lia.
  unfold tenDigits. cbn [In]. intuition auto.
Qed.

Lemma sameOnDigits_spec (p : N -> bool) (a b : N) :
  sameOnDigits p = true -> isDigit a = true -> isDigit b = true -> p a = p b.
Proof.
  intros H Ha Hb. apply isDigit_tenDigits in Ha, Hb.
  unfold sameOnDigits in H. apply orb_prop in H as [H|H];
    rewrite forallb_forall in H.
  - now rewrite (H a Ha), (H b Hb).
  - pose proof (H a Ha) as Pa. pose proof (H b Hb) as Pb.
    apply negb_true_iff in Pa, Pb. congruence.
Qed.

Section Substitution.

Variable ds : list N.
Hypothesis Hds : forallb isDigit ds = true.

Local Abbreviation sigma := (substDigits ds).

Lemma substDigits_digit (c : N) : isDigit (sigma c) = isDigit c.
Proof.
  unfold substDigits. destruct (isDigit c) eqn:E; [|exact E].
  destruct (nth_in_or_default (N.to_nat (c - 48)) ds c) as [Hin | ->];
    [|exact E].
  rewrite forallb_forall in Hds. now apply Hds.
Qed.

Lemma substDigits_class (p : N -> bool) (c : N) :
  sameOnDigits p = true -> p (sigma c) = p c.
Proof.
  intros H. destruct (isDigit c) eqn:E.
  - apply (sameOnDigits_spec p _ _ H); [|exact E].
    now rewrite substDigits_digit.
  - unfold substDigits. now rewrite E.
Qed.

Lemma substDigits_char (c x : N) :
  isDigit c = false -> (c =? sigma x)%N = (c =? x)%N.
Proof.
  intros Hc. destruct (isDigit x) eqn:E.
  - assert (E' : isDigit (sigma x) = true) by now rewrite substDigits_digit.
    destruct (N.eqb_spec c (sigma x)) as [->|_]; [congruence|].
    destruct (N.eqb_spec c x) as [->|_]; [congruence|reflexivity].
  - unfold substDigits. now rewrite E.
Qed.

Lemma repeatGreedy_subst {X Y} (g : X -> Y) (p : N -> bool)
  (k : jsstring -> option X) (k' : jsstring -> option Y) :
  sameOnDigits p = true ->
  (forall rest, k' (map sigma rest) = option_map g (k rest)) ->
  forall (s : jsstring) (min : nat) (max : option nat),
  repeatGreedy p min max (map sigma s) k'
  = option_map g (repeatGreedy p min max s k).
Proof.
  intros Hp Hk. induction s as [|c s IH]; intros min max;
    cbn [map repeatGreedy].
  - destruct min; [apply (Hk [])|reflexivity].
  - rewrite (substDigits_class p c Hp).
    assert (Hstop : match min with 0 => k' (sigma c :: map sigma s)
                               | S _ => None end
                    = option_map g (match min with 0 => k (c :: s)
                                               | S _ => None end)).
    { destruct min; [apply (Hk (c :: s))|reflexivity]. }
    destruct (p c && match max with Some 0 => false | _ => true end);
      [|exact Hstop].
    rewrite IH.
    destruct (repeatGreedy p (pred min) (option_map pred max) s k);
      [reflexivity|exact Hstop].
Qed.

Lemma matchFrom_subst (r : Regex) :
  digitBlind r = true ->
  forall {X Y} (g : X -> Y)
         (k : jsstring -> list jsstring -> option X)
         (k' : jsstring -> list jsstring -> option Y),
  (forall rest caps,
     k' (map sigma rest) (map (map sigma) caps) = option_map g (k rest caps)) ->
  forall s caps,
  matchFrom r (map sigma s) (map (map sigma) caps) k'
  = option_map g (matchFrom r s caps k).
Proof.
  induction r as [|c|p|p min max|a IHa b IHb|a IHa b IHb|r IH];
    intros Hr X Y g k k' Hk s caps; cbn [digitBlind] in Hr;
    cbn [matchFrom].
  - apply Hk.
  - apply negb_true_iff in Hr. destruct s as [|x s]; [reflexivity|].
    cbn [map]. rewrite (substDigits_char c x Hr).
    destruct (c =? x)%N; [apply Hk|reflexivity].
  - destruct s as [|x s]; [reflexivity|].
    cbn [map]. rewrite (substDigits_class p x Hr).
    destruct (p x); [apply Hk|reflexivity].
  - apply (repeatGreedy_subst g p); [exact Hr|].
    intros rest. apply Hk.
  - apply andb_prop in Hr as [Ha Hb].
    apply (IHa Ha). intros rest caps'. now apply (IHb Hb).
  - apply andb_prop in Hr as [Ha Hb].
    rewrite (IHa Ha _ _ g k k' Hk).
    destruct (matchFrom a s caps k); [reflexivity|].
    now apply (IHb Hb).
  - apply (IH Hr). intros rest caps'.
    rewrite <- Hk. rewrite map_app. cbn [map].
    now rewrite firstn_map, !length_map.
Qed.

(** A pattern that tells no digit from another matches a text with its
    digits replaced as it matches the text, the captures being those of the
    text with their digits replaced. *)
Lemma matchWhole_subst (r : Regex) (s : jsstring) :
  digitBlind r = true ->
  matchWhole r (map sigma s)
  = option_map (map (map sigma)) (matchWhole r s).
Proof.
  intros Hr. unfold matchWhole.
  apply (matchFrom_subst r Hr (map (map sigma)) _ _) with (caps := []).
  intros rest caps. destruct rest; reflexivity.
Qed.

Lemma matchPrefix_subst (r : Regex) (s : jsstring) :
  digitBlind r = true ->
  matchFrom r (map sigma s) [] (fun _ caps => Some caps)
  = option_map (map (map sigma))
               (matchFrom r s [] (fun _ caps => Some caps)).
Proof.
  intros Hr.
  exact (matchFrom_subst r Hr (map (map sigma))
           (fun _ caps => Some caps) (fun _ caps => Some caps)
           (fun _ _ => eq_refl) s []).
Qed.

Lemma matchFirst_subst (r : Regex) (s : jsstring) :
  digitBlind r = true ->
  matchFirst r (map sigma s)
  = option_map (map (map sigma)) (matchFirst r s).
Proof.
  intros Hr. induction s as [|c s IH].
  - change (map sigma []) with (@nil N) at 1. cbn [matchFirst].
    pose proof (matchPrefix_subst r [] Hr) as E. cbn [map] in E.
    destruct (matchFrom r [] [] (fun _ caps => Some caps));
      [exact E|reflexivity].
  - change (map sigma (c :: s)) with (sigma c :: map sigma s).
    cbn [matchFirst].
    change (sigma c :: map sigma s) with (map sigma (c :: s)).
    rewrite (matchPrefix_subst r (c :: s) Hr).
    destruct (matchFrom r (c :: s) [] (fun _ caps => Some caps));
      [reflexivity|exact IH].
Qed.

End Substitution.

(** ** [parseInt] *)

Lemma digitOfBase_ten (c : N) :
  isDigit c = true -> digitOfBase 10 c = Some (c - 48)%N.
Proof.
  intros H. unfold digitOfBase. rewrite H.
  unfold isDigit in H. apply andb_prop in H as [H1 H2].
  apply N.leb_le in H1. apply N.leb_le in H2.
  destruct (N.ltb_spec (c - 48) 10); [reflexivity|lia].
Qed.

Lemma takeWhile_digits (s : jsstring) :
  forallb isDigit s = true ->
  takeWhile (fun c => match digitOfBase 10 c with
                      | Some _ => true
                      | None => false
                      end) s = s.
Proof.
  induction s as [|c s IH]; [reflexivity|]. cbn [forallb takeWhile].
  intros H. apply andb_prop in H as [Hc Hs].
  rewrite (digitOfBase_ten c Hc). now rewrite IH.
Qed.

Lemma valueInBase_digits (s : jsstring) :
  forallb isDigit s = true ->
  forall acc, valueInBase 10 acc s = Some (decFold acc s).
Proof.
  unfold decFold. induction s as [|c s IH]; [reflexivity|].
  cbn [forallb valueInBase fold_left]. intros H acc.
  apply andb_prop in H as [Hc Hs].
  rewrite (digitOfBase_ten c Hc). now apply IH.
Qed.

Lemma parseInt_digits (s : jsstring) :
  forallb isDigit s = true -> s <> [] ->
  parseInt s = Some (Z.of_N (decValue s)).
Proof.
  intros Hd Hne. unfold parseInt. rewrite (trimStart_digits s Hd).
  destruct s as [|c s]; [contradiction|].
  pose proof Hd as Hd'. cbn [forallb] in Hd'.
  apply andb_prop in Hd' as [Hc Hs].
  assert (Hfin : match takeWhile (fun c => match digitOfBase 10 c with
                                           | Some _ => true
                                           | None => false
                                           end) (c :: s),
                       valueInBase 10 0
                         (takeWhile (fun c => match digitOfBase 10 c with
                                              | Some _ => true
                                              | None => false
                                              end) (c :: s)) with
                 | _ :: _, Some v => Some (Z.of_N v)
                 | _, _ => None
                 end = Some (Z.of_N (decValue (c :: s)))).
  { rewrite (takeWhile_digits _ Hd), (valueInBase_digits _ Hd). reflexivity. }
  apply isDigit_tenDigits in Hc. cbn [tenDigits In] in Hc.
  destruct Hc as [<-|Hc].
  - (* a leading zero: the next character is not an x *)
    destruct s as [|x s]; [exact Hfin|].
    cbn [forallb] in Hs. apply andb_prop in Hs as [Hx _].
    assert (Ex : ((x =? 120) || (x =? 88))%N = false).
    { apply isDigit_tenDigits in Hx. cbn [tenDigits In] in Hx.
      repeat (destruct Hx as [<-|Hx]; [reflexivity|]). contradiction. }
    cbv beta iota. rewrite Ex. exact Hfin.
  - repeat (destruct Hc as [<-|Hc]; [exact Hfin|]). contradiction.
Qed.

(** ** Dates read from texts *)

Lemma trimStart_cons (a : N) (s : jsstring) :
  isWhiteSpace a = false -> trimStart (a :: s) = a :: s.
Proof. intros Ha. cbn [trimStart]. now rewrite Ha. Qed.

Lemma trim_ends (a b : N) (mid : jsstring) :
  isWhiteSpace a = false -> isWhiteSpace b = false ->
  trim (a :: mid ++ [b]) = a :: mid ++ [b].
Proof.
  intros Ha Hb. unfold trim, trimEnd. rewrite (trimStart_cons a _ Ha).
  change (a :: mid ++ [b]) with ((a :: mid) ++ [b]).
  rewrite rev_unit, (trimStart_cons b _ Hb).
  change (rev (b :: rev (a :: mid))) with (rev (rev (a :: mid)) ++ [b]).
  now rewrite rev_involutive.
Qed.

Lemma trim_single (a : N) : isWhiteSpace a = false -> trim [a] = [a].
Proof.
  intros Ha. unfold trim, trimEnd. cbn [trimStart rev app]. rewrite Ha.
  cbn [rev app trimStart]. now rewrite Ha.
Qed.

Lemma orTry_same {A} (a : option A) : orTry a a = a.
Proof. now destruct a. Qed.

Lemma forallb_digits_app (a b : jsstring) :
  forallb isDigit (a ++ b) = true ->
  forallb isDigit a = true /\ forallb isDigit b = true.
Proof. rewrite forallb_app. apply andb_prop. Qed.

Lemma dateOfFields_within (DRT : DateRuntime) (y m d : Z) :
  (1900 <= y <= 2100)%Z -> (1 <= m <= 12)%Z -> (1 <= d <= 31)%Z ->
  dateOfFields DRT (Some y) (Some m) (Some d)
  = Some (newDate DRT y (m - 1) d 0 0 0).
Proof.
  intros Hy Hm Hd. unfold dateOfFields, within, field.
  repeat match goal with
         | |- context [(?a <=? ?b)%Z] =>
           destruct (Z.leb_spec a b); [|lia]
         end.
  reflexivity.
Qed.

Lemma monthOfFields_within (DRT : DateRuntime) (y m : Z) :
  (1900 <= y <= 2100)%Z -> (1 <= m <= 12)%Z ->
  monthOfFields DRT (Some y) (Some m) = Some (newDate DRT y (m - 1) 1 0 0 0).
Proof.
  intros Hy Hm. unfold monthOfFields, within, field.
  repeat match goal with
         | |- context [(?a <=? ?b)%Z] =>
           destruct (Z.leb_spec a b); [|lia]
         end.
  reflexivity.
Qed.

(** The evaluation of the strategies on a text of a given shape: the text
    is the shape with its digits replaced, every pattern is run on the
    shape, and the digits are put back in the captures. *)
Ltac unfold_strategies :=
  unfold parseDateString, parseDateRange, parseKoreanRange, parseMonthRange,
    parseIsoDateRange, parseCompactRange, parseYearMonth, parseKoreanAmPm,
    parseDateTime, parseYearMonthDay, parseUsDate, parseEuropeanDate,
    parseSikbomDay.

Ltac eval_patterns :=
  repeat match goal with
  | |- context [matchWhole ?p (map (substDigits ?l) ?t)] =>
    rewrite (matchWhole_subst l ltac:(assumption) p t
               ltac:(vm_compute; reflexivity));
    let v := eval vm_compute in (matchWhole p t) in
    change (matchWhole p t) with v
  end.

Ltac put_digits_back :=
  repeat match goal with
  | |- context [map (substDigits ?l) ?t] =>
    let v := eval vm_compute in (map (substDigits l) t) in
    change (map (substDigits l) t) with v
  | |- context [substDigits ?l ?c] =>
    let v := eval vm_compute in (substDigits l c) in
    change (substDigits l c) with v
  end.

Ltac by_shape l t :=
  match goal with
  | |- parseDateString _ _ _ ?text = _ =>
    change text with (map (substDigits l) t)
  end;
  unfold_strategies; eval_patterns;
  cbn [option_map map orTry splitOn]; put_digits_back;
  rewrite ?orTry_same.

Section DateFormats.

Variable RT : Runtime.
Variable DRT : DateRuntime.
Variable ctx : option (Z * Z).

Lemma iso_date_strategies (ys ms ds : jsstring) :
  forallb isDigit (ys ++ ms ++ ds) = true ->
  length ys = 4 -> 1 <= length ms <= 2 -> 1 <= length ds <= 2 ->
  parseDateString RT DRT ctx (ys ++ js "-" ++ ms ++ js "-" ++ ds)
  = orTry (dateOfFields DRT (parseInt ys) (parseInt ms) (parseInt ds))
          (nativeDate RT DRT (ys ++ js "-" ++ ms ++ js "-" ++ ds)).
Proof.
  intros Hd Hy Hm Hday.
  destruct ys as [|y1 [|y2 [|y3 [|y4 [|]]]]]; try discriminate Hy.
  destruct ms as [|m1 [|m2 [|]]]; cbn [length] in Hm; try (exfalso; lia);
  destruct ds as [|d1 [|d2 [|]]]; cbn [length] in Hday; try (exfalso; lia);
  cbn [app] in Hd.
  - by_shape [y1; y2; y3; y4; m1; d1] (js "0123-4-5"). reflexivity.
  - by_shape [y1; y2; y3; y4; m1; d1; d2] (js "0123-4-56"). reflexivity.
  - by_shape [y1; y2; y3; y4; m1; m2; d1] (js "0123-45-6"). reflexivity.
  - by_shape [y1; y2; y3; y4; m1; m2; d1; d2] (js "0123-45-67"). reflexivity.
Qed.

Lemma dot_date_strategies (ys ms ds : jsstring) :
  forallb isDigit (ys ++ ms ++ ds) = true ->
  length ys = 4 -> 1 <= length ms <= 2 -> 1 <= length ds <= 2 ->
  parseDateString RT DRT ctx (ys ++ js "." ++ ms ++ js "." ++ ds)
  = orTry (dateOfFields DRT (parseInt ys) (parseInt ms) (parseInt ds))
          (nativeDate RT DRT (ys ++ js "." ++ ms ++ js "." ++ ds)).
Proof.
  intros Hd Hy Hm Hday.
  destruct ys as [|y1 [|y2 [|y3 [|y4 [|]]]]]; try discriminate Hy.
  destruct ms as [|m1 [|m2 [|]]]; cbn [length] in Hm; try (exfalso; lia);
  destruct ds as [|d1 [|d2 [|]]]; cbn [length] in Hday; try (exfalso; lia);
  cbn [app] in Hd.
  - by_shape [y1; y2; y3; y4; m1; d1] (js "0123.4.5"). reflexivity.
  - by_shape [y1; y2; y3; y4; m1; d1; d2] (js "0123.4.56"). reflexivity.
  - by_shape [y1; y2; y3; y4; m1; m2; d1] (js "0123.45.6"). reflexivity.
  - by_shape [y1; y2; y3; y4; m1; m2; d1; d2] (js "0123.45.67"). reflexivity.
Qed.

Lemma korean_date_strategies (ys ms ds sp1 sp2 : jsstring) :
  forallb isDigit (ys ++ ms ++ ds) = true ->
  length ys = 4 -> 1 <= length ms <= 2 -> 1 <= length ds <= 2 ->
  (sp1 = [] \/ sp1 = js " ") -> (sp2 = [] \/ sp2 = js " ") ->
  parseDateString RT DRT ctx
    (ys ++ js "년" ++ sp1 ++ ms ++ js "월" ++ sp2 ++ ds ++ js "일")
  = orTry (dateOfFields DRT (parseInt ys) (parseInt ms) (parseInt ds))
          (nativeDate RT DRT
             (ys ++ js "년" ++ sp1 ++ ms ++ js "월" ++ sp2 ++ ds ++ js "일")).
Proof.
  intros Hd Hy Hm Hday H1 H2.
  destruct ys as [|y1 [|y2 [|y3 [|y4 [|]]]]]; try discriminate Hy.
  destruct ms as [|m1 [|m2 [|]]]; cbn [length] in Hm; try (exfalso; lia);
  destruct ds as [|d1 [|d2 [|]]]; cbn [length] in Hday; try (exfalso; lia);
  cbn [app] in Hd; destruct H1 as [-> | ->]; destruct H2 as [-> | ->].
  - by_shape [y1; y2; y3; y4; m1; d1] (js "0123년4월5일"). reflexivity.
  - by_shape [y1; y2; y3; y4; m1; d1] (js "0123년4월 5일"). reflexivity.
  - by_shape [y1; y2; y3; y4; m1; d1] (js "0123년 4월5일"). reflexivity.
  - by_shape [y1; y2; y3; y4; m1; d1] (js "0123년 4월 5일"). reflexivity.
  - by_shape [y1; y2; y3; y4; m1; d1; d2] (js "0123년4월56일"). reflexivity.
  - by_shape [y1; y2; y3; y4; m1; d1; d2] (js "0123년4월 56일"). reflexivity.
  - by_shape [y1; y2; y3; y4; m1; d1; d2] (js "0123년 4월56일"). reflexivity.
  - by_shape [y1; y2; y3; y4; m1; d1; d2] (js "0123년 4월 56일"). reflexivity.
  - by_shape [y1; y2; y3; y4; m1; m2; d1] (js "0123년45월6일"). reflexivity.
  - by_shape [y1; y2; y3; y4; m1; m2; d1] (js "0123년45월 6일"). reflexivity.
  - by_shape [y1; y2; y3; y4; m1; m2; d1] (js "0123년 45월6일"). reflexivity.
  - by_shape [y1; y2; y3; y4; m1; m2; d1] (js "0123년 45월 6일"). reflexivity.
  - by_shape [y1; y2; y3; y4; m1; m2; d1; d2] (js "0123년45월67일").
    reflexivity.
  - by_shape [y1; y2; y3; y4; m1; m2; d1; d2] (js "0123년45월 67일").
    reflexivity.
  - by_shape [y1; y2; y3; y4; m1; m2; d1; d2] (js "0123년 45월67일").
    reflexivity.
  - by_shape [y1; y2; y3; y4; m1; m2; d1; d2] (js "0123년 45월 67일").
    reflexivity.
Qed.

Lemma slash_date_strategies (ps qs ys : jsstring) :
  forallb isDigit (ps ++ qs ++ ys) = true ->
  1 <= length ps <= 2 -> 1 <= length qs <= 2 -> length ys = 4 ->
  parseDateString RT DRT ctx (ps ++ js "/" ++ qs ++ js "/" ++ ys)
  = orTry (dateOfFields DRT (parseInt ys) (parseInt ps) (parseInt qs))
      (orTry (if within 13 31 (parseInt ps)
              then dateOfFields DRT (parseInt ys) (parseInt qs) (parseInt ps)
              else None)
             (nativeDate RT DRT (ps ++ js "/" ++ qs ++ js "/" ++ ys))).
Proof.
  intros Hd Hp Hq Hy.
  destruct ys as [|y1 [|y2 [|y3 [|y4 [|]]]]]; try discriminate Hy.
  destruct ps as [|p1 [|p2 [|]]]; cbn [length] in Hp; try (exfalso; lia);
  destruct qs as [|q1 [|q2 [|]]]; cbn [length] in Hq; try (exfalso; lia);
  cbn [app] in Hd.
  - by_shape [p1; q1; y1; y2; y3; y4] (js "0/1/2345"). reflexivity.
  - by_shape [p1; q1; q2; y1; y2; y3; y4] (js "0/12/3456"). reflexivity.
  - by_shape [p1; p2; q1; y1; y2; y3; y4] (js "01/2/3456"). reflexivity.
  - by_shape [p1; p2; q1; q2; y1; y2; y3; y4] (js "01/23/4567"). reflexivity.
Qed.

Lemma year_month_strategies (ys ms : jsstring) :
  forallb isDigit (ys ++ ms) = true ->
  length ys = 4 -> 1 <= length ms <= 2 ->
  parseDateString RT DRT ctx (ys ++ js "." ++ ms)
  = orTry (monthOfFields DRT (parseInt ys) (parseInt ms))
          (nativeDate RT DRT (ys ++ js "." ++ ms))
  /\ parseDateString RT DRT ctx (ys ++ js "년" ++ ms ++ js "월")
     = orTry (monthOfFields DRT (parseInt ys) (parseInt ms))
             (nativeDate RT DRT (ys ++ js "년" ++ ms ++ js "월"))
  /\ parseDateString RT DRT ctx (ys ++ js "년 " ++ ms ++ js "월")
     = orTry (monthOfFields DRT (parseInt ys) (parseInt ms))
             (nativeDate RT DRT (ys ++ js "년 " ++ ms ++ js "월")).
Proof.
  intros Hd Hy Hm.
  destruct ys as [|y1 [|y2 [|y3 [|y4 [|]]]]]; try discriminate Hy.
  destruct ms as [|m1 [|m2 [|]]]; cbn [length] in Hm; try (exfalso; lia);
  cbn [app] in Hd; (split; [|split]).
  - by_shape [y1; y2; y3; y4; m1] (js "0123.4"). reflexivity.
  - by_shape [y1; y2; y3; y4; m1] (js "0123년4월"). reflexivity.
  - by_shape [y1; y2; y3; y4; m1] (js "0123년 4월"). reflexivity.
  - by_shape [y1; y2; y3; y4; m1; m2] (js "0123.45"). reflexivity.
  - by_shape [y1; y2; y3; y4; m1; m2] (js "0123년45월"). reflexivity.
  - by_shape [y1; y2; y3; y4; m1; m2] (js "0123년 45월"). reflexivity.
Qed.

End DateFormats.

Lemma trim_nonspace (s : jsstring) :
  isWhiteSpace (hd 32%N s) = false -> isWhiteSpace (last s 32%N) = false ->
  trim s = s.
Proof.
  destruct s as [|a s]; [reflexivity|]. cbn [hd]. intros Ha Hb.
  destruct s as [|c s] using rev_ind; [now apply trim_single|].
  clear IHs. rewrite app_comm_cons, last_last in Hb.
  now apply trim_ends.
Qed.

Lemma last_app_r {A} (l l' : list A) (d : A) :
  l' <> [] -> last (l ++ l') d = last l' d.
Proof.
  intros H. destruct l' as [|x l'] using rev_ind; [contradiction|].
  now rewrite app_assoc, !last_last.
Qed.

Lemma hd_digits (s rest : jsstring) :
  forallb isDigit s = true -> s <> [] ->
  isWhiteSpace (hd 32%N (s ++ rest)) = false.
Proof.
  destruct s as [|c s]; [contradiction|]. cbn [forallb app hd]. intros H _.
  apply andb_prop in H as [H _]. now apply digit_not_space.
Qed.

Lemma last_digits (s : jsstring) :
  forallb isDigit s = true -> s <> [] ->
  isWhiteSpace (last s 32%N) = false.
Proof.
  intros H Hne. destruct s as [|c s] using rev_ind; [contradiction|].
  rewrite last_last. rewrite forallb_app in H.
  apply andb_prop in H as [_ H]. cbn [forallb] in H.
  apply andb_prop in H as [H _]. now apply digit_not_space.
Qed.

Lemma parseDateIn_text (RT : Runtime) (DRT : DateRuntime)
  (ctx : option (Z * Z)) (text : jsstring) :
  text <> [] ->
  isWhiteSpace (hd 32%N text) = false ->
  isWhiteSpace (last text 32%N) = false ->
  parseDateIn RT DRT ctx (CStr text) = parseDateString RT DRT ctx text.
Proof.
  intros Hne Hh Hl. unfold parseDateIn. destruct text as [|c s];
    [contradiction|].
  cbn [parseDate]. now rewrite (trim_nonspace _ Hh Hl).
Qed.

Lemma length_nonempty {A} (l : list A) : 1 <= length l -> l <> [].
Proof. destruct l; cbn; [lia|discriminate]. Qed.

(** X8. A text made of a year of four digits, a month and a day of one or
    two digits each, written as [yyyy-M-D], as [yyyy.M.D] or as
    [yyyy년 M월 D일] (with or without the spaces), is read by the strategy
    of its notation: when the year lies in 1900..2100, the month in 1..12
    and the day in 1..31 the date is [new Date(year, month - 1, day)], and
    otherwise it is what the runtime's own parser makes of the text, if
    that is a date of the years 1900..2100.  No earlier strategy takes the
    text. *)
Theorem parseDate_year_month_day (RT : Runtime) (DRT : DateRuntime)
  (ctx : option (Z * Z)) (ys ms ds text : jsstring) :
  forallb isDigit (ys ++ ms ++ ds) = true ->
  length ys = 4 -> 1 <= length ms <= 2 -> 1 <= length ds <= 2 ->
  text = ys ++ js "-" ++ ms ++ js "-" ++ ds
  \/ text = ys ++ js "." ++ ms ++ js "." ++ ds
  \/ (exists sp1 sp2,
        (sp1 = [] \/ sp1 = js " ") /\ (sp2 = [] \/ sp2 = js " ")
        /\ text = ys ++ js "년" ++ sp1 ++ ms ++ js "월" ++ sp2 ++ ds
                     ++ js "일") ->
  let year := Z.of_N (decValue ys) in
  let month := Z.of_N (decValue ms) in
  let day := Z.of_N (decValue ds) in
  parseDateIn RT DRT ctx (CStr text)
  = orTry (dateOfFields DRT (Some year) (Some month) (Some day))
          (nativeDate RT DRT text)
  /\ ((1900 <= year <= 2100)%Z -> (1 <= month <= 12)%Z ->
      (1 <= day <= 31)%Z ->
      parseDateIn RT DRT ctx (CStr text)
      = Some (newDate DRT year (month - 1) day 0 0 0)).
Proof.
  intros Hd Hy Hm Hday Htext year month day.
  pose proof Hd as Hd'. apply forallb_digits_app in Hd' as [Hys Hd'].
  apply forallb_digits_app in Hd' as [Hms Hds].
  assert (Nys : ys <> []) by (destruct ys; [discriminate|discriminate]).
  assert (Nms : ms <> []) by (apply length_nonempty; lia).
  assert (Nds : ds <> []) by (apply length_nonempty; lia).
  assert (E : parseDateIn RT DRT ctx (CStr text)
              = orTry (dateOfFields DRT (Some year) (Some month) (Some day))
                      (nativeDate RT DRT text)).
  { unfold year, month, day.
    rewrite <- (parseInt_digits ys Hys Nys), <- (parseInt_digits ms Hms Nms),
      <- (parseInt_digits ds Hds Nds).
    destruct Htext as [-> | [-> | (sp1 & sp2 & H1 & H2 & ->)]].
    - rewrite parseDateIn_text.
      + now apply iso_date_strategies.
      + destruct ys; [contradiction|discriminate].
      + now apply hd_digits.
      + rewrite !app_assoc. rewrite last_app_r by assumption.
        now apply last_digits.
    - rewrite parseDateIn_text.
      + now apply dot_date_strategies.
      + destruct ys; [contradiction|discriminate].
      + now apply hd_digits.
      + rewrite !app_assoc. rewrite last_app_r by assumption.
        now apply last_digits.
    - rewrite parseDateIn_text.
      + now apply korean_date_strategies.
      + destruct ys; [contradiction|discriminate].
      + now apply hd_digits.
      + rewrite !app_assoc. rewrite last_app_r by discriminate.
        reflexivity. }
  split; [exact E|]. intros Ry Rm Rd.
  now rewrite E, (dateOfFields_within DRT year month day Ry Rm Rd).
Qed.

Lemma parseDate_year_month_day_witness :
  parseDateIn exampleRuntime exampleDateRuntime None
    (CStr (js "2024년 7월 21일"))
  = Some (utcMidnight 2024 7 21).
Proof.
  destruct (parseDate_year_month_day exampleRuntime exampleDateRuntime None
              (js "2024") (js "7") (js "21") (js "2024년 7월 21일")
              eq_refl eq_refl ltac:(cbn; lia) ltac:(cbn; lia)) as [_ H].
  - right. right. exists (js " "), (js " ").
    split; [now right|]. split; [now right|reflexivity].
  - rewrite H; [reflexivity| | |]; vm_compute; split; discriminate.
Defined.

(** X9. A text [P/Q/yyyy] of one or two digits, one or two digits and four
    digits is read month first: when [P] lies in 1..12 and [Q] in 1..31 the
    date is the day [Q] of the month [P].  It is read day first only when
    that fails and [P] lies in 13..31: the date is then the day [P] of the
    month [Q], for [Q] in 1..12.  The year has to lie in 1900..2100. *)
Theorem parseDate_slash (RT : Runtime) (DRT : DateRuntime)
  (ctx : option (Z * Z)) (ps qs ys : jsstring) :
  forallb isDigit (ps ++ qs ++ ys) = true ->
  1 <= length ps <= 2 -> 1 <= length qs <= 2 -> length ys = 4 ->
  let text := ps ++ js "/" ++ qs ++ js "/" ++ ys in
  let p := Z.of_N (decValue ps) in
  let q := Z.of_N (decValue qs) in
  let year := Z.of_N (decValue ys) in
  parseDateIn RT DRT ctx (CStr text)
  = orTry (dateOfFields DRT (Some year) (Some p) (Some q))
      (orTry (if within 13 31 (Some p)
              then dateOfFields DRT (Some year) (Some q) (Some p)
              else None)
             (nativeDate RT DRT text))
  /\ ((1900 <= year <= 2100)%Z -> (1 <= p <= 12)%Z -> (1 <= q <= 31)%Z ->
      parseDateIn RT DRT ctx (CStr text)
      = Some (newDate DRT year (p - 1) q 0 0 0))
  /\ ((1900 <= year <= 2100)%Z -> (13 <= p <= 31)%Z -> (1 <= q <= 12)%Z ->
      parseDateIn RT DRT ctx (CStr text)
      = Some (newDate DRT year (q - 1) p 0 0 0)).
Proof.
  intros Hd Hp Hq Hy text p q year.
  pose proof Hd as Hd'. apply forallb_digits_app in Hd' as [Hps Hd'].
  apply forallb_digits_app in Hd' as [Hqs Hys].
  assert (Nys : ys <> []) by (destruct ys; [discriminate|discriminate]).
  assert (Nps : ps <> []) by (apply length_nonempty; lia).
  assert (Nqs : qs <> []) by (apply length_nonempty; lia).
  assert (E : parseDateIn RT DRT ctx (CStr text)
              = orTry (dateOfFields DRT (Some year) (Some p) (Some q))
                  (orTry (if within 13 31 (Some p)
                          then dateOfFields DRT (Some year) (Some q) (Some p)
                          else None)
                         (nativeDate RT DRT text))).
  { unfold year, p, q, text.
    rewrite <- (parseInt_digits ys Hys Nys), <- (parseInt_digits ps Hps Nps),
      <- (parseInt_digits qs Hqs Nqs).
    rewrite parseDateIn_text.
    - now apply slash_date_strategies.
    - destruct ps; [contradiction|discriminate].
    - now apply hd_digits.
    - rewrite !app_assoc. rewrite last_app_r by assumption.
      now apply last_digits. }
  split; [exact E|]. split.
  - intros Ry Rp Rq.
    now rewrite E, (dateOfFields_within DRT year p q Ry Rp Rq).
  - intros Ry Rp Rq. rewrite E.
    assert (E1 : dateOfFields DRT (Some year) (Some p) (Some q) = None).
    { unfold dateOfFields, within.
      destruct (Z.leb_spec p 12); [lia|].
      now rewrite !andb_false_r. }
    rewrite E1. cbn [orTry].
    assert (E2 : within 13 31 (Some p) = true).
    { unfold within. destruct (Z.leb_spec 13 p); [|lia].
      destruct (Z.leb_spec p 31); [reflexivity|lia]. }
    rewrite E2.
    now rewrite (dateOfFields_within DRT year q p Ry Rq ltac:(lia)).
Qed.

Lemma parseDate_slash_witness :
  parseDateIn exampleRuntime exampleDateRuntime None (CStr (js "7/21/2024"))
  = Some (utcMidnight 2024 7 21)
  /\ parseDateIn exampleRuntime exampleDateRuntime None
       (CStr (js "21/7/2024"))
     = Some (utcMidnight 2024 7 21).
Proof.
  split.
  - destruct (parseDate_slash exampleRuntime exampleDateRuntime None
                (js "7") (js "21") (js "2024")
                eq_refl ltac:(cbn; lia) ltac:(cbn; lia) eq_refl)
      as (_ & H & _).
    exact (H ltac:(vm_compute; split; discriminate)
             ltac:(vm_compute; split; discriminate)
             ltac:(vm_compute; split; discriminate)).
  - destruct (parseDate_slash exampleRuntime exampleDateRuntime None
                (js "21") (js "7") (js "2024")
                eq_refl ltac:(cbn; lia) ltac:(cbn; lia) eq_refl)
      as (_ & _ & H).
    exact (H ltac:(vm_compute; split; discriminate)
             ltac:(vm_compute; split; discriminate)
             ltac:(vm_compute; split; discriminate)).
Defined.

(** X10. A text made of a year of four digits and a month of one or two
    digits, written as [yyyy.M], as [yyyy년M월] or as [yyyy년 M월], is read
    as the first day of that month when the year lies in 1900..2100 and the
    month in 1..12; otherwise it is what the runtime's own parser makes of
    it, if that is a date of the years 1900..2100. *)
Theorem parseDate_year_month (RT : Runtime) (DRT : DateRuntime)
  (ctx : option (Z * Z)) (ys ms text : jsstring) :
  forallb isDigit (ys ++ ms) = true ->
  length ys = 4 -> 1 <= length ms <= 2 ->
  text = ys ++ js "." ++ ms
  \/ text = ys ++ js "년" ++ ms ++ js "월"
  \/ text = ys ++ js "년 " ++ ms ++ js "월" ->
  let year := Z.of_N (decValue ys) in
  let month := Z.of_N (decValue ms) in
  parseDateIn RT DRT ctx (CStr text)
  = orTry (monthOfFields DRT (Some year) (Some month))
          (nativeDate RT DRT text)
  /\ ((1900 <= year <= 2100)%Z -> (1 <= month <= 12)%Z ->
      parseDateIn RT DRT ctx (CStr text)
      = Some (newDate DRT year (month - 1) 1 0 0 0)).
Proof.
  intros Hd Hy Hm Htext year month.
  pose proof Hd as Hd'. apply forallb_digits_app in Hd' as [Hys Hms].
  assert (Nys : ys <> []) by (destruct ys; [discriminate|discriminate]).
  assert (Nms : ms <> []) by (apply length_nonempty; lia).
  destruct (year_month_strategies RT DRT ctx ys ms Hd Hy Hm)
    as (S1 & S2 & S3).
  assert (E : parseDateIn RT DRT ctx (CStr text)
              = orTry (monthOfFields DRT (Some year) (Some month))
                      (nativeDate RT DRT text)).
  { unfold year, month.
    rewrite <- (parseInt_digits ys Hys Nys), <- (parseInt_digits ms Hms Nms).
    destruct Htext as [-> | [-> | ->]].
    - rewrite parseDateIn_text; [exact S1| | |].
      + destruct ys; [contradiction|discriminate].
      + now apply hd_digits.
      + rewrite !app_assoc. rewrite last_app_r by assumption.
        now apply last_digits.
    - rewrite parseDateIn_text; [exact S2| | |].
      + destruct ys; [contradiction|discriminate].
      + now apply hd_digits.
      + rewrite !app_assoc. rewrite last_app_r by discriminate. reflexivity.
    - rewrite parseDateIn_text; [exact S3| | |].
      + destruct ys; [contradiction|discriminate].
      + now apply hd_digits.
      + rewrite !app_assoc. rewrite last_app_r by discriminate. reflexivity. }
  split; [exact E|]. intros Ry Rm.
  now rewrite E, (monthOfFields_within DRT year month Ry Rm).
Qed.

Lemma parseDate_year_month_witness :
  parseDateIn exampleRuntime exampleDateRuntime None (CStr (js "2024.07"))
  = Some (utcMidnight 2024 7 1).
Proof.
  destruct (parseDate_year_month exampleRuntime exampleDateRuntime None
              (js "2024") (js "07") (js "2024.07")
              eq_refl eq_refl ltac:(cbn; lia) (or_introl eq_refl)) as [_ H].
  exact (H ltac:(vm_compute; split; discriminate)
           ltac:(vm_compute; split; discriminate)).
Defined.


(** ** Calendar days *)

Lemma zrange_In (lo : Z) (n : nat) (z : Z) :
  (lo <= z < lo + Z.of_nat n)%Z -> In z (zrange lo n).
Proof.
  intros H. unfold zrange. apply in_map_iff.
  exists (Z.to_nat (z - lo)). split; [lia|]. apply in_seq. lia.
Qed.

Lemma triple_eqb_eq (a b : Z * Z * Z) : triple_eqb a b = true -> a = b.
Proof.
  destruct a as [[a1 a2] a3], b as [[b1 b2] b3]. cbn [triple_eqb].
  intros H. apply andb_prop in H as [H H3]. apply andb_prop in H as [H1 H2].
  apply Z.eqb_eq in H1, H2, H3. now subst.
Qed.

(** Over the years, months and days that the program lets through,
    [MakeDay] lands where [landsOn] says, and a month has 28 to 31 days. *)
Lemma calendar_checked :
  forallb (fun y =>
    forallb (fun m =>
      let dim := daysIn y m in
      ((28 <=? dim) && (dim <=? 31))%Z
      && forallb (fun d =>
           triple_eqb (civil_from_days (MakeDay y (m - 1) d))
             (if (d <=? dim)%Z then (y, m, d)
              else (y, m + 1, d - dim)%Z))
         (zrange 1 31))
    (zrange 1 12))
  (zrange 1900 201) = true.
Proof. vm_compute. reflexivity. Qed.

Lemma MakeDay_lands (y m d : Z) :
  (1900 <= y <= 2100)%Z -> (1 <= m <= 12)%Z -> (1 <= d <= 31)%Z ->
  civil_from_days (MakeDay y (m - 1) d) = landsOn y m d
  /\ (28 <= daysIn y m <= 31)%Z.
Proof.
  intros Hy Hm Hd.
  assert (Iy : In y (zrange 1900 201)) by (apply zrange_In; lia).
  assert (Im : In m (zrange 1 12)) by (apply zrange_In; lia).
  assert (Id : In d (zrange 1 31)) by (apply zrange_In; lia).
  pose proof (proj1 (forallb_forall _ _) calendar_checked y Iy) as H1.
  pose proof (proj1 (forallb_forall _ _) H1 m Im) as H2.
  apply andb_prop in H2 as [Hdim H2].
  pose proof (proj1 (forallb_forall _ _) H2 d Id) as H3.
  apply triple_eqb_eq in H3.
  split; [exact H3|].
  apply andb_prop in Hdim as [A B].
  apply Z.leb_le in A. apply Z.leb_le in B. split; assumption.
Qed.

Section LocalDates.

Variable RT : Runtime.
Variable DRT : DateRuntime.

(** The time value of a local time falls, in local time, on the day of
    that local time. *)
Hypothesis sameLocalDay :
  forall t, (localTime RT (utcOfLocal DRT t) / msPerDay = t / msPerDay)%Z.

Lemma newDate_local_day (y mo d h mi s : Z) :
  (100 <= y)%Z -> (0 <= h <= 23)%Z -> (0 <= mi <= 59)%Z -> (0 <= s <= 59)%Z ->
  (localTime RT (newDate DRT y mo d h mi s) / msPerDay = MakeDay y mo d)%Z.
Proof.
  intros Hy Hh Hmi Hs. unfold newDate.
  destruct ((0 <=? y) && (y <=? 99))%Z eqn:E.
  { apply andb_prop in E as [_ E]. apply Z.leb_le in E. lia. }
  rewrite sameLocalDay. unfold MakeTime, msPerDay.
  symmetry. apply (Z.div_unique _ _ _ (h * 3600000 + mi * 60000 + s * 1000 + 0));
    lia.
Qed.

Lemma newDate_fields (y m d h mi s : Z) :
  (1900 <= y <= 2100)%Z -> (1 <= m <= 12)%Z -> (1 <= d <= 31)%Z ->
  (0 <= h <= 23)%Z -> (0 <= mi <= 59)%Z -> (0 <= s <= 59)%Z ->
  let t := newDate DRT y (m - 1) d h mi s in
  (getFullYear RT t, getMonth RT t + 1, getDate RT t)%Z = landsOn y m d.
Proof.
  intros Hy Hm Hd Hh Hmi Hs t. unfold getFullYear, getMonth, getDate, t.
  rewrite (newDate_local_day y (m - 1) d h mi s) by lia.
  destruct (MakeDay_lands y m d Hy Hm Hd) as [E _]. rewrite E.
  destruct (landsOn y m d) as [[y' m'] d']. f_equal. f_equal. lia.
Qed.

Lemma getDate_month_end (y m : Z) :
  (1900 <= y <= 2100)%Z -> (1 <= m <= 12)%Z ->
  getDate RT (newDate DRT y m 0 0 0 0) = daysIn y m.
Proof.
  intros Hy Hm. unfold getDate, daysIn.
  now rewrite (newDate_local_day y m 0 0 0 0) by lia.
Qed.

Lemma landsOn_year (y m d : Z) :
  (1900 <= y <= 2100)%Z -> (1 <= m <= 12)%Z -> (1 <= d <= 31)%Z ->
  fst (fst (landsOn y m d)) = y.
Proof. intros. unfold landsOn. now destruct (d <=? daysIn y m)%Z. Qed.

Lemma newDate_year (y m d h mi s : Z) :
  (1900 <= y <= 2100)%Z -> (1 <= m <= 12)%Z -> (1 <= d <= 31)%Z ->
  (0 <= h <= 23)%Z -> (0 <= mi <= 59)%Z -> (0 <= s <= 59)%Z ->
  getFullYear RT (newDate DRT y (m - 1) d h mi s) = y.
Proof.
  intros Hy Hm Hd Hh Hmi Hs.
  pose proof (newDate_fields y m d h mi s Hy Hm Hd Hh Hmi Hs) as E.
  cbv zeta in E. apply (f_equal (fun x => fst (fst x))) in E.
  cbn [fst] in E. rewrite E. now apply landsOn_year.
Qed.

End LocalDates.

Lemma orTry_cases {A} (a b : option A) (x : A) :
  orTry a b = Some x -> a = Some x \/ b = Some x.
Proof. destruct a; cbn [orTry]; auto. Qed.

Lemma within_spec (lo hi : Z) (v : option Z) :
  within lo hi v = true -> exists z, v = Some z /\ (lo <= z <= hi)%Z.
Proof.
  destruct v as [z|]; [|discriminate]. cbn [within]. intros H.
  apply andb_prop in H as [H1 H2]. apply Z.leb_le in H1. apply Z.leb_le in H2.
  exists z. split; [reflexivity|lia].
Qed.

(** X11. The day of a date is checked against 1..31 whatever the month:
    for a year in 1900..2100, a month in 1..12 and a day in 1..31 the date
    built is the given day when the month has such a day, and otherwise
    the day of the next month that many days after the end of the month
    (30 February 2024 is 1 March 2024).  The length of a month is the one
    the day-only strategy computes.  This holds in a time zone in which
    the time value of a local time falls on the day of that local time. *)
Theorem dateOfFields_day_overflow (RT : Runtime) (DRT : DateRuntime)
  (y m d t : Z) :
  (forall t, (localTime RT (utcOfLocal DRT t) / msPerDay = t / msPerDay)%Z) ->
  dateOfFields DRT (Some y) (Some m) (Some d) = Some t ->
  let daysInMonth := getDate RT (newDate DRT y m 0 0 0 0) in
  (28 <= daysInMonth <= 31)%Z
  /\ ((d <= daysInMonth)%Z ->
      getFullYear RT t = y /\ (getMonth RT t + 1 = m)%Z /\ getDate RT t = d)
  /\ ((daysInMonth < d)%Z ->
      getFullYear RT t = y /\ (getMonth RT t + 1 = m + 1)%Z
      /\ (getDate RT t = d - daysInMonth)%Z).
Proof.
  intros Hlocal Hdate daysInMonth. unfold dateOfFields in Hdate.
  destruct (within 1900 2100 (Some y)) eqn:Wy; [|discriminate].
  destruct (within 1 12 (Some m)) eqn:Wm; [|discriminate].
  destruct (within 1 31 (Some d)) eqn:Wd; [|discriminate].
  cbn [andb field] in Hdate. injection Hdate as <-.
  apply within_spec in Wy as (? & [= <-] & Hy).
  apply within_spec in Wm as (? & [= <-] & Hm).
  apply within_spec in Wd as (? & [= <-] & Hd).
  unfold daysInMonth. rewrite (getDate_month_end RT DRT Hlocal y m Hy Hm).
  destruct (MakeDay_lands y m d Hy Hm Hd) as [_ Hdim].
  pose proof (newDate_fields RT DRT Hlocal y m d 0 0 0 Hy Hm Hd
                ltac:(lia) ltac:(lia) ltac:(lia)) as E.
  cbv zeta in E. unfold landsOn in E.
  split; [exact Hdim|]. split; intros Hcmp.
  - destruct (Z.leb_spec d (daysIn y m)); [|lia].
    injection E as E1 E2 E3. auto.
  - destruct (Z.leb_spec d (daysIn y m)); [lia|].
    injection E as E1 E2 E3. auto.
Qed.

Lemma dateOfFields_day_overflow_witness :
  let t := utcMidnight 2024 3 1 in
  dateOfFields exampleDateRuntime (Some 2024%Z) (Some 2%Z) (Some 30%Z)
  = Some t
  /\ getFullYear exampleRuntime t = 2024%Z
  /\ (getMonth exampleRuntime t + 1 = 3)%Z
  /\ getDate exampleRuntime t = 1%Z.
Proof.
  intros t. split; [reflexivity|].
  destruct (dateOfFields_day_overflow exampleRuntime exampleDateRuntime
              2024 2 30 t (fun _ => eq_refl) eq_refl) as (_ & _ & H).
  destruct (H ltac:(vm_compute; reflexivity)) as (H1 & H2 & H3).
  split; [exact H1|]. split; [exact H2|exact H3].
Defined.

(** *** The years of the dates read from texts *)

Lemma contextOfRow_range (RT : Runtime) (row : Row) (y m : Z) :
  contextOfRow RT row = Some (y, m) ->
  (1900 <= y <= 2100)%Z /\ (1 <= m <= 12)%Z.
Proof.
  unfold contextOfRow. destruct row as [|c row]; [discriminate|].
  destruct (matchFirst contextPattern _) as [[|a [|b caps]]|];
    try discriminate.
  destruct (within 1900 2100 (parseInt a)) eqn:Wy; [|discriminate].
  destruct (within 1 12 (parseInt b)) eqn:Wm; [|discriminate].
  cbn [andb]. intros [= <- <-].
  apply within_spec in Wy as (? & -> & Hy).
  apply within_spec in Wm as (? & -> & Hm). cbn [field]. split; assumption.
Qed.

Lemma firstContext_In (RT : Runtime) (rows : list Row) (c : Z * Z) :
  firstContext RT rows = Some c ->
  exists row, In row rows /\ contextOfRow RT row = Some c.
Proof.
  induction rows as [|row rows IH]; [discriminate|]. cbn [firstContext].
  destruct (contextOfRow RT row) as [c'|] eqn:E; cbn [orTry].
  - intros [= <-]. exists row. split; [now left|exact E].
  - intros H. destruct (IH H) as (r & Hr & Er). exists r.
    split; [now right|exact Er].
Qed.

Lemma extractSikbomDateContext_range (RT : Runtime) (data : Grid) (y m : Z) :
  extractSikbomDateContext RT data = Some (y, m) ->
  (1900 <= y <= 2100)%Z /\ (1 <= m <= 12)%Z.
Proof.
  unfold extractSikbomDateContext. intros H.
  apply firstContext_In in H as (row & _ & H).
  exact (contextOfRow_range RT row y m H).
Qed.

Section TextYears.

Variable RT : Runtime.
Variable DRT : DateRuntime.

Hypothesis sameLocalDay :
  forall t, (localTime RT (utcOfLocal DRT t) / msPerDay = t / msPerDay)%Z.

Let inYears (t : Z) : Prop := (1900 <= getFullYear RT t <= 2100)%Z.

Lemma dateTimeOfFields_year (y m d h mi s : option Z) (t : Z) :
  dateTimeOfFields DRT y m d h mi s = Some t -> inYears t.
Proof.
  unfold dateTimeOfFields.
  destruct (within 1900 2100 y) eqn:Wy; [|discriminate].
  destruct (within 1 12 m) eqn:Wm; [|discriminate].
  destruct (within 1 31 d) eqn:Wd; [|discriminate].
  destruct (within 0 23 h) eqn:Wh; [|discriminate].
  destruct (within 0 59 mi) eqn:Wmi; [|discriminate].
  destruct (within 0 59 s) eqn:Ws; [|discriminate].
  cbn [andb]. intros [= <-].
  apply within_spec in Wy as (? & -> & Hy).
  apply within_spec in Wm as (? & -> & Hm).
  apply within_spec in Wd as (? & -> & Hd).
  apply within_spec in Wh as (? & -> & Hh).
  apply within_spec in Wmi as (? & -> & Hmi).
  apply within_spec in Ws as (? & -> & Hs).
  cbn [field]. unfold inYears.
  now rewrite (newDate_year RT DRT sameLocalDay) by assumption.
Qed.

Lemma dateOfFields_year (y m d : option Z) (t : Z) :
  dateOfFields DRT y m d = Some t -> inYears t.
Proof.
  unfold dateOfFields.
  destruct (within 1900 2100 y) eqn:Wy; [|discriminate].
  destruct (within 1 12 m) eqn:Wm; [|discriminate].
  destruct (within 1 31 d) eqn:Wd; [|discriminate].
  cbn [andb]. intros [= <-].
  apply within_spec in Wy as (? & -> & Hy).
  apply within_spec in Wm as (? & -> & Hm).
  apply within_spec in Wd as (? & -> & Hd).
  cbn [field]. unfold inYears.
  now rewrite (newDate_year RT DRT sameLocalDay) by (assumption || lia).
Qed.

Lemma monthOfFields_year (y m : option Z) (t : Z) :
  monthOfFields DRT y m = Some t -> inYears t.
Proof.
  unfold monthOfFields.
  destruct (within 1900 2100 y) eqn:Wy; [|discriminate].
  destruct (within 1 12 m) eqn:Wm; [|discriminate].
  cbn [andb]. intros [= <-].
  apply within_spec in Wy as (? & -> & Hy).
  apply within_spec in Wm as (? & -> & Hm).
  cbn [field]. unfold inYears.
  now rewrite (newDate_year RT DRT sameLocalDay) by (assumption || lia).
Qed.

Lemma nativeDate_year (s : jsstring) (t : Z) :
  nativeDate RT DRT s = Some t -> inYears t.
Proof.
  unfold nativeDate. destruct (Date_parse DRT s) as [t'|]; [|discriminate].
  destruct ((1900 <=? getFullYear RT t') && (getFullYear RT t' <=? 2100))%Z
    eqn:E; [|discriminate].
  intros [= <-]. apply andb_prop in E as [E1 E2].
  apply Z.leb_le in E1. apply Z.leb_le in E2. split; assumption.
Qed.

Lemma parseSikbomDay_year (ctx : option (Z * Z)) (s : jsstring) (t : Z) :
  (forall y m, ctx = Some (y, m) ->
               (1900 <= y <= 2100)%Z /\ (1 <= m <= 12)%Z) ->
  parseSikbomDay RT DRT ctx s = Some t -> inYears t.
Proof.
  intros Hctx. unfold parseSikbomDay.
  destruct (matchWhole sikbomDayPattern s) as [[|d caps]|]; try discriminate.
  destruct ctx as [[y m]|]; [|discriminate].
  destruct (Hctx y m eq_refl) as [Hy Hm].
  destruct (within 1 31 (parseInt d)) eqn:Wd; [|discriminate].
  destruct (field (parseInt d) <=? _)%Z; [|discriminate].
  intros [= <-]. apply within_spec in Wd as (? & -> & Hd). cbn [field].
  unfold inYears.
  now rewrite (newDate_year RT DRT sameLocalDay) by (assumption || lia).
Qed.

Ltac open_strategy H :=
  repeat match type of H with
         | match ?x with _ => _ end = Some _ =>
           destruct x eqn:?; try discriminate H
         | (if ?b then _ else _) = Some _ =>
           destruct b eqn:?; try discriminate H
         end.

Lemma parseDateRange_year  (s : jsstring) (t : Z) :
  parseDateRange DRT s = Some t -> inYears t.
Proof.
  intros H. unfold parseDateRange in H. open_strategy H.
  exact (dateOfFields_year _ _ _ _ H).
Qed.

Lemma parseKoreanRange_year  (s : jsstring) (t : Z) :
  parseKoreanRange DRT s = Some t -> inYears t.
Proof.
  intros H. unfold parseKoreanRange in H. open_strategy H.
  exact (dateOfFields_year _ _ _ _ H).
Qed.

Lemma parseMonthRange_year  (s : jsstring) (t : Z) :
  parseMonthRange DRT s = Some t -> inYears t.
Proof.
  intros H. unfold parseMonthRange in H. open_strategy H.
  exact (monthOfFields_year _ _ _ H).
Qed.

Lemma parseIsoDateRange_year  (s : jsstring) (t : Z) :
  parseIsoDateRange RT DRT s = Some t -> inYears t.
Proof.
  intros H. unfold parseIsoDateRange in H. open_strategy H.
  exact (nativeDate_year _ _ H).
Qed.

Lemma parseCompactRange_year  (s : jsstring) (t : Z) :
  parseCompactRange DRT s = Some t -> inYears t.
Proof.
  intros H. unfold parseCompactRange in H. open_strategy H.
  exact (dateOfFields_year _ _ _ _ H).
Qed.

Lemma parseYearMonth_year (p : Regex) (s : jsstring) (t : Z) :
  parseYearMonth DRT p s = Some t -> inYears t.
Proof.
  intros H. unfold parseYearMonth in H. open_strategy H.
  exact (monthOfFields_year _ _ _ H).
Qed.

Lemma parseKoreanAmPm_year  (s : jsstring) (t : Z) :
  parseKoreanAmPm DRT s = Some t -> inYears t.
Proof.
  intros H. unfold parseKoreanAmPm in H. open_strategy H.
  exact (dateTimeOfFields_year _ _ _ _ _ _ _ H).
Qed.

Lemma parseDateTime_year (p : Regex) (s : jsstring) (t : Z) :
  parseDateTime DRT p s = Some t -> inYears t.
Proof.
  intros H. unfold parseDateTime in H. open_strategy H.
  exact (dateTimeOfFields_year _ _ _ _ _ _ _ H).
Qed.

Lemma parseYearMonthDay_year (p : Regex) (s : jsstring) (t : Z) :
  parseYearMonthDay DRT p s = Some t -> inYears t.
Proof.
  intros H. unfold parseYearMonthDay in H. open_strategy H.
  exact (dateOfFields_year _ _ _ _ H).
Qed.

Lemma parseUsDate_year  (s : jsstring) (t : Z) :
  parseUsDate DRT s = Some t -> inYears t.
Proof.
  intros H. unfold parseUsDate in H. open_strategy H.
  exact (dateOfFields_year _ _ _ _ H).
Qed.

Lemma parseEuropeanDate_year  (s : jsstring) (t : Z) :
  parseEuropeanDate DRT s = Some t -> inYears t.
Proof.
  intros H. unfold parseEuropeanDate in H. open_strategy H.
  exact (dateOfFields_year _ _ _ _ H).
Qed.

Lemma parseDateString_year (ctx : option (Z * Z)) (s : jsstring) (t : Z) :
  (forall y m, ctx = Some (y, m) ->
               (1900 <= y <= 2100)%Z /\ (1 <= m <= 12)%Z) ->
  parseDateString RT DRT ctx s = Some t -> inYears t.
Proof.
  intros Hctx H. unfold parseDateString in H.
  repeat (apply orTry_cases in H; destruct H as [H|H]).
  - exact (parseDateRange_year _ _ H).
  - exact (parseKoreanRange_year _ _ H).
  - exact (parseMonthRange_year _ _ H).
  - exact (parseIsoDateRange_year _ _ H).
  - exact (parseCompactRange_year _ _ H).
  - exact (parseYearMonth_year _ _ _ H).
  - exact (parseYearMonth_year _ _ _ H).
  - exact (parseKoreanAmPm_year _ _ H).
  - exact (parseDateTime_year _ _ _ H).
  - exact (parseYearMonthDay_year _ _ _ H).
  - exact (parseDateTime_year _ _ _ H).
  - exact (parseYearMonthDay_year _ _ _ H).
  - exact (parseYearMonthDay_year _ _ _ H).
  - exact (parseUsDate_year _ _ H).
  - exact (parseEuropeanDate_year _ _ H).
  - exact (nativeDate_year _ _ H).
  - exact (parseSikbomDay_year ctx s t Hctx H).
  - exact (nativeDate_year _ _ H).
Qed.

End TextYears.

(** X12. Every date that [parseDate] reads from a text is a date of the
    years 1900..2100 in local time, whichever strategy reads it and
    whatever title the sheet has (a numeric cell, by contrast, is accepted
    up to the year 9999).  This holds in a time zone in which the time
    value of a local time falls on the day of that local time. *)
Theorem parseDate_text_year (RT : Runtime) (DRT : DateRuntime) (data : Grid)
  (s : jsstring) (t : Z) :
  (forall t, (localTime RT (utcOfLocal DRT t) / msPerDay = t / msPerDay)%Z) ->
  parseDateIn RT DRT (extractSikbomDateContext RT data) (CStr s) = Some t ->
  (1900 <= getFullYear RT t <= 2100)%Z.
Proof.
  intros Hlocal H. unfold parseDateIn in H.
  destruct s as [|c s]; [discriminate|]. cbn [parseDate] in H.
  destruct (trim (c :: s)) as [|c' s']; [discriminate|].
  apply (parseDateString_year RT DRT Hlocal
           (extractSikbomDateContext RT data) (c' :: s') t); [|exact H].
  intros y m E. exact (extractSikbomDateContext_range RT data y m E).
Qed.

Lemma parseDate_text_year_witness :
  (1900 <= getFullYear exampleRuntime (utcMidnight 2024 10 5) <= 2100)%Z.
Proof.
  apply (parseDate_text_year exampleRuntime exampleDateRuntime
           [[CStr (js "2024년 10월 총 매출")]] (js " 5일 ")
           (utcMidnight 2024 10 5) (fun _ => eq_refl)).
  vm_compute. reflexivity.
Defined.

(** *** Days of the month named in the title *)

Lemma day_only_strategies (RT : Runtime) (DRT : DateRuntime)
  (ctx : option (Z * Z)) (ds : jsstring) :
  forallb isDigit ds = true -> 1 <= length ds <= 2 ->
  parseDateString RT DRT ctx (ds ++ js "일")
  = orTry (nativeDate RT DRT (ds ++ js "일"))
      (match ctx with
       | Some (year, month) =>
         if within 1 31 (parseInt ds) then
           if (field (parseInt ds)
               <=? getDate RT (newDate DRT year month 0 0 0 0))%Z
           then Some (newDate DRT year (month - 1) (field (parseInt ds)) 0 0 0)
           else None
         else None
       | None => None
       end).
Proof.
  intros Hd Hl.
  destruct ds as [|d1 [|d2 [|]]]; cbn [length] in Hl; try (exfalso; lia).
  - by_shape [d1] (js "0일").
    destruct (nativeDate RT DRT [d1; 51068%N]); [reflexivity|].
    cbn [orTry]. destruct ctx as [[y m]|]; [|reflexivity].
    destruct (within 1 31 (parseInt [d1])); [|reflexivity].
    now destruct (_ <=? _)%Z.
  - by_shape [d1; d2] (js "01일").
    destruct (nativeDate RT DRT [d1; d2; 51068%N]); [reflexivity|].
    cbn [orTry]. destruct ctx as [[y m]|]; [|reflexivity].
    destruct (within 1 31 (parseInt [d1; d2])); [|reflexivity].
    now destruct (_ <=? _)%Z.
Qed.

(** X13. A text [D일] of one or two digits that the runtime's own parser
    does not read is a date only on a sheet whose title names a year and a
    month: the date is then the day [D] of that month when the month has
    such a day, and there is no date when [D] is 0 or larger than the last
    day of the month.  The year and the month taken from the title always
    lie in 1900..2100 and 1..12.  This holds in a time zone in which the
    time value of a local time falls on the day of that local time. *)
Theorem parseDate_day_only (RT : Runtime) (DRT : DateRuntime) (data : Grid)
  (ds : jsstring) :
  (forall t, (localTime RT (utcOfLocal DRT t) / msPerDay = t / msPerDay)%Z) ->
  forallb isDigit ds = true -> 1 <= length ds <= 2 ->
  nativeDate RT DRT (ds ++ js "일") = None ->
  let day := Z.of_N (decValue ds) in
  let date := parseDateIn RT DRT (extractSikbomDateContext RT data)
                (CStr (ds ++ js "일")) in
  match extractSikbomDateContext RT data with
  | None => date = None
  | Some (year, month) =>
    (1900 <= year <= 2100)%Z /\ (1 <= month <= 12)%Z
    /\ ((1 <= day <= daysIn year month)%Z ->
        exists t, date = Some t
                  /\ getFullYear RT t = year
                  /\ (getMonth RT t + 1 = month)%Z
                  /\ getDate RT t = day)
    /\ (~ (1 <= day <= daysIn year month)%Z -> date = None)
  end.
Proof.
  intros Hlocal Hd Hl Hnative day date.
  assert (Nds : ds <> []) by (apply length_nonempty; lia).
  assert (E : date = parseDateString RT DRT (extractSikbomDateContext RT data)
                       (ds ++ js "일")).
  { unfold date. apply parseDateIn_text.
    - destruct ds; [contradiction|discriminate].
    - now apply hd_digits.
    - rewrite last_app_r by discriminate. reflexivity. }
  rewrite (day_only_strategies RT DRT _ ds Hd Hl), Hnative in E.
  cbn [orTry] in E. rewrite (parseInt_digits ds Hd Nds) in E.
  fold day in E. cbn [field] in E.
  destruct (extractSikbomDateContext RT data) as [[year month]|] eqn:Ec;
    [|exact E].
  destruct (extractSikbomDateContext_range RT data year month Ec) as [Hy Hm].
  rewrite (getDate_month_end RT DRT Hlocal year month Hy Hm) in E.
  destruct (MakeDay_lands year month 1 Hy Hm ltac:(lia)) as [_ Hdim].
  split; [exact Hy|]. split; [exact Hm|]. split.
  - intros Hday. eexists. split.
    + rewrite E. unfold within.
      destruct (Z.leb_spec 1 day); [|lia].
      destruct (Z.leb_spec day 31); [|lia].
      destruct (Z.leb_spec day (daysIn year month)); [|lia].
      reflexivity.
    + pose proof (newDate_fields RT DRT Hlocal year month day 0 0 0 Hy Hm
                    ltac:(lia) ltac:(lia) ltac:(lia) ltac:(lia)) as F.
      cbv zeta in F. unfold landsOn in F.
      destruct (Z.leb_spec day (daysIn year month)); [|lia].
      injection F as F1 F2 F3. auto.
  - intros Hday. rewrite E. unfold within.
    destruct (Z.leb_spec 1 day); [|reflexivity].
    destruct (Z.leb_spec day 31); [|reflexivity]. cbn [andb].
    destruct (Z.leb_spec day (daysIn year month)); [lia|reflexivity].
Qed.

Lemma parseDate_day_only_witness :
  parseDateIn exampleRuntime exampleDateRuntime
    (extractSikbomDateContext exampleRuntime
       [[CStr (js "2024년 2월 총 매출")]])
    (CStr (js "30일"))
  = None.
Proof.
  pose proof (parseDate_day_only exampleRuntime exampleDateRuntime
                [[CStr (js "2024년 2월 총 매출")]] (js "30")
                (fun _ => eq_refl) eq_refl ltac:(cbn; lia) eq_refl) as H.
  cbv zeta in H.
  change (extractSikbomDateContext exampleRuntime
            [[CStr (js "2024년 2월 총 매출")]])
    with (Some (2024, 2)%Z) in H at 1.
  destruct H as (_ & _ & _ & H). apply H. vm_compute. intros [_ H']. 
  apply H'. reflexivity.
Defined.

(** ** Columns after validation *)

Section ResolvedColumns.

Variable RT : Runtime.
Variable availableColumns : list jsstring.

Lemma findMatchingColumn_In (s c : jsstring) :
  findMatchingColumn RT availableColumns s = Some c ->
  In c availableColumns /\ (In s availableColumns -> c = s).
Proof.
  unfold findMatchingColumn. cbv zeta.
  destruct (arr_includes availableColumns s) eqn:E.
  - intros [= <-]. split; [now apply arr_includes_In|reflexivity].
  - assert (Hnot : ~ In s availableColumns).
    { intros Hin. apply arr_includes_In in Hin. congruence. }
    intros H. split; [|intros Hin; contradiction].
    unfold find_first in H.
    destruct (find _ availableColumns) as [[|a f]|] eqn:F1.
    + destruct (includes _ _ && includes _ _); [|discriminate].
      destruct (find _ availableColumns) as [[|b g]|] eqn:F2 in H;
        try discriminate.
      injection H as <-. exact (proj1 (find_some _ _ F2)).
    + injection H as <-. exact (proj1 (find_some _ _ F1)).
    + destruct (includes _ _ && includes _ _); [|discriminate].
      destruct (find _ availableColumns) as [[|b g]|] eqn:F2 in H;
        try discriminate.
      injection H as <-. exact (proj1 (find_some _ _ F2)).
Qed.

Lemma foundColumn_spec (s c : jsstring) :
  foundColumn RT availableColumns s = Some c ->
  c <> [] /\ In c availableColumns /\ (In s availableColumns -> c = s).
Proof.
  unfold foundColumn.
  destruct (findMatchingColumn RT availableColumns s) as [[|a f]|] eqn:E;
    try discriminate.
  intros [= <-]. destruct (findMatchingColumn_In s (a :: f) E) as [H1 H2].
  split; [discriminate|]. split; assumption.
Qed.

Lemma matchColumn_resolved (label name : jsstring) (missing : list jsstring)
  (name' : option jsstring) :
  matchColumn RT availableColumns label (Some name) missing = (name', []) ->
  missing = []
  /\ resolvedAs availableColumns (label, Some name) (label, name').
Proof.
  unfold matchColumn.
  destruct (foundColumn RT availableColumns name) as [c|] eqn:F.
  - intros [= <- ->]. split; [reflexivity|].
    destruct (foundColumn_spec name c F) as (H1 & H2 & H3).
    split; [reflexivity|]. exists name, c. cbn [snd]. auto.
  - intros [= _ H]. apply app_eq_nil in H as [_ H]. discriminate.
Qed.

Lemma matchAmountColumns_resolved (l : list jsstring) :
  forall updated missing updated',
  fold_left
    (fun acc colName =>
       let '(updated, missing) := acc in
       match foundColumn RT availableColumns colName with
       | Some matched => (updated ++ [matched], missing)
       | None =>
         (updated, missing ++ [describeColumn (js "금액 컬럼") colName])
       end) l (updated, missing) = (updated', []) ->
  missing = []
  /\ exists found,
       updated' = updated ++ found
       /\ Forall2 (fun n c =>
                     resolvedAs availableColumns
                       (js "금액 컬럼", Some n) (js "금액 컬럼", Some c))
                  l found.
Proof.
  induction l as [|n l IH]; intros updated missing updated';
    cbn [fold_left].
  - intros [= <- ->]. split; [reflexivity|]. exists [].
    split; [now rewrite app_nil_r|constructor].
  - destruct (foundColumn RT availableColumns n) as [c|] eqn:F.
    + intros H. destruct (IH _ _ _ H) as (-> & found & -> & Hall).
      split; [reflexivity|]. exists (c :: found).
      split; [now rewrite <- app_assoc|].
      constructor; [|exact Hall].
      destruct (foundColumn_spec n c F) as (H1 & H2 & H3).
      split; [reflexivity|]. exists n, c. cbn [snd]. auto.
    + intros H. destruct (IH _ _ _ H) as (E & _).
      apply app_eq_nil in E as [_ E]. discriminate.
Qed.

Lemma matchColumns_resolved (options : ProcessingOptions) :
  configured options = true ->
  snd (matchColumns RT availableColumns options) = [] ->
  Forall2 (resolvedAs availableColumns)
          (requiredColumns options)
          (requiredColumns (fst (matchColumns RT availableColumns options))).
Proof.
  unfold configured, matchColumns, requiredColumns.
  rewrite andb_true_iff, negb_true_iff. intros [Hd H].
  destruct (unset_false _ Hd) as [dc ->].
  destruct (matchColumn RT availableColumns (js "날짜 컬럼") (Some dc) [])
    as [dateCol m0] eqn:M0.
  destruct (useTaxTypeClassification options) eqn:Emode.
  - rewrite andb_true_iff, negb_true_iff in H. destruct H as [Ht H].
    destruct (unset_false _ Ht) as [tc ->].
    destruct (matchColumn RT availableColumns (js "과세유형 컬럼")
                (Some tc) m0) as [taxTypeCol m1] eqn:M1.
    destruct (useMultiColumnSum options) eqn:Emulti.
    + destruct (amountColumns options) as [[|c cs]|]; try discriminate.
      match goal with
      | |- context [fold_left ?f ?l (?u, ?m)] =>
        destruct (fold_left f l (u, m)) as [upd m2] eqn:M2
      end.
      cbn [snd fst dateColumn taxTypeColumn useTaxTypeClassification
           useMultiColumnSum amountColumns].
      intros ->.
      destruct (matchAmountColumns_resolved _ _ _ _ M2)
        as (-> & found & E & Hall).
      destruct (matchColumn_resolved _ _ _ _ M1) as (-> & R1).
      destruct (matchColumn_resolved _ _ _ _ M0) as (_ & R0).
      cbn [app] in E. subst upd.
      constructor; [exact R0|]. constructor; [exact R1|].
      clear -Hall. remember (c :: cs) as l eqn:El. clear El.
      induction Hall; cbn [map]; constructor; assumption.
    + rewrite negb_true_iff in H. destruct (unset_false _ H) as [ac ->].
      destruct (matchColumn RT availableColumns (js "금액 컬럼")
                  (Some ac) m1) as [amountCol m2] eqn:M2.
      cbn [snd fst dateColumn taxTypeColumn useTaxTypeClassification
           useMultiColumnSum amountColumn].
      intros ->.
      destruct (matchColumn_resolved _ _ _ _ M2) as (-> & R2).
      destruct (matchColumn_resolved _ _ _ _ M1) as (-> & R1).
      destruct (matchColumn_resolved _ _ _ _ M0) as (_ & R0).
      repeat (constructor; [assumption|]). constructor.
  - rewrite andb_true_iff, !negb_true_iff in H. destruct H as [He Hx].
    destruct (unset_false _ He) as [ec ->].
    destruct (unset_false _ Hx) as [xc ->].
    destruct (matchColumn RT availableColumns (js "면세금액 컬럼")
                (Some ec) m0) as [taxExemptCol m1] eqn:M1.
    destruct (matchColumn RT availableColumns (js "과세금액 컬럼")
                (Some xc) m1) as [taxableCol m2] eqn:M2.
    cbn [snd fst dateColumn taxExemptColumn taxableColumn
         useTaxTypeClassification].
    intros ->.
    destruct (matchColumn_resolved _ _ _ _ M2) as (-> & R2).
    destruct (matchColumn_resolved _ _ _ _ M1) as (-> & R1).
    destruct (matchColumn_resolved _ _ _ _ M0) as (_ & R0).
    repeat (constructor; [assumption|]). constructor.
Qed.

End ResolvedColumns.

(** X14. When [readExcelFile] gets past the validation, the rows are
    extracted with every required column of the active mode resolved to a
    column of the first data row: the configured name itself when the row
    has a column of that name, and otherwise the column found by the
    flexible matching. *)
Theorem readExcelFile_resolved (RT : Runtime)
  (parseDateText : jsstring -> option Z) (sampleRow : RowObject)
  (rest : list RowObject) (options : ProcessingOptions)
  (records : list MonthlyData) :
  readExcelFile RT parseDateText (sampleRow :: rest) options
  = Return records ->
  let availableColumns := Object_keys sampleRow in
  let options' := fst (matchColumns RT availableColumns options) in
  records = parseMonthlyData RT parseDateText (sampleRow :: rest) options'
  /\ configured options = true
  /\ Forall2 (resolvedAs availableColumns)
             (requiredColumns options) (requiredColumns options').
Proof.
  unfold readExcelFile.
  destruct (checkConfigured options) as [message|] eqn:Ec; [discriminate|].
  apply checkConfigured_configured in Ec. cbv zeta.
  pose proof (matchColumns_resolved RT (Object_keys sampleRow) options Ec)
    as Hres.
  destruct (matchColumns RT (Object_keys sampleRow) options)
    as [options' missing].
  destruct missing as [|m missing]; [|discriminate].
  intros [= <-]. cbn [fst snd] in *. auto.
Qed.

Lemma readExcelFile_resolved_witness :
  let sampleRow :=
    [(js "날짜 ", CStr (js "2024-01-15"));
     (js "면세금액", CStr (js "1,000"));
     (js "과세금액", CNum 500)] in
  Forall2 (resolvedAs (Object_keys sampleRow))
    (requiredColumns traditionalOptions)
    (requiredColumns
       (fst (matchColumns exampleRuntime (Object_keys sampleRow)
                          traditionalOptions))).
Proof.
  intros sampleRow.
  refine (proj2 (proj2 (readExcelFile_resolved exampleRuntime
                          exampleParseDateText sampleRow []
                          traditionalOptions
                          [ {| month := 1; year := 2024;
                               taxExemptAmount := Fin 1000;
                               taxableAmount := Fin 500 |} ] _))).
  vm_compute. reflexivity.
Defined.

(** ** From the sheet to the records *)

Lemma filter_seq_split (f : nat -> bool) (n c : nat) :
  c < n -> f c = true ->
  filter f (seq 0 n)
  = filter f (seq 0 c) ++ c :: filter f (seq (S c) (n - S c)).
Proof.
  intros Hlt Hf. replace n with (c + S (n - S c)) at 1 by lia.
  rewrite seq_app, filter_app. cbn [Nat.add seq filter]. now rewrite Hf.
Qed.

Lemma countIf_seq_le (f : nat -> bool) (a c : nat) :
  countIf f (seq a c) <= c.
Proof.
  unfold countIf.
  pose proof (filter_length_le f (seq a c)) as H.
  now rewrite length_seq in H.
Qed.

Lemma countIf_seq_all (f : nat -> bool) (c : nat) :
  countIf f (seq 0 c) = c <-> forall c', c' < c -> f c' = true.
Proof.
  unfold countIf. induction c as [|c IH].
  - split; [intros _ c' H; lia|reflexivity].
  - rewrite seq_S, filter_app, length_app. cbn [Nat.add filter].
    pose proof (countIf_seq_le f 0 c) as Hle. unfold countIf in Hle.
    destruct (f c) eqn:E; cbn [length].
    + split.
      * intros H c' Hc'. destruct (Nat.eq_dec c' c) as [->|Hne];
          [exact E|]. apply IH; lia.
      * intros H. rewrite (proj2 IH); [lia|]. intros c' Hc'. apply H. lia.
    + split; [lia|]. intros H. rewrite (H c) in E by lia. discriminate.
Qed.

Lemma carriesName_texts (RT : Runtime) (names : list jsstring)
  (name : jsstring) (i : nat) :
  carriesName RT (map CStr names) name i
  = negb (isEmptyText (nth i names [])) && jsstring_eqb (nth i names []) name.
Proof.
  unfold carriesName.
  destruct (Nat.lt_ge_cases i (length names)) as [Hlt|Hge].
  - rewrite (nth_indep _ CUndef (CStr []))
      by (now rewrite length_map).
    rewrite (map_nth CStr names [] i). cbn [toString].
    now destruct (nth i names []).
  - rewrite (nth_overflow (map CStr names)) by (now rewrite length_map).
    rewrite (nth_overflow names) by assumption. reflexivity.
Qed.

Lemma NoDup_app_cons_after {A} (l1 l2 : list A) (x : A) :
  NoDup (l1 ++ x :: l2) -> ~ In x l2.
Proof.
  intros H. apply NoDup_remove_2 in H. intros Hin. apply H.
  apply in_or_app. now right.
Qed.

Section Alignment.

Variable RT : Runtime.
Variable sheet : Grid.
Variables r1 r2 : nat.

Local Abbreviation name :=
  (columnName RT (nth r1 sheet []) (nth r2 sheet [])).
Local Abbreviation maxCols :=
  (Nat.max (textExtent RT (nth r1 sheet [])) (textExtent RT (nth r2 sheet []))).
Local Abbreviation kept := (keepsName name [] 0).

Hypothesis notSimple :
  isSimpleStructure RT (nth r1 sheet []) (nth r2 sheet []) = false.

Lemma combined_names :
  combineMultiRowHeaders RT sheet [r1; r2]
  = map name (filter kept (seq 0 maxCols)).
Proof.
  cbn [combineMultiRowHeaders]. rewrite notSimple. unfold combinedHeaders.
  now rewrite uniqueHeaders_columns.
Qed.

Lemma combined_names_NoDup :
  NoDup (map name (filter kept (seq 0 maxCols))).
Proof.
  apply NoDup_map_first; [apply filter_seq_sorted|].
  intros c Hc. apply filter_In in Hc as [_ Hc].
  now apply keepsName_first in Hc.
Qed.

Lemma combined_name_read (row : Row) (c : nat) :
  c < maxCols -> kept c = true -> name c <> js "__proto__" ->
  getProp (rowObjectOf RT (map CStr (combineMultiRowHeaders RT sheet [r1; r2]))
                       row)
          (name c)
  = cellAt row (countIf kept (seq 0 c)).
Proof.
  intros Hc Hk Hproto. rewrite combined_names.
  pose proof combined_names_NoDup as Hnd.
  rewrite (filter_seq_split kept maxCols c Hc Hk) in *.
  set (A := filter kept (seq 0 c)) in *.
  set (B := filter kept (seq (S c) (maxCols - S c))) in *.
  assert (Hne : name c <> []) by (apply keepsName_first in Hk; tauto).
  assert (Hk' : nth (length A) (map name (A ++ c :: B)) [] = name c).
  { rewrite map_app. cbn [map]. rewrite app_nth2 by (rewrite length_map; lia).
    now rewrite length_map, Nat.sub_diag. }
  unfold getProp, countIf. fold A.
  rewrite (rowObjectOf_last RT _ row (name c) (length A) Hproto).
  - reflexivity.
  - rewrite !length_map, length_app. cbn [length]. lia.
  - rewrite carriesName_texts, Hk', jsstring_eqb_refl.
    now destruct (name c).
  - intros j Hj _. rewrite carriesName_texts.
    destruct (jsstring_eqb (nth j (map name (A ++ c :: B)) []) (name c))
      eqn:E; [|now rewrite andb_false_r].
    apply jsstring_eqb_eq in E. exfalso.
    rewrite map_app in Hnd, E. cbn [map] in Hnd, E.
    apply NoDup_app_cons_after in Hnd. apply Hnd.
    rewrite app_nth2 in E by (rewrite length_map; lia).
    rewrite length_map in E.
    destruct (j - length A) as [|i] eqn:Ej; [lia|]. cbn [nth] in E.
    destruct (Nat.lt_ge_cases i (length (map name B))) as [Hi|Hi].
    + rewrite <- E. now apply nth_In.
    + rewrite nth_overflow in E by assumption. congruence.
Qed.

End Alignment.

(** X15. With a two-row header that is not the flat layout, a name of the
    combined header goes with the cell at the position of the name in the
    list of names, not with the cell of the column the name was built
    from: in every data row the name built from column [c] reads the cell
    of the column whose number is the count of the columns left of [c]
    that kept a name.  That is column [c] exactly when no column left of
    [c] was dropped (for having no name or a name already used). *)
Theorem sheetRows_two_row_alignment (RT : Runtime) (sheet : Grid)
  (h r1 r2 c : nat) :
  isSimpleStructure RT (nth r1 sheet []) (nth r2 sheet []) = false ->
  let name := columnName RT (nth r1 sheet []) (nth r2 sheet []) in
  let maxCols := Nat.max (textExtent RT (nth r1 sheet []))
                         (textExtent RT (nth r2 sheet [])) in
  let kept := keepsName name [] 0 in
  let k := countIf kept (seq 0 c) in
  c < maxCols -> kept c = true -> name c <> js "__proto__" ->
  k <= c
  /\ (k = c <-> forall c', c' < c -> kept c' = true)
  /\ Forall2 (fun row obj => getProp obj (name c) = cellAt row k)
             (skipn (Nat.max r1 r2 + 1) sheet)
             (sheetRows RT sheet h true [r1; r2]).
Proof.
  intros Hns name maxCols kept k Hc Hk Hproto.
  split; [apply countIf_seq_le|]. split; [apply countIf_seq_all|].
  unfold sheetRows. cbn [maxOf fold_right length andb].
  rewrite Nat.max_0_r. change (1 <? 2) with true. cbv iota.
  destruct (Nat.ltb_spec (Nat.max r1 r2) (length sheet)) as [Hlt|Hge].
  - unfold rowObjectsOf.
    induction (skipn (Nat.max r1 r2 + 1) sheet) as [|row rows IH];
      cbn [map]; constructor; [|exact IH].
    now apply combined_name_read.
  - rewrite skipn_all2 by lia. constructor.
Qed.

Lemma sheetRows_two_row_alignment_witness :
  Forall2 (fun row obj => getProp obj (js "합계 > 금액") = cellAt row 1)
          (skipn 2 gappedSheet)
          (sheetRows exampleRuntime gappedSheet 0 true [0; 1]).
Proof.
  exact (proj2 (proj2 (sheetRows_two_row_alignment exampleRuntime gappedSheet
                         0 0 1 2 eq_refl ltac:(vm_compute; lia) eq_refl
                         ltac:(discriminate)))).
Defined.

(** ** The headers offered and the columns read *)

Lemma fillHeaders_rows (data : Grid) (h : nat) (merges : list MergeRegion) :
  forall g : Grid,
  h < length g ->
  nonOverlapping merges ->
  (forall m, In m merges ->
     s_r m <= h <= e_r m -> s_r m <> h -> s_c m <= e_c m ->
     cellOf g (s_r m) (s_c m) = cellOf data (s_r m) (s_c m)) ->
  fold_left (fillHeaders data h) merges (nth h g [])
  = nth h (resolveMerges g merges) [].
Proof.
  induction merges as [|m0 ms IH]; intros g Hh Hno Hsrc; [reflexivity|].
  destruct Hno as [Hfirst Hrest].
  unfold resolveMerges in *. cbn [fold_left].
  destruct (fillRegion_rows g m0) as [Hlen Hrow].
  assert (Estep : fillHeaders data h (nth h g []) m0
                  = nth h (fillRegion g m0) []).
  { rewrite Hrow. unfold fillHeaders.
    apply Nat.ltb_lt in Hh as Hhb. rewrite Hhb, andb_true_r.
    destruct (Nat.leb_spec (s_r m0) h) as [H1|H1]; [|reflexivity].
    destruct (Nat.leb_spec h (e_r m0)) as [H2|H2]; [|reflexivity].
    cbn [andb]. unfold fillRow.
    destruct (Nat.le_gt_cases (s_c m0) (e_c m0)) as [Hc|Hc].
    - do 2 f_equal. destruct (Nat.eqb_spec (s_r m0) h) as [E|Hne].
      + rewrite E. reflexivity.
      + symmetry. apply Hsrc; [now left|split; assumption|exact Hne|exact Hc].
    - unfold mergeCols. replace (S (e_c m0) - s_c m0) with 0 by lia.
      reflexivity. }
  rewrite Estep. apply IH; [now rewrite Hlen|exact Hrest|].
  intros m Hin Hcov Hne Hc.
  rewrite cellOf_fillRegion, inRectb_false.
  - rewrite andb_false_r. cbn [andb]. apply Hsrc; auto. now right.
  - intros Hin0. rewrite Forall_forall in Hfirst.
    apply (Hfirst m Hin). exists (s_r m), (s_c m).
    split; [exact Hin0|]. unfold inRect. lia.
Qed.

Lemma headersOfRow_merged (RT : Runtime) (data : Grid)
  (merges : list MergeRegion) (h : nat) :
  h < length data ->
  nonOverlapping merges ->
  headersOfRow RT data merges h
  = Return (filter (isListedHeader RT)
                   (nth h (resolveMerges data merges) [])).
Proof.
  intros Hh Hno. unfold headersOfRow.
  destruct (Nat.leb_spec (length data) h) as [Hle|_]; [lia|].
  now rewrite (fillHeaders_rows data h merges data Hh Hno).
Qed.

Lemma getColumnHeaders_merged_eq (RT : Runtime) (data : Grid)
  (merges : list MergeRegion) (h : nat) (autoDetect : option bool) :
  h < length data ->
  nonOverlapping merges ->
  getColumnHeaders RT data merges (Some h) autoDetect
  = Return (filter (isListedHeader RT)
                   (nth h (resolveMerges data merges) [])).
Proof.
  intros Hh Hno. unfold getColumnHeaders.
  destruct (Nat.eqb_spec (length data) 0) as [E|_]; [lia|].
  now apply headersOfRow_merged.
Qed.

(** X16. For a header row inside the sheet and merge regions that do not
    overlap, the headers that [getColumnHeaders] lists are the cells of the
    header row as [processMergedCells] fills it, less the absent cells and
    those whose text is empty or white space: the two ways of filling merged
    header cells agree. *)
Theorem getColumnHeaders_merged (RT : Runtime) (data : Grid)
  (merges : list MergeRegion) (h : nat) (autoDetect : option bool) :
  h < length data ->
  nonOverlapping merges ->
  getColumnHeaders RT data merges (Some h) autoDetect
  = Return (filter (isListedHeader RT)
                   (nth h (resolveMerges data merges) [])).
Proof. apply getColumnHeaders_merged_eq. Qed.

Lemma getColumnHeaders_merged_witness :
  getColumnHeaders exampleRuntime mergedHeaderSheet
    [{| s_r := 0; s_c := 1; e_r := 0; e_c := 2 |}] (Some 0) None
  = Return [CStr (js "날짜"); CStr (js "매출"); CStr (js "매출")].
Proof.
  rewrite (getColumnHeaders_merged exampleRuntime mergedHeaderSheet
             [{| s_r := 0; s_c := 1; e_r := 0; e_c := 2 |}] 0 None
             ltac:(vm_compute; lia)
             ltac:(split; [constructor|exact I])).
  vm_compute. reflexivity.
Defined.

Lemma objGet_In {V} (o : JsObject V) (k : jsstring) (v : V) :
  objGet o k = Some v -> In k (map fst o).
Proof.
  induction o as [|[k' v'] o IH]; cbn [objGet map fst]; [discriminate|].
  destruct (jsstring_eqb k k') eqn:E.
  - apply jsstring_eqb_eq in E. intros _. now left.
  - intros H. right. now apply IH.
Qed.

Lemma insertIndexKey_In {V} (e x : jsstring * V) (l : JsObject V) :
  In x (insertIndexKey e l) <-> x = e \/ In x l.
Proof.
  induction l as [|e' l IH]; cbn [insertIndexKey].
  - cbn [In]. intuition auto.
  - destruct (decValue (fst e) <=? decValue (fst e'))%N; cbn [In].
    + intuition auto.
    + rewrite IH. intuition auto.
Qed.

Lemma Object_entries_In {V} (o : JsObject V) (x : jsstring * V) :
  In x (Object_entries o) <-> In x o.
Proof.
  unfold Object_entries. rewrite in_app_iff.
  assert (H : forall l : JsObject V,
             In x (fold_right insertIndexKey [] l) <-> In x l).
  { induction l as [|e l IH]; cbn [fold_right]; [reflexivity|].
    rewrite insertIndexKey_In, IH. cbn [In]. intuition auto. }
  rewrite H, !filter_In.
  destruct (isArrayIndex (fst x)); cbn [negb]; intuition congruence.
Qed.

Lemma Object_keys_In {V} (o : JsObject V) (k : jsstring) (v : V) :
  objGet o k = Some v -> In k (Object_keys o).
Proof.
  intros H. apply objGet_In in H. unfold Object_keys.
  apply in_map_iff in H as (x & <- & Hx). apply in_map.
  now apply Object_entries_In.
Qed.

Lemma objGet_objSet_some {V} (o : JsObject V) (k k' : jsstring) (v : V) :
  objGet o k' <> None -> objGet (objSet o k v) k' <> None.
Proof.
  intros H. destruct (list_eq_dec N.eq_dec k' k) as [->|Hne].
  - rewrite objGet_objSet_same. discriminate.
  - now rewrite objGet_objSet_other.
Qed.

Lemma rowObjectOf_key (RT : Runtime) (headers : list Cell) (row : Row)
  (name : jsstring) :
  name <> [] -> name <> js "__proto__" -> In (CStr name) headers ->
  objGet (rowObjectOf RT headers row) name <> None.
Proof.
  intros Hne Hproto.
  induction headers as [|h headers IH] using rev_ind; intros Hin;
    [contradiction|].
  rewrite rowObjectOf_snoc. unfold rowObjectStep.
  apply in_app_or in Hin as [Hin|[->|[]]].
  - specialize (IH Hin). destruct (truthy h); [|exact IH].
    destruct (jsstring_eqb (toString RT h) (js "__proto__")); [exact IH|].
    now apply objGet_objSet_some.
  - cbn [toString]. destruct name as [|c s]; [contradiction|].
    cbn [truthy]. rewrite (jsstring_eqb_neq _ _ Hproto).
    rewrite objGet_objSet_same. discriminate.
Qed.

Section ListedColumns.

Variable RT : Runtime.
Variable availableColumns : list jsstring.

Lemma foundColumn_exact (s : jsstring) :
  s <> [] -> In s availableColumns ->
  foundColumn RT availableColumns s = Some s.
Proof.
  intros Hne Hin. unfold foundColumn, findMatchingColumn. cbv zeta.
  rewrite (proj2 (arr_includes_In availableColumns s) Hin).
  now destruct s.
Qed.

Lemma matchColumn_exact (label s : jsstring) (missing : list jsstring) :
  s <> [] -> In s availableColumns ->
  matchColumn RT availableColumns label (Some s) missing = (Some s, missing).
Proof.
  intros Hne Hin. unfold matchColumn. now rewrite foundColumn_exact.
Qed.

Lemma matchAmountColumns_exact (l : list jsstring) :
  forall updated missing,
  (forall s, In s l -> s <> [] /\ In s availableColumns) ->
  fold_left
    (fun acc colName =>
       let '(updated, missing) := acc in
       match foundColumn RT availableColumns colName with
       | Some matched => (updated ++ [matched], missing)
       | None =>
         (updated, missing ++ [describeColumn (js "금액 컬럼") colName])
       end) l (updated, missing) = (updated ++ l, missing).
Proof.
  induction l as [|n l IH]; intros updated missing H; cbn [fold_left].
  - now rewrite app_nil_r.
  - destruct (H n ltac:(now left)) as [Hne Hin].
    rewrite foundColumn_exact by assumption.
    rewrite IH by (intros s Hs; apply H; now right).
    now rewrite <- app_assoc.
Qed.

Lemma matchColumns_exact (options : ProcessingOptions) :
  configured options = true ->
  (forall label name, In (label, name) (requiredColumns options) ->
     exists s, name = Some s /\ s <> [] /\ In s availableColumns) ->
  matchColumns RT availableColumns options = (options, []).
Proof.
  intros Hc H. destruct options as [dc ec tc mode ttc ac ev tv multi acs].
  unfold requiredColumns in H. unfold matchColumns, configured in *.
  cbn [dateColumn taxExemptColumn taxableColumn useTaxTypeClassification
       taxTypeColumn amountColumn taxExemptValues taxableValues
       useMultiColumnSum amountColumns] in *.
  destruct (H _ dc (or_introl eq_refl)) as (d & -> & Hd1 & Hd2).
  rewrite (matchColumn_exact _ d [] Hd1 Hd2).
  destruct mode.
  - destruct (H _ ttc (or_intror (or_introl eq_refl)))
      as (t & -> & Ht1 & Ht2).
    rewrite (matchColumn_exact _ t [] Ht1 Ht2).
    destruct multi.
    + destruct acs as [l|].
      * rewrite (matchAmountColumns_exact l [] []); [reflexivity|].
        intros s Hs.
        destruct (H (js "금액 컬럼") (Some s)) as (s' & [= <-] & H1 & H2);
          [|now split].
        right. right. apply in_map_iff. now exists s.
      * rewrite !andb_false_r in Hc. discriminate.
    + destruct (H _ ac (or_intror (or_intror (or_introl eq_refl))))
        as (a & -> & Ha1 & Ha2).
      now rewrite (matchColumn_exact _ a [] Ha1 Ha2).
  - destruct (H _ ec (or_intror (or_introl eq_refl)))
      as (e & -> & He1 & He2).
    destruct (H _ tc (or_intror (or_intror (or_introl eq_refl))))
      as (x & -> & Hx1 & Hx2).
    rewrite (matchColumn_exact _ e [] He1 He2).
    now rewrite (matchColumn_exact _ x [] Hx1 Hx2).
Qed.

End ListedColumns.

Lemma sheetRows_single (RT : Runtime) (sheet : Grid) (h : nat) :
  sheetRows RT sheet h false [h]
  = map (rowObjectOf RT (nth h sheet [])) (skipn (h + 1) sheet).
Proof.
  unfold sheetRows, rowObjectsOf. cbn [maxOf fold_right andb].
  rewrite Nat.max_0_r.
  destruct (Nat.ltb_spec h (length sheet)) as [Hlt|Hge]; [reflexivity|].
  now rewrite skipn_all2 by lia.
Qed.

Lemma readSheet_given (RT : Runtime) (DRT : DateRuntime)
  (detectData data : Grid) (merges : list MergeRegion) (h : nat)
  (options : ProcessingOptions) :
  readSheet RT DRT detectData data merges (Some h) options
  = readExcelFile RT
      (parseDateString RT DRT (extractSikbomDateContext RT data))
      (sheetRows RT (resolveMerges data merges) h false [h]) options.
Proof.
  unfold readSheet, headerOf. now destruct merges.
Qed.

Lemma readExcelFile_named (RT : Runtime)
  (parseDateText : jsstring -> option Z) (headers : list Cell) (row : Row)
  (rest : list RowObject) (options : ProcessingOptions) :
  configured options = true ->
  (forall label name, In (label, name) (requiredColumns options) ->
     exists s, name = Some s /\ s <> [] /\ s <> js "__proto__"
               /\ In (CStr s) headers) ->
  readExcelFile RT parseDateText (rowObjectOf RT headers row :: rest) options
  = Return (parseMonthlyData RT parseDateText
              (rowObjectOf RT headers row :: rest) options).
Proof.
  intros Hconf Hnames. unfold readExcelFile.
  rewrite (proj2 (checkConfigured_configured options) Hconf).
  cbv zeta. rewrite matchColumns_exact; [reflexivity|exact Hconf|].
  intros label name Hin.
  destruct (Hnames label name Hin) as (s & -> & Hne & Hproto & Hs).
  exists s. split; [reflexivity|]. split; [exact Hne|].
  destruct (objGet (rowObjectOf RT headers row) s) as [v|] eqn:E.
  - exact (Object_keys_In _ _ _ E).
  - exfalso. exact (rowObjectOf_key RT _ row s Hne Hproto Hs E).
Qed.

Lemma isListedHeader_text (RT : Runtime) (s : jsstring) :
  isListedHeader RT (CStr s) = true -> s <> [].
Proof. intros H ->. cbn in H. discriminate. Qed.



(** X18. A header row given as the last row of the sheet or beyond it
    yields no record and no error, whatever the options: with no row under
    the header neither the configuration nor the column names are checked.
    [getColumnHeaders] throws for a header row beyond the sheet. *)
Theorem readSheet_without_rows (RT : Runtime) (DRT : DateRuntime)
  (detectData data : Grid) (merges : list MergeRegion) (h : nat)
  (autoDetect : option bool) (options : ProcessingOptions) :
  length data <= S h ->
  readSheet RT DRT detectData data merges (Some h) options = Return []
  /\ (length data <= h ->
      getColumnHeaders RT data merges (Some h) autoDetect
      = Throw (if length data =? 0 then js "No data found in Excel file"
               else js "Header row " ++ natToString (N.of_nat h)
                    ++ js " exceeds data length "
                    ++ natToString (N.of_nat (length data)))).
Proof.
  intros Hle. split.
  - rewrite readSheet_given, sheetRows_single.
    rewrite skipn_all2; [reflexivity|].
    rewrite length_resolveMerges. lia.
  - intros Hh. unfold getColumnHeaders, headersOfRow.
    destruct (length data =? 0); [reflexivity|].
    apply Nat.leb_le in Hh. now rewrite Hh.
Qed.

Lemma readSheet_without_rows_witness :
  readSheet exampleRuntime exampleDateRuntime reportSheet reportSheet []
            (Some 4) unsetOptions = Return [].
Proof.
  exact (proj1 (readSheet_without_rows exampleRuntime exampleDateRuntime
                  reportSheet reportSheet [] 4 None unsetOptions
                  ltac:(vm_compute; lia))).
Defined.

(** ** Summary lines *)

Lemma startsWith_split (s p : jsstring) :
  startsWith s p = true -> exists rest, s = p ++ rest.
Proof.
  revert s. induction p as [|a p IH]; intros s H.
  - now exists s.
  - destruct s as [|b s]; [discriminate|]. cbn [startsWith] in H.
    apply andb_prop in H as [E H]. apply N.eqb_eq in E. subst b.
    destruct (IH s H) as [rest ->]. now exists rest.
Qed.

Lemma includes_split (s p : jsstring) :
  includes s p = true -> exists a b, s = a ++ p ++ b.
Proof.
  induction s as [|c s IH]; cbn [includes]; intros H.
  - rewrite orb_false_r in H. apply startsWith_split in H as [rest E].
    now exists [], rest.
  - apply orb_prop in H as [H|H].
    + apply startsWith_split in H as [rest E]. now exists [], rest.
    + destruct (IH H) as (a & b & ->). now exists (c :: a), b.
Qed.

Lemma includes_part (s x y z : jsstring) :
  includes s (x ++ y ++ z) = true -> includes s y = true.
Proof.
  intros H. apply includes_split in H as (a & b & ->).
  replace (a ++ (x ++ y ++ z) ++ b) with ((a ++ x) ++ y ++ (z ++ b))
    by (now rewrite <- !app_assoc).
  apply includes_app.
Qed.

(** X19. On a runtime whose [toLowerCase] leaves the eight patterns as they
    are, four patterns decide: a date value marks a summary line exactly
    when it is not absent or empty and its trimmed text in lower case
    contains [계], [총합], [total] or [sum]; the other four patterns each
    contain one of these. *)
Theorem isSummaryRow_decisive (RT : Runtime) (dateValue : Cell) :
  Forall (fun pattern => toLowerCase RT pattern = pattern) summaryPatterns ->
  isSummaryRow RT dateValue
  = negb (isBlank dateValue)
    && some (includes (toLowerCase RT (trim (toString RT dateValue))))
            decisivePatterns.
Proof.
  intros Hlow.
  assert (E : forall s,
    some (fun pattern => includes s (toLowerCase RT pattern)) summaryPatterns
    = some (includes s) decisivePatterns).
  { intros s. unfold some, summaryPatterns, decisivePatterns in *.
    repeat match goal with
    | H : Forall _ (_ :: _) |- _ => inversion_clear H
    end.
    cbn [existsb].
    repeat match goal with
    | H : toLowerCase RT _ = _ |- _ => rewrite H; clear H
    end.
    pose proof (includes_part s (js "합") (js "계") []) as H1.
    pose proof (includes_part s (js "총") (js "계") []) as H2.
    pose proof (includes_part s (js "소") (js "계") []) as H3.
    pose proof (includes_part s (js "sub") (js "total") []) as H4.
    change (js "합" ++ js "계" ++ []) with (js "합계") in H1.
    change (js "총" ++ js "계" ++ []) with (js "총계") in H2.
    change (js "소" ++ js "계" ++ []) with (js "소계") in H3.
    change (js "sub" ++ js "total" ++ []) with (js "subtotal") in H4.
    destruct (includes s (js "합계")); [now rewrite H1|].
    destruct (includes s (js "총계")); [now rewrite H2|].
    destruct (includes s (js "소계")); [now rewrite H3|].
    destruct (includes s (js "subtotal")); [rewrite H4 by reflexivity|];
      destruct (includes s (js "계")), (includes s (js "총합")),
        (includes s (js "total")), (includes s (js "sum")); reflexivity. }
  unfold isSummaryRow.
  destruct dateValue as [| |q|[|c s]|d]; cbn [isBlank negb andb];
    try reflexivity; apply E.
Qed.

Lemma isSummaryRow_decisive_witness :
  isSummaryRow exampleRuntime (CStr (js "2024년 회계"))
  = negb (isBlank (CStr (js "2024년 회계")))
    && some (includes (toLowerCase exampleRuntime
                         (trim (toString exampleRuntime
                                  (CStr (js "2024년 회계"))))))
            decisivePatterns.
Proof.
  apply (isSummaryRow_decisive exampleRuntime (CStr (js "2024년 회계"))).
  repeat constructor.
Defined.

(** ** The growth rate *)

From Stdlib Require Import Lqa.

Lemma Qnum_zero (q : Q) : (Qnum q =? 0)%Z = false <-> ~ (q == 0)%Q.
Proof.
  unfold Qeq. cbn [Qnum Qden]. rewrite Z.eqb_neq. lia.
Qed.

Lemma growth_sign (c p r : Q) :
  ~ (p == 0)%Q -> (r == (c - p) / p * 100)%Q ->
  ((r == 0 <-> c == p)
   /\ (0 < r <-> (p < c /\ 0 < p) \/ (c < p /\ p < 0)))%Q.
Proof.
  intros Hp Hr.
  assert (E : (r * p == (c - p) * 100)%Q) by (rewrite Hr; field; exact Hp).
  assert (Hs : (p < 0 \/ 0 < p)%Q).
  { destruct (Q_dec p 0) as [[H|H]|H]; [now left|now right|contradiction]. }
  split; split.
  - intros H0. rewrite H0 in E. lra.
  - intros Hc. assert (Z : (r * p == 0)%Q) by (rewrite E; lra).
    apply Qmult_integral in Z as [Z|Z]; [exact Z|contradiction].
  - intros Hpos.
    destruct Hs as [Hn|Hn]; [right|left]; (split; [|exact Hn]); nra.
  - intros [[H1 H2]|[H1 H2]]; nra.
Qed.



(** ** The export as text *)

Lemma length_splitOn (sep : N) (s : jsstring) :
  length (splitOn sep s) = S (count_occ N.eq_dec s sep).
Proof.
  induction s as [|c s IH]; [reflexivity|]. cbn [splitOn count_occ].
  destruct (N.eqb_spec c sep) as [->|Hne].
  - destruct (N.eq_dec sep sep); [|congruence]. cbn [length]. now rewrite IH.
  - destruct (N.eq_dec c sep); [congruence|].
    destruct (splitOn sep s) as [|part parts]; [discriminate|].
    cbn [length] in *. exact IH.
Qed.

Lemma count_occ_absent (sep : N) (s : jsstring) :
  ~ In sep s -> count_occ N.eq_dec s sep = 0.
Proof. apply count_occ_not_In. Qed.

Lemma splitOn_join (sep : N) (l : list jsstring) :
  l <> [] -> Forall (fun part => ~ In sep part) l ->
  splitOn sep (join [sep] l) = l.
Proof.
  induction l as [|p l IH]; intros Hne Hall; [congruence|].
  inversion_clear Hall as [|? ? Hp Hl]. destruct l as [|p' l].
  - cbn [join]. now apply splitOn_no_sep.
  - change (join [sep] (p :: p' :: l)) with (p ++ sep :: join [sep] (p' :: l)).
    rewrite splitOn_app by exact Hp. f_equal. apply IH; [discriminate|exact Hl].
Qed.

Lemma wholeAmount_text (RT : Runtime) (n : number) :
  wholeAmount n ->
  exists k, num_toString RT n = natToString k
            /\ num_equiv (Number_ofString (natToString k)) n.
Proof.
  intros (z & Hz & He). destruct n as [|q|s]; cbn in He; try contradiction.
  assert (Hq : Qnum q = (z * Zpos (Qden q))%Z).
  { unfold Qeq in He. cbn [Qnum Qden inject_Z] in He. lia. }
  assert (Hd : (Qnum q / Zpos (Qden q) = z)%Z)
    by (rewrite Hq; apply Z.div_mul; lia).
  exists (Z.to_N z). split.
  - cbn [num_toString]. unfold Number_toString, isPlainInteger.
    rewrite Hd. replace (Qnum q mod Zpos (Qden q))%Z with 0%Z
      by (rewrite Hq; symmetry; apply Z.mod_mul; lia).
    cbn [Z.eqb andb].
    destruct (Z.ltb_spec (Z.abs z) (10 ^ 21)) as [_|Hge]; [|lia].
    apply intToString_nonneg. lia.
  - rewrite Number_ofString_natToString, Z2N.id by lia. exact (Qeq_sym _ _ He).
Qed.

Lemma natToString_free (sep k : N) :
  isDigit sep = false -> ~ In sep (natToString k).
Proof.
  intros Hs Hin. pose proof (natToString_digits k) as D.
  rewrite forallb_forall in D. specialize (D _ Hin). congruence.
Qed.

Lemma csvLine_fields (RT : Runtime) (r : CalculationResult) :
  wholeTotals r ->
  exists a b c,
    csvLine RT r = cr_mallName r ++ 44%N :: a ++ 44%N :: b ++ 44%N :: c
    /\ (forall sep, isDigit sep = false ->
          ~ In sep a /\ ~ In sep b /\ ~ In sep c)
    /\ num_equiv (Number_ofString a) (yt_taxExempt (yearlyTotal r))
    /\ num_equiv (Number_ofString b) (yt_taxable (yearlyTotal r))
    /\ num_equiv (Number_ofString c) (yt_total (yearlyTotal r)).
Proof.
  intros (Ha & Hb & Hc).
  destruct (wholeAmount_text RT _ Ha) as (a & Ea & Ra).
  destruct (wholeAmount_text RT _ Hb) as (b & Eb & Rb).
  destruct (wholeAmount_text RT _ Hc) as (c & Ec & Rc).
  exists (natToString a), (natToString b), (natToString c).
  split; [|split; [|auto]].
  - unfold csvLine. rewrite Ea, Eb, Ec. reflexivity.
  - intros sep Hs. auto using natToString_free.
Qed.

(** X21. The text export writes the names of the shops as they are, without
    quoting.  For yearly totals that are whole amounts, a line has four
    fields and as many more as the name holds commas; and when no name
    holds a comma or a line feed, the text splits at the line feeds into
    the header and one line per result, and each line splits at the commas
    into the name and three texts that read back as the three totals. *)
Theorem exportCsv_round_trip (RT : Runtime)
  (results : list CalculationResult) :
  Forall wholeTotals results ->
  Forall (fun r =>
            length (splitOn 44 (csvLine RT r))
            = 4 + count_occ N.eq_dec (cr_mallName r) 44%N) results
  /\ (Forall (fun r => ~ In 44%N (cr_mallName r)
                       /\ ~ In 10%N (cr_mallName r)) results ->
      splitOn 10 (exportCsv RT results)
      = csvHeader :: map (csvLine RT) results
      /\ Forall (fun r =>
                   exists a b c,
                     splitOn 44 (csvLine RT r) = [cr_mallName r; a; b; c]
                     /\ num_equiv (Number_ofString a)
                                  (yt_taxExempt (yearlyTotal r))
                     /\ num_equiv (Number_ofString b)
                                  (yt_taxable (yearlyTotal r))
                     /\ num_equiv (Number_ofString c)
                                  (yt_total (yearlyTotal r))) results).
Proof.
  intros Hwhole. split; [|intros Hnames; split].
  - rewrite Forall_forall in *. intros r Hr.
    destruct (csvLine_fields RT r (Hwhole r Hr))
      as (a & b & c & -> & Hfree & _).
    destruct (Hfree 44%N eq_refl) as (Fa & Fb & Fc).
    rewrite length_splitOn, count_occ_app. cbn [count_occ].
    destruct (N.eq_dec 44 44) as [_|]; [|congruence].
    rewrite count_occ_app. cbn [count_occ].
    destruct (N.eq_dec 44 44) as [_|]; [|congruence].
    rewrite count_occ_app. cbn [count_occ].
    destruct (N.eq_dec 44 44) as [_|]; [|congruence].
    rewrite (count_occ_absent 44 a Fa), (count_occ_absent 44 b Fb),
      (count_occ_absent 44 c Fc). lia.
  - unfold exportCsv. apply splitOn_join; [discriminate|].
    constructor.
    + intros Hin. vm_compute in Hin. intuition discriminate.
    + rewrite Forall_forall in *. intros line Hline.
      apply in_map_iff in Hline as (r & <- & Hr).
      destruct (csvLine_fields RT r (Hwhole r Hr))
        as (a & b & c & -> & Hfree & _).
      destruct (Hfree 10%N eq_refl) as (Fa & Fb & Fc).
      destruct (Hnames r Hr) as [_ Hn].
      rewrite !in_app_iff. cbn [In]. rewrite !in_app_iff. cbn [In].
      rewrite !in_app_iff. cbn [In]. intuition discriminate.
  - rewrite Forall_forall in *. intros r Hr.
    destruct (csvLine_fields RT r (Hwhole r Hr))
      as (a & b & c & E & Hfree & Ra & Rb & Rc).
    destruct (Hfree 44%N eq_refl) as (Fa & Fb & Fc).
    destruct (Hnames r Hr) as [Hn _].
    exists a, b, c. split; [|auto]. rewrite E.
    rewrite !splitOn_app by assumption.
    now rewrite splitOn_no_sep.
Qed.

Lemma exportCsv_round_trip_witness :
  length (splitOn 44 (csvLine exampleRuntime sampleResult)) = 5.
Proof.
  pose proof (proj1 (exportCsv_round_trip exampleRuntime [sampleResult]
    ltac:(repeat constructor;
          [exists 1000%Z|exists 2000%Z|exists 3000%Z];
          (split; [lia|reflexivity])))) as H.
  inversion_clear H as [|? ? H0 _]. exact H0.
Defined.

Lemma rowHeaders_nonempty (RT : Runtime) (row : Row) (name : jsstring) :
  In name (rowHeaders RT row) -> name <> [].
Proof.
  unfold rowHeaders. intros H. apply filter_In in H as [_ H].
  now destruct name.
Qed.

Lemma combineMultiRowHeaders_nonempty (RT : Runtime) (data : Grid)
  (rows : list nat) (name : jsstring) :
  In name (combineMultiRowHeaders RT data rows) -> name <> [].
Proof.
  destruct rows as [|r1 [|r2 rows]]; cbn [combineMultiRowHeaders].
  - contradiction.
  - apply rowHeaders_nonempty.
  - destruct (isSimpleStructure RT _ _).
    + destruct (_ <? _); apply rowHeaders_nonempty.
    + unfold combinedHeaders. rewrite uniqueHeaders_columns.
      intros H. apply in_map_iff in H as (c & <- & Hc).
      apply filter_In in Hc as [_ Hc].
      now apply keepsName_first in Hc.
Qed.

Lemma detectHeaderRowFull_headerRows (RT : Runtime) (data : Grid)
  (d : FullDetection) :
  detectHeaderRowFull RT data = Return d ->
  (isMultiRowHeaderOf d = true -> 1 < length (headerRowsOf d))
  /\ (isMultiRowHeaderOf d = false ->
      headerRowsOf d = [headerRow (fd_detection d)]).
Proof.
  unfold detectHeaderRowFull, isMultiRowHeaderOf, headerRowsOf.
  destruct (length data =? 0); [discriminate|].
  destruct (Array_sort _ _) as [|best rest]; intros [= <-];
    cbn [fd_multiRow fd_detection headerRow].
  - split; [discriminate|reflexivity].
  - destruct (detectMultiRowHeaders_shape RT data (cand_row best))
      as ([[E1 E2]|[E1 [E2|[_ E2]]]] & _); rewrite E1, E2;
      (split; intros H; try discriminate H;
       first [reflexivity | cbn [length]; lia]).
Qed.


